(** * YouTube video analyzer (app.py): the analysis pipeline

    A shallow embedding of [YouTubeAnalyzer] and of the [/api/analyze]
    route.  Python [str] values are sequences of Unicode code points;
    calls to the outside world (yt-dlp, the temporary-file namespace, the
    generative service) are steps of a state-and-exception monad over an
    explicit world, whose answers come from an environment record. *)

From Stdlib Require Import ZArith NArith List String Ascii Bool Lia.
From stdpp Require Import gmap strings list fin_maps.

Local Open Scope N_scope.

(** ** Python strings *)

(** A Python [str] is a sequence of code points. *)
Abbreviation pystr := (list N).

(** Source literals are UTF-8 text; [utf8_decode] turns the bytes of a
    literal into its code points. *)
Fixpoint utf8_decode (bs : list N) : pystr :=
  match bs with
  | [] => []
  | b :: r =>
    if b <? 128 then b :: utf8_decode r
    else if b <? 224 then
      match r with
      | b1 :: r1 => ((b - 192) * 64 + (b1 - 128)) :: utf8_decode r1
      | _ => []
      end
    else if b <? 240 then
      match r with
      | b1 :: b2 :: r2 =>
        ((b - 224) * 4096 + (b1 - 128) * 64 + (b2 - 128)) :: utf8_decode r2
      | _ => []
      end
    else
      match r with
      | b1 :: b2 :: b3 :: r3 =>
        ((b - 240) * 262144 + (b1 - 128) * 4096 + (b2 - 128) * 64 + (b3 - 128))
          :: utf8_decode r3
      | _ => []
      end
  end.

Definition bytes_of (s : string) : list N :=
  List.map N_of_ascii (list_ascii_of_string s).

(** [lit "..."] is the Python string written as that literal. *)
Definition lit (s : string) : pystr := utf8_decode (bytes_of s).

Definition chr (a : ascii) : N := N_of_ascii a.

(** [s.startswith(p)], returning what follows the prefix. *)
Fixpoint strip_prefix (p s : pystr) : option pystr :=
  match p, s with
  | [], _ => Some s
  | a :: p', b :: s' => if a =? b then strip_prefix p' s' else None
  | _ :: _, [] => None
  end.

Definition memb (c : N) (cs : list N) : bool := existsb (N.eqb c) cs.

(** The longest prefix of [s] whose characters satisfy [f], and the rest. *)
Fixpoint span (f : N -> bool) (s : pystr) : pystr * pystr :=
  match s with
  | [] => ([], [])
  | c :: r => if f c then let '(a, b) := span f r in (c :: a, b) else ([], s)
  end.

(** ** Identifier extractor *)

(** Both patterns of [extract_video_id] have the form
    [(?:l1|l2|...)([^cs]+)]: an ordered alternation of literals followed
    by the one capture group, a greedy non-empty run of characters outside
    a set. *)
Record pattern := Pattern { alts : list pystr; excluded : list N }.

(** One attempt at a fixed position: the alternatives are tried in order,
    and an alternative whose literal matches but is followed by no
    admissible character fails over to the next one. *)
Fixpoint match_alts (ls : list pystr) (cs : list N) (s : pystr) : option pystr :=
  match ls with
  | [] => None
  | l :: ls' =>
    match strip_prefix l s with
    | Some r =>
      match fst (span (fun c => negb (memb c cs)) r) with
      | [] => match_alts ls' cs s
      | g => Some g
      end
    | None => match_alts ls' cs s
    end
  end.

Definition match_at (p : pattern) (s : pystr) : option pystr :=
  match_alts (alts p) (excluded p) s.

(** [re.search(p, s)] followed by [.group(1)]: the leftmost position at
    which the pattern matches. *)
Fixpoint re_search (p : pattern) (s : pystr) : option pystr :=
  match match_at p s with
  | Some g => Some g
  | None => match s with [] => None | _ :: r => re_search p r end
  end.

Definition id_stop : list N := Eval vm_compute in
  [chr "&"; 10; chr "?"; chr "#"].

Definition patterns : list pattern :=
  [ Pattern [lit "youtube.com/watch?v="; lit "youtu.be/"; lit "youtube.com/embed/"]
            id_stop;
    Pattern [lit "youtube.com/v/"] id_stop ].

(** The [for pattern in patterns] loop with its early [return]. *)
Fixpoint first_match (ps : list pattern) (url : pystr) : option pystr :=
  match ps with
  | [] => None
  | p :: ps' =>
    match re_search p url with
    | Some g => Some g
    | None => first_match ps' url
    end
  end.

Definition extract_video_id (url : pystr) : option pystr :=
  first_match patterns url.

(** ** [str.strip] and [str.replace] *)

(** The characters [str.strip()] removes: those for which [str.isspace]
    holds. *)
Definition is_py_space (c : N) : bool :=
  ((9 <=? c) && (c <=? 13)) || ((28 <=? c) && (c <=? 32))
  || (c =? 133) || (c =? 160) || (c =? 5760)
  || ((8192 <=? c) && (c <=? 8202))
  || (c =? 8232) || (c =? 8233) || (c =? 8239) || (c =? 8287) || (c =? 12288).

Fixpoint lstrip (s : pystr) : pystr :=
  match s with
  | [] => []
  | c :: r => if is_py_space c then lstrip r else s
  end.

Definition rstrip (s : pystr) : pystr := rev (lstrip (rev s)).

Definition py_strip (s : pystr) : pystr := rstrip (lstrip s).

Definition starts_with (p s : pystr) : bool :=
  match strip_prefix p s with Some _ => true | None => false end.

(** [s.replace(old, '')] for a non-empty [old]: occurrences are found
    from the left and do not overlap.  [skip] counts the characters of a
    found occurrence that are still to be dropped. *)
Fixpoint remove_from (old : pystr) (skip : nat) (s : pystr) : pystr :=
  match s with
  | [] => []
  | c :: r =>
    match skip with
    | S k => remove_from old k r
    | O =>
      if starts_with old s then remove_from old (Nat.pred (length old)) r
      else c :: remove_from old 0 r
    end
  end.

Definition remove_all (old s : pystr) : pystr := remove_from old 0 s.

(** ** JSON values and [json.loads] *)

(** What [json.loads] returns: [None], [bool], [int], [float], [str],
    [list] and [dict] (insertion-ordered).  A [float] is kept as the
    three parts of its literal, and the constants [NaN], [Infinity] and
    [-Infinity] by name. *)
#[warnings="-register-all"]
Inductive json :=
| JNull
| JBool (b : bool)
| JInt (z : Z)
| JFloat (int frac exp : pystr)
| JConst (name : pystr)
| JStr (s : pystr)
| JArr (l : list json)
| JObj (kvs : list (pystr * json)).

(** [dict(pairs)]: a repeated key keeps its first position and takes the
    last value. *)
Fixpoint dict_set (k : pystr) (v : json) (d : list (pystr * json))
  : list (pystr * json) :=
  match d with
  | [] => [(k, v)]
  | (k', v') :: d' =>
    if bool_decide (k' = k) then (k, v) :: d' else (k', v') :: dict_set k v d'
  end.

Definition dict_of (pairs : list (pystr * json)) : list (pystr * json) :=
  fold_left (fun d kv => dict_set (fst kv) (snd kv) d) pairs [].

Fixpoint dict_get (k : pystr) (d : list (pystr * json)) : option json :=
  match d with
  | [] => None
  | (k', v) :: d' => if bool_decide (k' = k) then Some v else dict_get k d'
  end.

(** The outcome of a scanner: a value and the unread text, a decoding
    error, or recursion cut off by the fuel. *)
Inductive pres (A : Type) :=
| POk (a : A) (rest : pystr)
| PFail
| PFuel.
Arguments POk {A} a rest.
Arguments PFail {A}.
Arguments PFuel {A}.

Definition pbind {A B} (x : pres A) (k : A -> pystr -> pres B) : pres B :=
  match x with
  | POk a r => k a r
  | PFail => PFail
  | PFuel => PFuel
  end.

(** JSON's own whitespace, [[ \t\n\r]]. *)
Definition is_json_ws (c : N) : bool :=
  (c =? 32) || (c =? 9) || (c =? 10) || (c =? 13).

Fixpoint skip_ws (s : pystr) : pystr :=
  match s with
  | [] => []
  | c :: r => if is_json_ws c then skip_ws r else s
  end.

Definition is_digit (c : N) : bool := (48 <=? c) && (c <=? 57).

Definition hexval (c : N) : option N :=
  if is_digit c then Some (c - 48)
  else if (97 <=? c) && (c <=? 102) then Some (c - 87)
  else if (65 <=? c) && (c <=? 70) then Some (c - 55)
  else None.

(** [_decode_uXXXX]: exactly four hexadecimal digits. *)
Definition hex4 (a b c d : N) : option N :=
  match hexval a, hexval b, hexval c, hexval d with
  | Some x, Some y, Some z, Some t => Some (((x * 16 + y) * 16 + z) * 16 + t)
  | _, _, _, _ => None
  end.

(** The table [BACKSLASH] of one-letter escapes: quote, backslash, slash,
    and the letters b, f, n, r, t. *)
Definition unescape (e : N) : option N :=
  if e =? 34 then Some 34
  else if e =? 92 then Some 92
  else if e =? 47 then Some 47
  else if e =? 98 then Some 8
  else if e =? 102 then Some 12
  else if e =? 110 then Some 10
  else if e =? 114 then Some 13
  else if e =? 116 then Some 9
  else None.

Definition is_high_surrogate (u : N) : bool := (55296 <=? u) && (u <=? 56319).
Definition is_low_surrogate (u : N) : bool := (56320 <=? u) && (u <=? 57343).

Definition hex4_at (s : pystr) : option N :=
  match s with
  | a :: b :: c :: d :: _ => hex4 a b c d
  | _ => None
  end.

(** One escape of [scanstring], read after its backslash: the character
    it denotes and the number of characters it takes up.  A high
    surrogate directly followed by an escaped low surrogate gives one
    character; a high surrogate followed by a backslash and [u] that do
    not start a valid escape is an error. *)
Definition scan_escape (r : pystr) : option (N * nat) :=
  match r with
  | [] => None
  | e :: r1 =>
    if e =? 117 then
      match hex4_at r1 with
      | None => None
      | Some u =>
        if is_high_surrogate u && starts_with [92; 117] (drop 4 r1) then
          match hex4_at (drop 6 r1) with
          | None => None
          | Some u2 =>
            if is_low_surrogate u2
            then Some (65536 + ((u - 55296) * 1024 + (u2 - 56320)), 11%nat)
            else Some (u, 5%nat)
          end
        else Some (u, 5%nat)
      end
    else
      match unescape e with
      | Some x => Some (x, 1%nat)
      | None => None
      end
  end.

(** [scanstring(s, end, strict=True)], entered after the opening quote.
    [acc] holds the decoded characters, latest first; [skip] counts the
    characters of the escape just read that are still to be passed. *)
Fixpoint scan_string (skip : nat) (s : pystr) (acc : pystr) : pres pystr :=
  match s with
  | [] => PFail
  | c :: r =>
    match skip with
    | S k => scan_string k r acc
    | O =>
      if c =? 34 then POk (rev acc) r
      else if c =? 92 then
        match scan_escape r with
        | Some (u, n) => scan_string n r (u :: acc)
        | None => PFail
        end
      else if c <? 32 then PFail
      else scan_string 0 r (c :: acc)
    end
  end.

(** Decimal value of a run of digits. *)
Definition dec_value (ds : pystr) : Z :=
  fold_left (fun a d => (a * 10 + Z.of_N (d - 48))%Z) ds 0%Z.

(** The integer part of [NUMBER_RE]: [0] alone, or a non-zero digit
    followed by digits. *)
Definition scan_int (s : pystr) : option (pystr * pystr) :=
  match s with
  | [] => None
  | c :: r =>
    if c =? 48 then Some ([c], r)
    else if is_digit c then Some (span is_digit s)
    else None
  end.

(** The optional group [(\.[0-9]+)?]. *)
Definition scan_frac (s : pystr) : pystr * pystr :=
  match s with
  | [] => ([], s)
  | d :: r =>
    if d =? 46 then
      match span is_digit r with
      | ([], _) => ([], s)
      | (ds, r') => (d :: ds, r')
      end
    else ([], s)
  end.

Definition scan_sign (s : pystr) : pystr * pystr :=
  match s with
  | [] => ([], s)
  | c :: r => if (c =? 43) || (c =? 45) then ([c], r) else ([], s)
  end.

(** The optional group [([eE][-+]?[0-9]+)?]. *)
Definition scan_exp (s : pystr) : pystr * pystr :=
  match s with
  | [] => ([], s)
  | e :: r =>
    if (e =? 101) || (e =? 69) then
      let '(sg, r1) := scan_sign r in
      match span is_digit r1 with
      | ([], _) => ([], s)
      | (ds, r2) => (e :: sg ++ ds, r2)
      end
    else ([], s)
  end.

(** [NUMBER_RE] after its optional sign, and the conversion that follows
    the match: [int] when neither a fraction nor an exponent is present,
    [float] otherwise. *)
Definition scan_unsigned (neg : bool) (s : pystr) : option (json * pystr) :=
  match scan_int s with
  | None => None
  | Some (ds, r) =>
    let '(fr, r1) := scan_frac r in
    let '(ex, r2) := scan_exp r1 in
    match fr, ex with
    | [], [] =>
      Some (JInt (if neg then - dec_value ds else dec_value ds)%Z, r2)
    | _, _ => Some (JFloat (if neg then 45 :: ds else ds) fr ex, r2)
    end
  end.

(** [match_number]. *)
Definition scan_number (s : pystr) : option (json * pystr) :=
  match s with
  | c :: r => if c =? 45 then scan_unsigned true r else scan_unsigned false s
  | [] => scan_unsigned false s
  end.

Definition kw_null : pystr := Eval vm_compute in lit "null".
Definition kw_true : pystr := Eval vm_compute in lit "true".
Definition kw_false : pystr := Eval vm_compute in lit "false".
Definition kw_nan : pystr := Eval vm_compute in lit "NaN".
Definition kw_inf : pystr := Eval vm_compute in lit "Infinity".
Definition kw_neg_inf : pystr := Eval vm_compute in lit "-Infinity".

(** The scalar branches of [_scan_once], in the order they are tried. *)
Definition scan_scalar (s : pystr) : pres json :=
  match strip_prefix kw_null s with
  | Some r => POk JNull r
  | None =>
  match strip_prefix kw_true s with
  | Some r => POk (JBool true) r
  | None =>
  match strip_prefix kw_false s with
  | Some r => POk (JBool false) r
  | None =>
  match scan_number s with
  | Some (v, r) => POk v r
  | None =>
  match strip_prefix kw_nan s with
  | Some r => POk (JConst kw_nan) r
  | None =>
  match strip_prefix kw_inf s with
  | Some r => POk (JConst kw_inf) r
  | None =>
  match strip_prefix kw_neg_inf s with
  | Some r => POk (JConst kw_neg_inf) r
  | None => PFail
  end end end end end end end.

(** [_scan_once], [JSONArray] and [JSONObject].  The two loops are
    entered at the first element, after the opening bracket, the
    whitespace that follows it and the test for an empty container.
    One unit of fuel is spent per call and per loop round. *)
Fixpoint scan_once (fuel : nat) (s : pystr) : pres json :=
  match fuel with
  | O => PFuel
  | S f =>
    match s with
    | [] => PFail
    | c :: r =>
      if c =? 34 then pbind (scan_string 0 r []) (fun k r' => POk (JStr k) r')
      else if c =? 123 then
        match skip_ws r with
        | c1 :: r1 =>
          if c1 =? 125 then POk (JObj []) r1
          else object_items f [] (c1 :: r1)
        | [] => PFail
        end
      else if c =? 91 then
        match skip_ws r with
        | c1 :: r1 =>
          if c1 =? 93 then POk (JArr []) r1
          else array_items f [] (c1 :: r1)
        | [] => PFail
        end
      else scan_scalar s
    end
  end
with array_items (fuel : nat) (acc : list json) (s : pystr) : pres json :=
  match fuel with
  | O => PFuel
  | S f =>
    pbind (scan_once f s) (fun v r =>
      match skip_ws r with
      | c :: r1 =>
        if c =? 93 then POk (JArr (rev (v :: acc))) r1
        else if c =? 44 then array_items f (v :: acc) (skip_ws r1)
        else PFail
      | [] => PFail
      end)
  end
with object_items (fuel : nat) (acc : list (pystr * json)) (s : pystr)
  : pres json :=
  match fuel with
  | O => PFuel
  | S f =>
    match s with
    | [] => PFail
    | q :: r =>
      if q =? 34 then
        pbind (scan_string 0 r []) (fun k r1 =>
          match skip_ws r1 with
          | c1 :: r2 =>
            if c1 =? 58 then
              pbind (scan_once f (skip_ws r2)) (fun v r3 =>
                match skip_ws r3 with
                | c2 :: r4 =>
                  if c2 =? 125 then POk (JObj (dict_of (rev ((k, v) :: acc)))) r4
                  else if c2 =? 44
                  then object_items f ((k, v) :: acc) (skip_ws r4)
                  else PFail
                | [] => PFail
                end)
            else PFail
          | [] => PFail
          end)
      else PFail
    end
  end.

(** Fuel that no text exhausts (see [scan_once_fuel_loads]). *)
Definition loads_fuel (s : pystr) : nat := 2 * length s + 2.

(** [json.loads(s)]: leading whitespace, one value, trailing whitespace,
    end of text.  [None] stands for [JSONDecodeError].  CPython's
    recursion limit and its cap on the digits of an [int] are not
    modelled. *)
Definition json_loads (s : pystr) : option json :=
  match scan_once (loads_fuel s) (skip_ws s) with
  | POk v r => match skip_ws r with [] => Some v | _ => None end
  | _ => None
  end.

(** ** The outside world *)

(** A file held by the generative service.  The code compares the name
    of its state with [PROCESSING] and with [FAILED] only; [READY] is the
    state of a file that can be used. *)
Inductive file_state := PROCESSING | READY | FAILED.

Record File := mkFile { file_name : pystr; file_state_of : file_state }.

Definition is_processing (f : File) : bool :=
  match file_state_of f with PROCESSING => true | _ => false end.

Definition is_failed (f : File) : bool :=
  match file_state_of f with FAILED => true | _ => false end.

(** The exceptions the pipeline meets; all of them derive from
    [Exception]. *)
Inductive exn :=
| ExtractorError
| OSError
| DownloadError
| UploadError
| GetFileError
| GenerateError
| DeleteError
| FileNotFoundError
| JSONDecodeError
| AttributeError
| TypeError
| ValueError (msg : string).

(** The provider's info dict.  Its values have the types the
    [VideoAnalysis] dataclass declares for them, so the dict is kept as
    one finite map per value type. *)
Record InfoDict := mkInfo {
  info_str : gmap string pystr;
  info_int : gmap string Z;
  info_list : gmap string (list pystr)
}.

(** The answers of the collaborators.  [None] and [false] stand for a
    call that raises.  [env_get_file n] answers the status fetch that
    comes after [n] earlier ones.  [env_unlink p] tells whether
    [os.unlink] removes the existing path [p]; it raises on a directory
    and on a file the process may not remove. *)
Record Env := mkEnv {
  env_extract_info : pystr -> option InfoDict;
  env_tempfile : option pystr;
  env_download : pystr -> pystr -> bool;
  env_upload : pystr -> option File;
  env_get_file : nat -> pystr -> option File;
  env_generate : pystr -> option File -> option pystr;
  env_delete_file : pystr -> bool;
  env_unlink : pystr -> bool
}.

(** The calls made to the outside, with their outcome. *)
Inductive event :=
| EExtractInfo (url : pystr)
| ETempFile (path : pystr)
| EDownload (url path : pystr) (max_duration : Z)
| EUpload (path : pystr) (handle : option File)
| ESleep (seconds : Z)
| EGetFile (name : pystr) (handle : option File)
| EGenerate (prompt : pystr) (media : option File) (text : option pystr)
| EUnlink (path : pystr)
| EDeleteFile (name : pystr).

(** Local storage is the set of paths of existing files; [trace] lists
    the calls made so far, oldest first; [fetches] counts the status
    fetches. *)
Record World := mkWorld {
  fs : gset pystr;
  trace : list event;
  fetches : nat
}.

Definition log (e : event) (w : World) : World :=
  mkWorld (fs w) (trace w ++ [e]) (fetches w).

(** ** A state-and-exception monad *)

(** How a computation ends: with a value, with an exception, or not at
    all ([Diverge]: the fuel of a loop ran out). *)
Inductive res (A : Type) :=
| Ret (a : A)
| Raise (e : exn)
| Diverge.
Arguments Ret {A} a.
Arguments Raise {A} e.
Arguments Diverge {A}.

Definition M (S A : Type) : Type := S -> res A * S.

Definition ret {S A} (a : A) : M S A := fun s => (Ret a, s).
Definition raise {S A} (e : exn) : M S A := fun s => (Raise e, s).
Definition diverge {S A} : M S A := fun s => (Diverge, s).

Definition bind {S A B} (m : M S A) (k : A -> M S B) : M S B :=
  fun s =>
    match m s with
    | (Ret a, s') => k a s'
    | (Raise e, s') => (Raise e, s')
    | (Diverge, s') => (Diverge, s')
    end.

Notation "'let!' x ':=' m 'in' k" := (bind m (fun x => k))
  (at level 10, x name, m at level 100, k at level 200).
Notation "'do!' m 'in' k" := (bind m (fun _ => k))
  (at level 10, m at level 100, k at level 200).

(** [try: m  except Exception as e: h e]. *)
Definition try_except {S A} (m : M S A) (h : exn -> M S A) : M S A :=
  fun s =>
    match m s with
    | (Raise e, s') => h e s'
    | other => other
    end.

(** [try: m  finally: c].  The clean-up runs after a value and after an
    exception alike; an exception of the clean-up replaces the outcome. *)
Definition try_finally {S A} (m : M S A) (c : M S unit) : M S A :=
  fun s =>
    match m s with
    | (Diverge, s') => (Diverge, s')
    | (r, s') =>
      match c s' with
      | (Ret _, s'') => (r, s'')
      | (Raise e, s'') => (Raise e, s'')
      | (Diverge, s'') => (Diverge, s'')
      end
    end.

Definition when_ {S} (b : bool) (m : M S unit) : M S unit :=
  if b then m else ret tt.

(** A frame of local variables [L] on top of the world. *)
Definition in_world {L A} (m : M World A) : M (L * World) A :=
  fun s => let '(r, w) := m (snd s) in (r, (fst s, w)).

Definition get_local {L} : M (L * World) L := fun s => (Ret (fst s), s).
Definition set_local {L} (l : L) : M (L * World) unit :=
  fun s => (Ret tt, (l, snd s)).

(** Runs a body with its own frame, which is dropped on exit. *)
Definition with_frame {L A} (l : L) (m : M (L * World) A) : M World A :=
  fun w => let '(r, s) := m (l, w) in (r, snd s).

(** ** The collaborators' calls *)

Definition emit (e : event) : M World unit := fun w => (Ret tt, log e w).

Definition path_exists (p : pystr) : M World bool :=
  fun w => (Ret (bool_decide (p ∈ fs w)), w).

(** [os.unlink]: a missing path raises [FileNotFoundError]; an existing
    one is removed, unless the system refuses ([IsADirectoryError],
    [PermissionError], both of them an [OSError]) and the path stays. *)
Definition os_unlink (env : Env) (p : pystr) : M World unit :=
  fun w =>
    if bool_decide (p ∈ fs w)
    then
      if env_unlink env p
      then (Ret tt,
            log (EUnlink p) (mkWorld (fs w ∖ {[p]}) (trace w) (fetches w)))
      else (Raise OSError, log (EUnlink p) w)
    else (Raise FileNotFoundError, log (EUnlink p) w).

(** [tempfile.NamedTemporaryFile(suffix='.mp4', delete=False)], closed at
    once: the file stays. *)
Definition named_temporary_file (env : Env) : M World pystr :=
  fun w =>
    match env_tempfile env with
    | Some p =>
      (Ret p, log (ETempFile p) (mkWorld (fs w ∪ {[p]}) (trace w) (fetches w)))
    | None => (Raise OSError, w)
    end.

Definition ydl_extract_info (env : Env) (url : pystr) : M World InfoDict :=
  do! emit (EExtractInfo url) in
  match env_extract_info env url with
  | Some info => ret info
  | None => raise ExtractorError
  end.

Definition ydl_download (env : Env) (url path : pystr) (max_duration : Z)
  : M World unit :=
  do! emit (EDownload url path max_duration) in
  if env_download env url path then ret tt else raise DownloadError.

Definition genai_upload_file (env : Env) (path : pystr) : M World File :=
  do! emit (EUpload path (env_upload env path)) in
  match env_upload env path with
  | Some f => ret f
  | None => raise UploadError
  end.

Definition genai_get_file (env : Env) (name : pystr) : M World File :=
  fun w =>
    let r := env_get_file env (fetches w) name in
    let w' := mkWorld (fs w) (trace w ++ [EGetFile name r]) (S (fetches w)) in
    match r with
    | Some f => (Ret f, w')
    | None => (Raise GetFileError, w')
    end.

Definition asyncio_sleep (seconds : Z) : M World unit := emit (ESleep seconds).

Definition generate_content (env : Env) (prompt : pystr) (media : option File)
  : M World pystr :=
  do! emit (EGenerate prompt media (env_generate env prompt media)) in
  match env_generate env prompt media with
  | Some text => ret text
  | None => raise GenerateError
  end.

Definition genai_delete_file (env : Env) (name : pystr) : M World unit :=
  do! emit (EDeleteFile name) in
  if env_delete_file env name then ret tt else raise DeleteError.

(** ** The prompt of [analyze_with_gemini] *)

(** The literal parts of the f-string, in order.  They are written here
    with an apostrophe wherever the source has a double quote (the source
    has no apostrophe in them); [dq] puts the double quotes back.  The
    doubled braces of the f-string stand for single ones. *)
Definition dq (s : pystr) : pystr :=
  List.map (fun c => if c =? 39 then 34 else c) s.

(** The text of the f-string up to the title. *)
Definition prompt_head : pystr := Eval vm_compute in dq (lit "
            Bạn là chuyên gia phân tích YouTube. Hãy phân tích video này và đưa ra điểm số chi tiết:

            THÔNG TIN VIDEO:
            - Tiêu đề: ").

(** Between the title and the description. *)
Definition prompt_description : pystr := Eval vm_compute in dq (lit "
            - Mô tả: ").

(** Between the description and the channel name; it starts with the three dots that follow the description. *)
Definition prompt_channel : pystr := Eval vm_compute in dq (lit "...
            - Kênh: ").

(** Between the channel name and the tags. *)
Definition prompt_tags : pystr := Eval vm_compute in dq (lit "
            - Tags: ").

(** Between the tags and the view count. *)
Definition prompt_views : pystr := Eval vm_compute in dq (lit "
            - Lượt xem: ").

(** Between the view count and the like count. *)
Definition prompt_likes : pystr := Eval vm_compute in dq (lit "
            - Lượt thích: ").

(** The task: score each factor (0-100) among Thumbnail, title, description, Tags, Engagement and overall SEO; suggest concrete improvements (high, medium or low priority); predict the viral potential (0-100); answer in strict JSON of the structure that follows. *)
Definition prompt_task : pystr := Eval vm_compute in dq (lit "

            PHÂN TÍCH YÊU CẦU:
            1. Đánh giá từng yếu tố (0-100 điểm): Thumbnail, Tiêu đề, Mô tả, Tags, Engagement, SEO tổng thể.
            2. Gợi ý cải thiện cụ thể (ưu tiên cao/trung/thấp).
            3. Dự đoán tiềm năng viral (0-100).

            Trả về định dạng JSON nghiêm ngặt theo cấu trúc sau:
            ").

(** The JSON structure the answer is to follow. *)
Definition prompt_schema : pystr := Eval vm_compute in dq (lit "{
                'overall_score': 0, 'scores': {'thumbnail': 0, 'title': 0, 'description': 0, 'tags': 0, 'engagement': 0, 'seo': 0},
                'improvements': [{'category': 'string', 'priority': 'high/medium/low', 'suggestion': 'string', 'impact': 'string'}],
                'viral_potential': 0, 'strengths': ['string'], 'weaknesses': ['string']
            }").

(** The end of the f-string. *)
Definition prompt_tail : pystr := Eval vm_compute in dq (lit "
            ").

(** ** The analyzer *)

(** The [VideoAnalysis] dataclass. *)
Record VideoAnalysis := mkVideoAnalysis {
  video_id : pystr;
  title : pystr;
  description : pystr;
  thumbnail_url : pystr;
  duration : Z;
  view_count : Z;
  like_count : Z;
  comment_count : Z;
  upload_date : pystr;
  channel_name : pystr;
  tags : list pystr
}.

(** [info.get(key, dflt)] at each of the three value types. *)
Definition get_str (info : InfoDict) (key : string) (dflt : pystr) : pystr :=
  default dflt (info_str info !! key).
Definition get_int (info : InfoDict) (key : string) (dflt : Z) : Z :=
  default dflt (info_int info !! key).
Definition get_list (info : InfoDict) (key : string) (dflt : list pystr)
  : list pystr :=
  default dflt (info_list info !! key).

Definition get_video_info (env : Env) (url : pystr)
  : M World (option VideoAnalysis) :=
  try_except
    (let! info := ydl_extract_info env url in
     ret (Some {|
       video_id := get_str info "id" [];
       title := get_str info "title" [];
       description := get_str info "description" [];
       thumbnail_url := get_str info "thumbnail" [];
       duration := get_int info "duration" 0;
       view_count := get_int info "view_count" 0;
       like_count := get_int info "like_count" 0;
       comment_count := get_int info "comment_count" 0;
       upload_date := get_str info "upload_date" [];
       channel_name := get_str info "uploader" [];
       tags := get_list info "tags" []
     |}))
    (fun _ => ret None).

Definition download_video_segment (env : Env) (url : pystr) (max_duration : Z)
  : M World (option pystr) :=
  try_except
    (let! temp_path := named_temporary_file env in
     do! ydl_download env url temp_path max_duration in
     ret (Some temp_path))
    (fun _ => ret None).

(** The decimal digits of [n], most significant first. *)
Fixpoint dec_digits_from (fuel : nat) (n : N) (acc : pystr) : pystr :=
  match fuel with
  | O => acc
  | S f =>
    let acc' := (48 + n mod 10) :: acc in
    if n <? 10 then acc' else dec_digits_from f (n / 10) acc'
  end.

Definition dec_digits (n : N) : pystr :=
  dec_digits_from (S (N.to_nat (N.size n))) n [].

(** A comma after every third digit, on digits given least significant
    first. *)
Fixpoint group_thousands (ds : pystr) : pystr :=
  match ds with
  | a :: b :: c :: r =>
    match r with
    | [] => ds
    | _ :: _ => a :: b :: c :: 44 :: group_thousands r
    end
  | _ => ds
  end.

(** [format(z, ',')] for an [int]. *)
Definition format_commas (z : Z) : pystr :=
  (if (z <? 0)%Z then [45] else [])
    ++ rev (group_thousands (rev (dec_digits (Z.abs_N z)))).

(** [sep.join(l)]. *)
Fixpoint join (sep : pystr) (l : list pystr) : pystr :=
  match l with
  | [] => []
  | x :: r => match r with [] => x | _ :: _ => x ++ sep ++ join sep r end
  end.

Definition comma_space : pystr := Eval vm_compute in lit ", ".

(** The f-string assigned to [prompt]. *)
Definition build_prompt (video_info : VideoAnalysis) : pystr :=
  prompt_head ++ title video_info
  ++ prompt_description ++ take 500 (description video_info)
  ++ prompt_channel ++ channel_name video_info
  ++ prompt_tags ++ join comma_space (take 10 (tags video_info))
  ++ prompt_views ++ format_commas (view_count video_info)
  ++ prompt_likes ++ format_commas (like_count video_info)
  ++ prompt_task ++ prompt_schema ++ prompt_tail.

Definition fence_json : pystr := Eval vm_compute in lit "```json".
Definition fence : pystr := Eval vm_compute in lit "```".

(** [response.text.strip().replace('```json', '').replace('```', '')]. *)
Definition clean_response (text : pystr) : pystr :=
  remove_all fence (remove_all fence_json (py_strip text)).

Definition key (s : string) : pystr := lit s.

Definition get_fallback_analysis : json :=
  JObj [ (key "error",
          JStr (lit "Failed to analyze with Gemini, providing fallback data."));
         (key "overall_score", JInt 0);
         (key "scores", JObj []);
         (key "improvements", JArr []);
         (key "viral_potential", JInt 0);
         (key "strengths", JArr []);
         (key "weaknesses", JArr []) ].

(** [video_path and os.path.exists(video_path)]: the path when the test
    passes. *)
Definition sample_present (video_path : option pystr)
  : M World (option pystr) :=
  match video_path with
  | Some (c :: r) =>
    let! b := path_exists (c :: r) in
    ret (if b then Some (c :: r) else None)
  | _ => ret None
  end.

(** The loop [while video_file_uploaded.state.name == "PROCESSING"].
    The local variable [video_file_uploaded] is the frame; [f] is its
    current value. *)
Fixpoint poll (fuel : nat) (env : Env) (f : File)
  : M (option File * World) File :=
  if is_processing f then
    match fuel with
    | O => diverge
    | S k =>
      do! in_world (asyncio_sleep 2) in
      let! f' := in_world (genai_get_file env (file_name f)) in
      do! set_local (Some f') in
      poll k env f'
    end
  else ret f.

(** The [try] block of [analyze_with_gemini]. *)
Definition analyze_body (fuel : nat) (env : Env) (video_info : VideoAnalysis)
    (video_path : option pystr) : M (option File * World) json :=
  let! sample := in_world (sample_present video_path) in
  do! match sample with
      | Some p =>
        let! f := in_world (genai_upload_file env p) in
        do! set_local (Some f) in
        let! f' := poll fuel env f in
        if is_failed f'
        then raise (ValueError "Video file processing failed.")
        else ret tt
      | None => ret tt
      end in
  let prompt := build_prompt video_info in
  let! video_file_uploaded := get_local in
  let! text := in_world (generate_content env prompt video_file_uploaded) in
  match json_loads (clean_response text) with
  | Some analysis_result => ret analysis_result
  | None => raise JSONDecodeError
  end.

(** The [finally] block. *)
Definition analyze_cleanup (env : Env) (video_path : option pystr)
  : M (option File * World) unit :=
  let! sample := in_world (sample_present video_path) in
  do! match sample with
      | Some p => in_world (os_unlink env p)
      | None => ret tt
      end in
  let! video_file_uploaded := get_local in
  match video_file_uploaded with
  | Some f => in_world (genai_delete_file env (file_name f))
  | None => ret tt
  end.

Definition analyze_with_gemini (fuel : nat) (env : Env)
    (video_info : VideoAnalysis) (video_path : option pystr) : M World json :=
  with_frame None
    (try_finally
       (try_except (analyze_body fuel env video_info video_path)
                   (fun _ => ret get_fallback_analysis))
       (analyze_cleanup env video_path)).

(** ** The route [/api/analyze] *)

(** A value of the request's body, as far as the route looks at it: a
    string, or any other JSON value, of which only the truth value
    matters ([None], [False], a zero, an empty list or dict are false). *)
Inductive pyvalue :=
| VStr (s : pystr)
| VOther (truth : bool).

(** [bool(d.get(k))]: a missing key gives [None], an empty string is
    false. *)
Definition truthy (v : option pyvalue) : bool :=
  match v with
  | Some (VStr []) => false
  | Some (VStr (_ :: _)) => true
  | Some (VOther b) => b
  | None => false
  end.

(** What [request.get_json()] gives the route: a dict, or anything
    else (the call raises, or the body is [null], a list, a string or a
    number), on which [data.get] raises. *)
Inductive Request :=
| BodyDict (fields : gmap string pyvalue)
| BodyOther.

(** The body [{'url': url, 'analyze_video_content': flag}], without the
    key [url] when there is none. *)
Definition mkRequest (url : option pystr) (analyze_video_content : bool)
  : Request :=
  BodyDict (<["analyze_video_content" := VOther analyze_video_content]>
              match url with
              | Some u => {["url" := VStr u]}
              | None => ∅
              end).

(** The URL of a request, when it has one that is a string, and its
    flag. *)
Definition req_url (data : Request) : option pystr :=
  match data with
  | BodyDict d => match d !! "url" with Some (VStr u) => Some u | _ => None end
  | BodyOther => None
  end.

Definition req_analyze_video_content (data : Request) : bool :=
  match data with
  | BodyDict d => truthy (d !! "analyze_video_content")
  | BodyOther => false
  end.

Inductive Response :=
| RespOk (video_info : VideoAnalysis) (analysis : json)
| RespError (message : string) (status : Z).

Definition analyze_video (fuel : nat) (env : Env) (data : Request)
  : M World Response :=
  try_except
    (match data with
     | BodyOther => raise AttributeError
     | BodyDict d =>
       let video_url := d !! "url" in
       if negb (truthy video_url)
       then ret (RespError "URL is required" 400)
       else
         match video_url with
         | Some (VStr video_url) =>
           match extract_video_id video_url with
           | Some (_ :: _) =>
             let! info := get_video_info env video_url in
             match info with
             | Some video_info =>
               let! video_path :=
                 (if truthy (d !! "analyze_video_content")
                  then download_video_segment env video_url 60
                  else ret None) in
               let! analysis_result :=
                 analyze_with_gemini fuel env video_info video_path in
               ret (RespOk video_info analysis_result)
             | None =>
               ret (RespError "Failed to extract video information" 400)
             end
           | _ => ret (RespError "Invalid YouTube URL" 400)
           end
         | _ => raise TypeError
         end
     end)
    (fun _ => ret (RespError "Internal server error" 500)).

(** ** Reading a trace *)

Definition is_upload_ok (e : event) : bool :=
  match e with EUpload _ (Some _) => true | _ => false end.
Definition is_upload (e : event) : bool :=
  match e with EUpload _ _ => true | _ => false end.
Definition is_delete (e : event) : bool :=
  match e with EDeleteFile _ => true | _ => false end.
Definition is_unlink (e : event) : bool :=
  match e with EUnlink _ => true | _ => false end.
Definition is_generate (e : event) : bool :=
  match e with EGenerate _ _ _ => true | _ => false end.
Definition is_download (e : event) : bool :=
  match e with EDownload _ _ _ | ETempFile _ => true | _ => false end.
Definition is_poll (e : event) : bool :=
  match e with ESleep _ | EGetFile _ _ => true | _ => false end.

Definition count (f : event -> bool) (t : list event) : nat :=
  length (List.filter f t).

(** The sample is there when [video_path] is a non-empty path of an
    existing file. *)
Definition sample_exists (video_path : option pystr) (w : World) : bool :=
  match video_path with
  | Some (c :: r) => bool_decide (c :: r ∈ fs w)
  | _ => false
  end.

(** Whether polling from handle [f], with [start] fetches already made,
    leaves the loop within [n] more fetches (by a state other than
    [PROCESSING] or by a fetch that raises). *)
Fixpoint settles (env : Env) (n start : nat) (f : File) : bool :=
  if is_processing f then
    match n with
    | O => false
    | S k =>
      match env_get_file env start (file_name f) with
      | Some f' => settles env k (S start) f'
      | None => true
      end
    end
  else true.

(** The top-level keys of the report and the JSON type of a value. *)
Inductive jtype := TNull | TBool | TNumber | TString | TArray | TObject.

#[global] Instance jtype_eq_dec : EqDecision jtype.
Proof. solve_decision. Defined.

Definition jtype_of (v : json) : jtype :=
  match v with
  | JNull => TNull
  | JBool _ => TBool
  | JInt _ | JFloat _ _ _ | JConst _ => TNumber
  | JStr _ => TString
  | JArr _ => TArray
  | JObj _ => TObject
  end.

Definition report_keys : list pystr :=
  [ key "overall_score"; key "scores"; key "improvements";
    key "viral_potential"; key "strengths"; key "weaknesses" ].

(** The shape of a report: its keys with the type of their values. *)
Definition shape (v : json) : option (list (pystr * jtype)) :=
  match v with
  | JObj kvs => Some (List.map (fun kv => (fst kv, jtype_of (snd kv))) kvs)
  | _ => None
  end.

(** The handle held in [video_file_uploaded] after the calls of [t],
    when it held [init] before them: the one most recently obtained. *)
Definition handle_after (init : option File) (t : list event) : option File :=
  fold_left (fun acc e =>
               match e with
               | EUpload _ (Some f) | EGetFile _ (Some f) => Some f
               | _ => acc
               end) t init.

(** The remote deletions of a trace, in order. *)
Definition deleted_names (t : list event) : list pystr :=
  omap (fun e => match e with EDeleteFile n => Some n | _ => None end) t.

(** What the [try] block leaves behind: local storage untouched, no
    clean-up call, one successful upload exactly when a handle is held,
    and that handle is the latest one obtained. *)
Definition body_ok (w : World) (l' : option File) (w1 : World)
    (evs : list event) : Prop :=
  fs w1 = fs w /\ trace w1 = trace w ++ evs /\
  count is_unlink evs = 0%nat /\ count is_delete evs = 0%nat /\
  count is_upload_ok evs = match l' with Some _ => 1%nat | None => 0%nat end /\
  l' = handle_after None evs.


(** What a capture is: the text has one of the pattern's literals at
    some position, and the capture is the longest non-empty run of
    admissible characters after it. *)
Definition captures (p : pattern) (s g : pystr) : Prop :=
  exists pre l rest,
    s = pre ++ l ++ g ++ rest /\ l ∈ alts p /\ g <> [] /\
    forallb (fun c => negb (memb c (excluded p))) g = true /\
    match rest with [] => True | c :: _ => memb c (excluded p) = true end.


(** The value a field takes from the provider's dict: the entry when
    the key is there, the zero value of its type when it is omitted. *)
Definition field_from {A} (entry : option A) (zero x : A) : Prop :=
  match entry with Some v => x = v | None => x = zero end.


(** Whether the [os.unlink] of the [finally] block goes through:
    always when there is no sample to unlink. *)
Definition unlink_ok (env : Env) (vp : option pystr) (w : World) : bool :=
  match vp with
  | Some p => if sample_exists vp w then env_unlink env p else true
  | None => true
  end.

(** The calls of the [finally] block, given the sample path, the world
    it starts in and the handle held: the unlink of the sample when it
    exists, then, unless that unlink raised, the remote deletion when a
    handle is held. *)
Definition cleanup_events (env : Env) (vp : option pystr) (w : World)
    (l : option File) : list event :=
  match vp with
  | Some p => if sample_exists vp w then [EUnlink p] else []
  | None => []
  end ++
  if unlink_ok env vp w
  then match l with
       | Some f => [EDeleteFile (file_name f)]
       | None => []
       end
  else [].

(** Local storage after the [finally] block. *)
Definition cleanup_fs (env : Env) (vp : option pystr) (w : World)
  : gset pystr :=
  match vp with
  | Some p =>
    if sample_exists vp w && env_unlink env p then fs w ∖ {[p]} else fs w
  | None => fs w
  end.

(** The effect of [except Exception]: an exception of the [try] block
    becomes the fallback report. *)
Definition caught (rb : res json) : res json :=
  match rb with
  | Ret v => Ret v
  | Raise _ => Ret get_fallback_analysis
  | Diverge => Diverge
  end.

(** Whether the service settles within [fuel] status fetches on the call
    at hand: always when nothing is uploaded or the upload raises. *)
Definition will_settle (env : Env) (fuel : nat) (vp : option pystr)
    (w : World) : bool :=
  match (if sample_exists vp w then vp else None) with
  | Some p =>
    match env_upload env p with
    | Some f0 => settles env fuel (fetches w) f0
    | None => true
    end
  | None => true
  end.

(** What a metadata-only call returns: the parsed answer, or the
    fallback when the generation or the parse fails. *)
Definition answer_or_fallback (answer : option pystr) : json :=
  match answer with
  | Some text =>
    match json_loads (clean_response text) with
    | Some v => v
    | None => get_fallback_analysis
    end
  | None => get_fallback_analysis
  end.

(** The record [get_video_info] builds from an answer of the provider. *)
Definition video_of_info (info : InfoDict) : VideoAnalysis :=
  {| video_id := get_str info "id" [];
     title := get_str info "title" [];
     description := get_str info "description" [];
     thumbnail_url := get_str info "thumbnail" [];
     duration := get_int info "duration" 0;
     view_count := get_int info "view_count" 0;
     like_count := get_int info "like_count" 0;
     comment_count := get_int info "comment_count" 0;
     upload_date := get_str info "upload_date" [];
     channel_name := get_str info "uploader" [];
     tags := get_list info "tags" [] |}.

(** How the [try] block ends.  A value is the parse of the text the
    generation answered, and the handle then held is not [FAILED]; when
    the block raises while holding a [FAILED] handle, no generation was
    called. *)
Definition body_result (env : Env) (vi : VideoAnalysis) (rb : res json)
    (l : option File) (evs : list event) : Prop :=
  match rb with
  | Ret v =>
    (exists text,
       env_generate env (build_prompt vi) l = Some text /\
       json_loads (clean_response text) = Some v) /\
    (forall h, l = Some h -> is_failed h = false)
  | Raise _ =>
    forall h, l = Some h -> is_failed h = true -> count is_generate evs = 0%nat
  | Diverge => True
  end.

(** The data model of a report: an object with a number under
    [overall_score] and [viral_potential], an object under [scores] and
    a list under [improvements], [strengths] and [weaknesses]. *)
Definition has_type (v : json) (k : pystr) (t : jtype) : bool :=
  match v with
  | JObj kvs =>
    match dict_get k kvs with
    | Some x => bool_decide (jtype_of x = t)
    | None => false
    end
  | _ => false
  end.

Definition well_formed_report (v : json) : bool :=
  has_type v (key "overall_score") TNumber
  && has_type v (key "scores") TObject
  && has_type v (key "improvements") TArray
  && has_type v (key "viral_potential") TNumber
  && has_type v (key "strengths") TArray
  && has_type v (key "weaknesses") TArray.








(** [needle in hay]. *)
Fixpoint contains (needle hay : pystr) : bool :=
  starts_with needle hay
  || match hay with [] => false | _ :: r => contains needle r end.

(** The structure the prompt asks for, as the value its text denotes. *)
Definition schema_value : json :=
  JObj [ (key "overall_score", JInt 0);
         (key "scores",
          JObj [ (key "thumbnail", JInt 0); (key "title", JInt 0);
                 (key "description", JInt 0); (key "tags", JInt 0);
                 (key "engagement", JInt 0); (key "seo", JInt 0) ]);
         (key "improvements",
          JArr [ JObj [ (key "category", JStr (lit "string"));
                        (key "priority", JStr (lit "high/medium/low"));
                        (key "suggestion", JStr (lit "string"));
                        (key "impact", JStr (lit "string")) ] ]);
         (key "viral_potential", JInt 0);
         (key "strengths", JArr [JStr (lit "string")]);
         (key "weaknesses", JArr [JStr (lit "string")]) ].


(** ** Fenced answers *)

(** The content [c] wrapped in a Markdown code fence, with or without
    the language tag. *)
Definition fenced (tagged : bool) (c : pystr) : pystr :=
  (if tagged then fence_json else fence) ++ [10] ++ c ++ [10] ++ fence.

(** Steps 6 of the orchestrator: clean the answer, then parse it. *)
Definition parse_response (text : pystr) : option json :=
  json_loads (clean_response text).

(** What [strip()] removes at the left and at the right of a text. *)
Definition stripped_left (s : pystr) : pystr := fst (span is_py_space s).
Definition stripped_right (s : pystr) : pystr :=
  rev (fst (span is_py_space (rev (lstrip s)))).

(** The whitespace around the content is whitespace for JSON too. *)
Definition json_margins (c : pystr) : bool :=
  forallb is_json_ws (stripped_left c) && forallb is_json_ws (stripped_right c).

(** Content that starts with a form feed, which [strip()] removes and
    JSON does not accept. *)
Definition form_feed_content : pystr := Eval vm_compute in 12 :: lit "{}".

(** A scanner's outcome when the text is extended by [w] at its end. *)
Definition with_rest {A} (w : pystr) (x : pres A) : pres A :=
  match x with
  | POk a r => POk a (r ++ w)
  | PFail => PFail
  | PFuel => PFuel
  end.

(** ** Sample inputs *)

Definition demo_url : pystr := Eval vm_compute in lit "https://youtu.be/abc123".
Definition demo_path : pystr := Eval vm_compute in lit "/tmp/tmpk3v9.mp4".
Definition demo_name : pystr := Eval vm_compute in lit "files/x1".

Definition demo_info : InfoDict :=
  mkInfo {[ "id" := lit "abc123"; "title" := lit "Demo" ]}
         {[ "like_count" := 12%Z ]}
         ∅.

Definition demo_video : VideoAnalysis :=
  mkVideoAnalysis (lit "abc123") (lit "Demo") (lit "A demo video") []
                  60 1234567 89 0 (lit "20240101") (lit "Channel")
                  [lit "a"; lit "b"].

(** A fenced answer, written with an apostrophe for the double quote. *)
Definition demo_answer : pystr := Eval vm_compute in
  dq (lit "```json
{'overall_score': 70, 'scores': {'seo': 65}, 'improvements': [], 'viral_potential': 40, 'strengths': ['clear'], 'weaknesses': []}
```").

(** A service whose handle reports [first] at the upload, [PROCESSING]
    at the fetches before the [n]th and [final] from then on.  The
    metadata provider answers [demo_info] and the download works. *)
Definition demo_env (upload : bool) (first : file_state) (n : nat)
    (final : option file_state) (answer : option pystr) (delete_ok : bool)
  : Env :=
  mkEnv (fun _ => Some demo_info)
        (Some demo_path)
        (fun _ _ => true)
        (fun _ => if upload then Some (mkFile demo_name first) else None)
        (fun i name =>
           if (i <? n)%nat then Some (mkFile name PROCESSING)
           else option_map (mkFile name) final)
        (fun _ _ => answer)
        (fun _ => delete_ok)
        (fun _ => true).

(** Everything works; the handle reports [PROCESSING] twice, then
    [READY]. *)
Definition env_ok : Env :=
  demo_env true PROCESSING 1 (Some READY) (Some demo_answer) true.

Definition world_with_sample : World := mkWorld {[ demo_path ]} [] 0.
Definition world_empty : World := mkWorld ∅ [] 0.

(** The outcome of a call on the sample, summed up: the result, the
    numbers of successful uploads, remote deletions and unlinks, and the
    files left. *)
Definition summary (env : Env)
  : res json * (nat * nat * nat) * list pystr :=
  let '(r, w) :=
    analyze_with_gemini 5 env demo_video (Some demo_path) world_with_sample in
  (r, (count is_upload_ok (trace w), count is_delete (trace w),
       count is_unlink (trace w)), elements (fs w)).

(** The download fails after the temporary file was created. *)
Definition env_download_fails : Env :=
  mkEnv (fun _ => Some demo_info) (Some demo_path) (fun _ _ => false)
        (fun _ => None) (fun _ _ => None) (fun _ _ => Some demo_answer)
        (fun _ => true) (fun _ => true).

(** The provider answers with a dict that has no [id]. *)
Definition env_no_id : Env :=
  mkEnv (fun _ => Some (mkInfo {[ "title" := lit "Demo" ]} ∅ ∅))
        None (fun _ _ => false)
        (fun _ => None) (fun _ _ => None) (fun _ _ => Some demo_answer)
        (fun _ => true) (fun _ => true).

(** The remote deletion raises. *)
Definition env_delete_fails : Env :=
  demo_env true PROCESSING 1 (Some READY) (Some demo_answer) false.

(** The handle stays [PROCESSING] for ever. *)
Definition env_stalled : Env :=
  mkEnv (fun _ => Some demo_info) (Some demo_path) (fun _ _ => true)
        (fun _ => Some (mkFile demo_name PROCESSING))
        (fun _ name => Some (mkFile name PROCESSING))
        (fun _ _ => Some demo_answer) (fun _ => true) (fun _ => true).

(** The generation answers with JSON that is not a report. *)
Definition env_answers_list : Env :=
  demo_env true PROCESSING 1 (Some READY) (Some (lit "[]")) true.

(** Everything works, the handle is [READY] at once, but the sample
    cannot be unlinked (its path names a directory, say). *)
Definition env_unlink_fails : Env :=
  mkEnv (fun _ => Some demo_info) (Some demo_path) (fun _ _ => true)
        (fun _ => Some (mkFile demo_name READY))
        (fun _ name => Some (mkFile name READY))
        (fun _ _ => Some demo_answer) (fun _ => true) (fun _ => false).

(** The handle ends [FAILED] after one round of polling; the rest
    works. *)
Definition env_failed_state : Env :=
  demo_env true PROCESSING 1 (Some FAILED) (Some demo_answer) true.

(** ** Further observers *)

(** A character the capture group of both patterns admits. *)
Definition id_char (c : N) : bool := negb (memb c id_stop).

(** A well-formed id: not empty, made of admissible characters. *)
Definition is_id (g : pystr) : bool :=
  match g with [] => false | _ :: _ => forallb id_char g end.

(** The text after an id: nothing, or something that starts with a
    character the capture group stops at. *)
Definition ends_id (rest : pystr) : bool :=
  match rest with [] => true | c :: _ => memb c id_stop end.

(** No letter [y]: every literal of the patterns starts with one. *)
Definition no_y (s : pystr) : bool := forallb (fun c => negb (c =? 121)) s.

(** The first pattern of the list (watch, short and embed forms) and the
    second (the [/v/] form). *)
Definition first_pattern : pattern := Eval vm_compute in
  match patterns with p :: _ => p | [] => Pattern [] [] end.
Definition second_pattern : pattern := Eval vm_compute in
  match patterns with _ :: p :: _ => p | _ => Pattern [] [] end.

(** The literal of the second pattern. *)
Definition v_form : pystr := Eval vm_compute in lit "youtube.com/v/".

Definition is_fetch (e : event) : bool :=
  match e with EGetFile _ _ => true | _ => false end.
Definition is_sleep (e : event) : bool :=
  match e with ESleep _ => true | _ => false end.

(** A trace made of rounds of the polling loop only: a sleep of 2, then
    a status fetch. *)
Fixpoint sleep_then_fetch (t : list event) : bool :=
  match t with
  | [] => true
  | ESleep n :: r =>
    match r with
    | EGetFile _ _ :: r' => (n =? 2)%Z && sleep_then_fetch r'
    | _ => false
    end
  | _ => false
  end.

(** The service answers the status fetches numbered [start] to
    [start + n - 1] with [PROCESSING], whatever the name asked for. *)
Definition stays_processing (env : Env) (start n : nat) : Prop :=
  forall i name, (i < n)%nat ->
    exists f, env_get_file env (start + i) name = Some f /\
              is_processing f = true.

(** The service answers the status fetch numbered [k] with a state other
    than [PROCESSING], or that fetch raises. *)
Definition settled_at (env : Env) (k : nat) : Prop :=
  forall name,
    match env_get_file env k name with
    | Some f => is_processing f = false
    | None => True
    end.

(** The route's answer to what the orchestrator ended with. *)
Definition respond (video_info : VideoAnalysis) (ra : res json)
  : res Response :=
  match ra with
  | Ret a => Ret (RespOk video_info a)
  | Raise _ => Ret (RespError "Internal server error" 500)
  | Diverge => Diverge
  end.

Definition status_of (r : Response) : Z :=
  match r with RespOk _ _ => 200%Z | RespError _ s => s end.

(** What the orchestrator may hand to the generation: no file, or a file
    that is neither [PROCESSING] nor [FAILED]. *)
Definition usable_media (m : option File) : Prop :=
  forall f, m = Some f -> is_processing f = false /\ is_failed f = false.

(** The generation call the [try] block makes with media [m]. *)
Definition generate_event (env : Env) (vi : VideoAnalysis) (m : option File)
  : event :=
  EGenerate (build_prompt vi) m (env_generate env (build_prompt vi) m).

(** The sampling step of the route, with its effect on the world:
    nothing when sampling is not asked for or no temporary file can be
    allocated; otherwise the file is created and the download is called
    on it, and the path is kept when the download succeeds. *)
Definition sampling (env : Env) (url : pystr) (wanted : bool) (w : World)
  : option pystr * World :=
  if wanted then
    match env_tempfile env with
    | None => (None, w)
    | Some p =>
      (if env_download env url p then Some p else None,
       mkWorld (fs w ∪ {[p]})
               (trace w ++ [ETempFile p; EDownload url p 60])
               (fetches w))
    end
  else (None, w).

(** The events of the sampling step. *)
Definition sampling_events (env : Env) (url : pystr) (wanted : bool)
  : list event :=
  if wanted then
    match env_tempfile env with
    | None => []
    | Some p => [ETempFile p; EDownload url p 60]
    end
  else [].

(** A body the route cannot read a URL from: no dict, or a dict whose
    [url] is a true value that is no string (a number, [true], a
    non-empty list or dict). *)
Definition unusable_body (data : Request) : bool :=
  match data with
  | BodyOther => true
  | BodyDict d =>
    match d !! "url" with
    | Some (VOther true) => true
    | _ => false
    end
  end.

(** * Properties *)

(** ** Identifier extractor *)

Section FirstMatch.

Lemma strip_prefix_app (p s r : pystr) :
  strip_prefix p s = Some r -> s = p ++ r.
Proof.
  revert s; induction p as [|a p IH]; intros [|b s]; simpl; try congruence.
  destruct (N.eqb_spec a b); [subst|discriminate].
  intros H; f_equal; auto.
Qed.

Lemma span_app (f : N -> bool) (s : pystr) :
  s = fst (span f s) ++ snd (span f s).
Proof.
  induction s as [|c s IH]; simpl; [done|].
  destruct (f c); [|done].
  destruct (span f s); simpl in *; congruence.
Qed.

Lemma span_all (f : N -> bool) (s : pystr) :
  forallb f (fst (span f s)) = true.
Proof.
  induction s as [|c s IH]; simpl; [done|].
  destruct (f c) eqn:E; [|done].
  destruct (span f s); simpl in *; by rewrite E.
Qed.

Lemma span_stop (f : N -> bool) (s : pystr) :
  match snd (span f s) with [] => True | c :: _ => f c = false end.
Proof.
  induction s as [|c s IH]; simpl; [done|].
  destruct (f c) eqn:E; [|done].
  destruct (span f s); simpl in *; done.
Qed.

Lemma match_alts_sound (ls : list pystr) (cs : list N) (s g : pystr) :
  match_alts ls cs s = Some g ->
  exists l rest, s = l ++ g ++ rest /\ l ∈ ls /\ g <> [] /\
    forallb (fun c => negb (memb c cs)) g = true /\
    match rest with [] => True | c :: _ => memb c cs = true end.
Proof.
  induction ls as [|l0 ls IH]; simpl; [done|].
  destruct (strip_prefix l0 s) as [r|] eqn:E.
  - pose proof (span_app (fun c => negb (memb c cs)) r) as Happ.
    pose proof (span_all (fun c => negb (memb c cs)) r) as Hall.
    pose proof (span_stop (fun c => negb (memb c cs)) r) as Hstop.
    destruct (span (fun c => negb (memb c cs)) r) as [run rest]; simpl in *.
    destruct run as [|c run].
    + intros H; destruct (IH H) as (l' & rest' & ? & ? & ?).
      exists l', rest'; split; [done|]; split; [by right|done].
    + intros [= <-]. exists l0, rest.
      split; [by rewrite <- Happ; apply strip_prefix_app|].
      split; [by left|]. split; [done|]. split; [done|].
      destruct rest; [done|]. by apply negb_false_iff.
  - intros H; destruct (IH H) as (l' & rest' & ? & ? & ?).
    exists l', rest'; split; [done|]; split; [by right|done].
Qed.

Lemma re_search_sound (p : pattern) (s g : pystr) :
  re_search p s = Some g -> captures p s g.
Proof.
  induction s as [|c s IH]; simpl.
  - destruct (match_at p []) as [g0|] eqn:E; [|done]. intros [= <-].
    destruct (match_alts_sound _ _ _ _ E) as (l & rest & ? & ?).
    by exists [], l, rest.
  - destruct (match_at p (c :: s)) as [g0|] eqn:E.
    + intros [= <-].
      destruct (match_alts_sound _ _ _ _ E) as (l & rest & ? & ?).
      by exists [], l, rest.
    + intros H. destruct (IH H) as (pre & l & rest & -> & ?).
      by exists (c :: pre), l, rest.
Qed.

Lemma strip_prefix_self (l r : pystr) : strip_prefix l (l ++ r) = Some r.
Proof.
  induction l as [|a l IH]; simpl; [done|]. by rewrite N.eqb_refl.
Qed.

Lemma span_takes (f : N -> bool) (g rest : pystr) :
  g <> [] -> forallb f g = true -> fst (span f (g ++ rest)) <> [].
Proof.
  destruct g as [|c g]; [done|]. intros _ [Hc _]%andb_true_iff. simpl.
  rewrite Hc. by destruct (span f (g ++ rest)).
Qed.

Lemma match_alts_complete (ls : list pystr) (cs : list N) (l g rest : pystr) :
  l ∈ ls -> g <> [] -> forallb (fun c => negb (memb c cs)) g = true ->
  match_alts ls cs (l ++ g ++ rest) <> None.
Proof.
  intros Hl Hg Hall. induction ls as [|l0 ls IH]; [by apply elem_of_nil in Hl|].
  simpl. apply elem_of_cons in Hl as [<-|Hl].
  - rewrite strip_prefix_self.
    pose proof (span_takes _ g rest Hg Hall) as Hrun.
    by destruct (fst (span (fun c => negb (memb c cs)) (g ++ rest))).
  - destruct (strip_prefix l0 (l ++ g ++ rest)) as [r|]; [|by apply IH].
    destruct (fst (span (fun c => negb (memb c cs)) r)); [by apply IH|done].
Qed.

(** The search finds a capture whenever there is one. *)
Lemma re_search_complete (p : pattern) (s g : pystr) :
  captures p s g -> re_search p s <> None.
Proof.
  intros (pre & l & rest & -> & Hl & Hg & Hall & _).
  induction pre as [|c pre IH].
  - pose proof (match_alts_complete (alts p) (excluded p) l g rest Hl Hg Hall)
      as Hm.
    change ([] ++ l ++ g ++ rest) with (l ++ g ++ rest).
    destruct (l ++ g ++ rest) as [|x s]; simpl; unfold match_at;
      by destruct (match_alts (alts p) (excluded p) _).
  - simpl. by destruct (match_at p (c :: pre ++ l ++ g ++ rest)).
Qed.

Lemma first_match_spec (ps : list pattern) (url : pystr) :
  match first_match ps url with
  | Some g =>
    exists i p, ps !! i = Some p /\ re_search p url = Some g /\
      forall j q, (j < i)%nat -> ps !! j = Some q -> re_search q url = None
  | None => forall p, p ∈ ps -> re_search p url = None
  end.
Proof.
  induction ps as [|p ps IH]; simpl.
  - intros p Hp. by apply elem_of_nil in Hp.
  - destruct (re_search p url) as [g|] eqn:E.
    + exists 0%nat, p. repeat split; [done|]. intros j q Hj. lia.
    + destruct (first_match ps url) as [g|].
      * destruct IH as (i & q & Hi & Hq & Hlt).
        exists (S i), q. repeat split; [done..|].
        intros [|j] q' Hj; simpl; [by intros [= <-]|].
        apply Hlt. lia.
      * intros q [->|Hq]%elem_of_cons; [done|by apply IH].
Qed.

End FirstMatch.

(** C3. [extract_video_id] tries its patterns in the order of the list:
    when it returns a capture, that capture is the group of a pattern
    that matches the URL while no pattern listed before it does (whether
    or not a later one matches too), and the capture is the non-empty run
    found by the search; it returns [None] exactly when no pattern of the
    list matches anywhere in the URL.  The function is a pure function of
    the URL. *)
Theorem extract_video_id_first_pattern_wins (url : pystr) :
  match extract_video_id url with
  | Some g =>
    exists i p, patterns !! i = Some p /\ re_search p url = Some g /\
      captures p url g /\
      forall j q, (j < i)%nat -> patterns !! j = Some q -> re_search q url = None
  | None =>
    forall p, p ∈ patterns ->
      re_search p url = None /\ forall g, ~ captures p url g
  end.
Proof.
  unfold extract_video_id.
  pose proof (first_match_spec patterns url) as H.
  destruct (first_match patterns url) as [g|].
  2: { intros p Hp. split; [by apply H|].
       intros g Hc%re_search_complete. by apply Hc, H. }
  destruct H as (i & p & Hi & Hp & Hlt).
  exists i, p. repeat split; try done. by apply re_search_sound.
Qed.

(** A URL on which both patterns match: the capture of the first one is
    returned, although the second pattern matches earlier in the text. *)
Example extract_video_id_overlap :
  let url := lit "https://youtube.com/v/abc?x=youtu.be/zzz" in
  extract_video_id url = Some (lit "zzz") /\
  (exists p1 p2, patterns = [p1; p2] /\
     re_search p1 url = Some (lit "zzz") /\ re_search p2 url = Some (lit "abc")).
Proof. split; [reflexivity|]. eexists _, _. repeat split; reflexivity. Qed.

Example extract_video_id_short : 
  extract_video_id (lit "https://youtu.be/abc123") = Some (lit "abc123").
Proof. reflexivity. Qed.

Example extract_video_id_none :
  extract_video_id (lit "https://example.com/watch?v=abc") = None.
Proof. reflexivity. Qed.

(** ** Metadata fetcher *)

Lemma field_from_default {A} (entry : option A) (zero : A) :
  field_from entry zero (default zero entry).
Proof. by destruct entry. Qed.

(** C4. [get_video_info] never raises.  When the provider fails it
    returns [None].  When the provider answers it returns a record in
    which every field the answer omits has the zero value of its type
    (0 for the counts and the duration, the empty string for the texts,
    the empty list for the tags), and every other field has the
    provider's value; in particular an answer without [view_count]
    gives [view_count = 0]. *)
Theorem get_video_info_defaults (env : Env) (url : pystr) (w : World) :
  match env_extract_info env url with
  | None => fst (get_video_info env url w) = Ret None
  | Some info =>
    exists vi, fst (get_video_info env url w) = Ret (Some vi) /\
      field_from (info_str info !! "id") [] (video_id vi) /\
      field_from (info_str info !! "title") [] (title vi) /\
      field_from (info_str info !! "description") [] (description vi) /\
      field_from (info_str info !! "thumbnail") [] (thumbnail_url vi) /\
      field_from (info_int info !! "duration") 0%Z (duration vi) /\
      field_from (info_int info !! "view_count") 0%Z (view_count vi) /\
      field_from (info_int info !! "like_count") 0%Z (like_count vi) /\
      field_from (info_int info !! "comment_count") 0%Z (comment_count vi) /\
      field_from (info_str info !! "upload_date") [] (upload_date vi) /\
      field_from (info_str info !! "uploader") [] (channel_name vi) /\
      field_from (info_list info !! "tags") [] (tags vi) /\
      (info_int info !! "view_count" = None -> view_count vi = 0%Z)
  end.
Proof.
  unfold get_video_info, try_except, ydl_extract_info, bind, emit, ret, raise.
  simpl. destruct (env_extract_info env url) as [info|]; simpl; [|done].
  eexists; split; [reflexivity|]. simpl.
  repeat split; try apply field_from_default.
  unfold get_int. by intros ->.
Qed.

(** An answer from which [view_count] was removed, and the empty
    answer. *)
Example get_video_info_without_view_count (ints : gmap string Z) (url : pystr) :
  let info := mkInfo ∅ (delete "view_count" ints) ∅ in
  let env := mkEnv (fun _ => Some info) None (fun _ _ => false)
                   (fun _ => None) (fun _ _ => None) (fun _ _ => None)
                   (fun _ => false) (fun _ => false) in
  exists vi, fst (get_video_info env url (mkWorld ∅ [] 0)) = Ret (Some vi) /\
             view_count vi = 0%Z.
Proof.
  simpl. eexists; split; [reflexivity|]. simpl.
  unfold get_int; simpl. by rewrite lookup_delete_eq.
Qed.

(** ** Remote analysis orchestrator *)

Section Counting.

Lemma count_app (f : event -> bool) (a b : list event) :
  count f (a ++ b) = (count f a + count f b)%nat.
Proof. unfold count. by rewrite List.filter_app, length_app. Qed.

Lemma count_none (f g : event -> bool) (t : list event) :
  (forall e, g e = true -> f e = false) ->
  forallb g t = true -> count f t = 0%nat.
Proof.
  intros Hfg. unfold count. induction t as [|e t IH]; simpl; [done|].
  intros [He Ht]%andb_true_iff. rewrite (Hfg e He). auto.
Qed.

Lemma poll_not_upload t : forallb is_poll t = true -> count is_upload_ok t = 0%nat.
Proof. apply count_none. by intros []. Qed.
Lemma poll_not_delete t : forallb is_poll t = true -> count is_delete t = 0%nat.
Proof. apply count_none. by intros []. Qed.
Lemma poll_not_unlink t : forallb is_poll t = true -> count is_unlink t = 0%nat.
Proof. apply count_none. by intros []. Qed.
Lemma poll_not_generate t : forallb is_poll t = true -> count is_generate t = 0%nat.
Proof. apply count_none. by intros []. Qed.

End Counting.

(** The polling loop only sleeps and fetches; it leaves local storage
    alone, keeps a handle in [video_file_uploaded], and when it ends
    normally the handle it ends with is not [PROCESSING]. *)
Lemma poll_inv (fuel : nat) (env : Env) :
  forall (f : File) (l : option File) (w : World),
  exists r l' w' evs,
    poll fuel env f (l, w) = (r, (l', w')) /\
    fs w' = fs w /\ trace w' = trace w ++ evs /\
    forallb is_poll evs = true /\
    l' = handle_after l evs /\
    (l = Some f -> exists f', l' = Some f') /\
    (forall x, r = Ret x -> is_processing x = false /\ (l = Some f -> l' = Some x)).
Proof.
  induction fuel as [|k IH]; intros f l w; simpl.
  - destruct (is_processing f) eqn:E.
    + exists Diverge, l, w, []. rewrite app_nil_r.
      do 5 (split; [done|]). split; [by eauto|]. intros; discriminate.
    + exists (Ret f), l, w, []. rewrite app_nil_r.
      do 5 (split; [done|]). split; [by eauto|]. by intros x [= <-].
  - destruct (is_processing f) eqn:E.
    + unfold bind, in_world, asyncio_sleep, emit, genai_get_file, set_local.
      simpl.
      destruct (env_get_file env (fetches w) (file_name f)) as [f1|] eqn:G;
        simpl.
      * destruct (IH f1 (Some f1)
                    (mkWorld (fs w)
                       ((trace w ++ [ESleep 2]) ++ [EGetFile (file_name f) (Some f1)])
                       (S (fetches w))))
          as (r & l' & w' & evs & Hrun & Hfs & Htr & Hev & Hh & Hl & Hr).
        rewrite Hrun. exists r, l', w', ([ESleep 2; EGetFile (file_name f) (Some f1)] ++ evs).
        simpl in *. split; [done|]. split; [done|].
        split; [by rewrite Htr, <- !app_assoc|]. split; [done|].
        split; [done|].
        split; [intros _; by apply Hl|].
        intros x Hx. destruct (Hr x Hx) as [? Hx']. split; [done|].
        intros _. by apply Hx'.
      * eexists _, _, _, [ESleep 2; EGetFile (file_name f) None].
        split; [reflexivity|]. simpl. split; [done|].
        split; [by rewrite <- app_assoc|]. split; [done|].
        split; [done|].
        split; [by eauto|]. intros; discriminate.
    + exists (Ret f), l, w, []. rewrite app_nil_r.
      do 5 (split; [done|]). split; [by eauto|]. by intros x [= <-].
Qed.

(** With enough fuel for the service to settle, the loop ends. *)
Lemma poll_settles (fuel : nat) (env : Env) :
  forall (f : File) (l : option File) (w : World),
    settles env fuel (fetches w) f = true ->
    fst (poll fuel env f (l, w)) <> Diverge.
Proof.
  induction fuel as [|k IH]; intros f l w; simpl.
  - destruct (is_processing f); [done|]. by intros _.
  - destruct (is_processing f); [|by intros _].
    unfold bind, in_world, asyncio_sleep, emit, genai_get_file, set_local.
    simpl.
    destruct (env_get_file env (fetches w) (file_name f)) as [f1|]; simpl.
    + intros H.
      apply (IH f1 (Some f1)
                (mkWorld (fs w)
                   ((trace w ++ [ESleep 2]) ++ [EGetFile (file_name f) (Some f1)])
                   (S (fetches w)))).
      done.
    + by intros _.
Qed.

Lemma settles_mono (env : Env) (n : nat) :
  forall (start : nat) (f : File),
    settles env n start f = true -> settles env (S n) start f = true.
Proof.
  induction n as [|k IH]; intros start f.
  - simpl. destruct (is_processing f); [done|by intros].
  - change (settles env (S k) start f) with
      (if is_processing f then
         match env_get_file env start (file_name f) with
         | Some f' => settles env k (S start) f'
         | None => true
         end
       else true).
    change (settles env (S (S k)) start f) with
      (if is_processing f then
         match env_get_file env start (file_name f) with
         | Some f' => settles env (S k) (S start) f'
         | None => true
         end
       else true).
    destruct (is_processing f); [|done].
    destruct (env_get_file env start (file_name f)); [|done].
    apply IH.
Qed.

Lemma handle_after_app (init : option File) (a b : list event) :
  handle_after init (a ++ b) = handle_after (handle_after init a) b.
Proof. unfold handle_after. by rewrite fold_left_app. Qed.

Lemma sample_present_run {L} (video_path : option pystr) (l : L) (w : World) :
  in_world (sample_present video_path) (l, w)
  = (Ret (if sample_exists video_path w then video_path else None), (l, w)).
Proof.
  destruct video_path as [[|c r]|]; try done.
Qed.

Lemma body_ok_generate w l' w1 evs prompt media text :
  body_ok w l' w1 evs ->
  body_ok w l' (log (EGenerate prompt media text) w1)
          (evs ++ [EGenerate prompt media text]).
Proof.
  intros (Hfs & Htr & Hc1 & Hc2 & Hc3 & Hh). unfold body_ok. simpl.
  rewrite Htr, <- app_assoc, !count_app, handle_after_app, Hc1, Hc2, Hc3, <- Hh.
  by repeat split.
Qed.

Lemma body_ok_upload w p f0 l' w1 evs :
  fs w1 = fs w -> trace w1 = trace (log (EUpload p (Some f0)) w) ++ evs ->
  forallb is_poll evs = true ->
  Some l' = handle_after (Some f0) evs ->
  body_ok w (Some l') w1 (EUpload p (Some f0) :: evs).
Proof.
  intros Hfs Htr Hev Hh. unfold body_ok.
  change (EUpload p (Some f0) :: evs) with ([EUpload p (Some f0)] ++ evs).
  rewrite !count_app, (poll_not_unlink evs), (poll_not_delete evs),
    (poll_not_upload evs), handle_after_app by done.
  simpl in *. rewrite Htr, <- app_assoc. by repeat split.
Qed.

Lemma analyze_body_inv (fuel : nat) (env : Env) (vi : VideoAnalysis)
    (vp : option pystr) (w : World) :
  exists r l' w1 evs,
    analyze_body fuel env vi vp (None, w) = (r, (l', w1)) /\
    body_ok w l' w1 evs /\
    (sample_exists vp w = false -> l' = None) /\
    body_result env vi r l' evs.
Proof.
  unfold analyze_body. unfold bind at 1. rewrite sample_present_run.
  destruct (sample_exists vp w) eqn:Hs.
  - destruct vp as [p|]; [|done].
    unfold bind at 1. unfold bind at 1.
    unfold in_world at 1, genai_upload_file, bind at 1, emit. simpl.
    destruct (env_upload env p) as [f0|] eqn:Hup; simpl.
    + unfold bind at 1. unfold set_local at 1. simpl.
      unfold bind at 1.
      destruct (poll_inv fuel env f0 (Some f0) (log (EUpload p (Some f0)) w))
        as (r & l' & w1 & evs & Hrun & Hfs & Htr & Hev & Hh & Hl & Hr).
      rewrite Hrun. destruct (Hl eq_refl) as [f' ->].
      pose proof (body_ok_upload w p f0 f' w1 evs Hfs Htr Hev Hh) as Hok.
      assert (Hnogen : count is_generate (EUpload p (Some f0) :: evs) = 0%nat).
      { change (EUpload p (Some f0) :: evs) with ([EUpload p (Some f0)] ++ evs).
        by rewrite count_app, (poll_not_generate evs). }
      destruct r as [x| e |]; simpl.
      * destruct (Hr x eq_refl) as [_ Hx]. specialize (Hx eq_refl).
        injection Hx as <-.
        destruct (is_failed f') eqn:Hfail; simpl.
        { eexists _, _, _, _. split; [reflexivity|]. split; [done|].
          split; [done|]. intros h _ _. exact Hnogen. }
        unfold get_local, in_world, generate_content, bind, emit; simpl.
        destruct (env_generate env (build_prompt vi) (Some f')) as [text|] eqn:Hgen;
          simpl; [destruct (json_loads (clean_response text)) eqn:Hj; simpl|].
        all: eexists _, _, _, _; split; [reflexivity|].
        all: split; [by apply body_ok_generate|]; split; [done|]; simpl.
        { split; [by exists text|]. by intros h [= <-]. }
        all: intros h [= <-]; congruence.
      * eexists _, _, _, _. split; [reflexivity|]. split; [done|].
        split; [done|]. intros h _ _. exact Hnogen.
      * eexists _, _, _, _. split; [reflexivity|]. split; [done|].
        by split.
    + eexists _, _, _, [EUpload p None]. split; [reflexivity|].
      by repeat split.
  - unfold bind, ret, get_local, in_world, generate_content, emit; simpl.
    destruct (env_generate env (build_prompt vi) None) as [text|] eqn:Hgen; simpl;
      [destruct (json_loads (clean_response text)) eqn:Hj; simpl|].
    all: eexists _, _, _, [_]; split; [reflexivity|].
    all: split; [by repeat split|]; split; [done|]; simpl.
    { split; [by exists text|]. by intros h. }
    all: by intros h.
Qed.

Lemma sample_exists_fs (vp : option pystr) (w w1 : World) :
  fs w1 = fs w -> sample_exists vp w1 = sample_exists vp w.
Proof. intros H. destruct vp as [[|c r]|]; simpl; by rewrite ?H. Qed.

Lemma unlink_ok_fs (env : Env) (vp : option pystr) (w w1 : World) :
  fs w1 = fs w -> unlink_ok env vp w1 = unlink_ok env vp w.
Proof.
  intros H. unfold unlink_ok. by rewrite (sample_exists_fs vp w w1 H).
Qed.

Lemma unlink_ok_no_sample (env : Env) (vp : option pystr) (w : World) :
  sample_exists vp w = false -> unlink_ok env vp w = true.
Proof. intros H. unfold unlink_ok. rewrite H. by destruct vp. Qed.

(** The [finally] block: it never diverges and it makes exactly the
    calls of [cleanup_events].  It can end with an exception in two
    ways: the unlink of the sample raises, and then the remote deletion
    is skipped, or the remote deletion raises. *)
Lemma analyze_cleanup_run (env : Env) (vp : option pystr) (l : option File)
    (w1 : World) :
  exists r w2,
    analyze_cleanup env vp (l, w1) = (r, (l, w2)) /\
    trace w2 = trace w1 ++ cleanup_events env vp w1 l /\
    fs w2 = cleanup_fs env vp w1 /\
    fetches w2 = fetches w1 /\
    (r = Ret tt /\ unlink_ok env vp w1 = true \/
     r = Raise DeleteError /\ unlink_ok env vp w1 = true /\
     (exists f, l = Some f /\ env_delete_file env (file_name f) = false) \/
     r = Raise OSError /\ unlink_ok env vp w1 = false).
Proof.
  unfold analyze_cleanup. unfold bind at 1. rewrite sample_present_run.
  unfold cleanup_events, cleanup_fs, unlink_ok.
  destruct (sample_exists vp w1) eqn:Hs.
  - destruct vp as [[|c p]|]; try done. simpl in Hs.
    unfold bind, in_world, os_unlink, get_local, genai_delete_file, emit.
    simpl. rewrite Hs. simpl.
    destruct (env_unlink env (c :: p)) eqn:Hu; simpl.
    + destruct l as [f|]; simpl.
      * destruct (env_delete_file env (file_name f)) eqn:Hd; simpl.
        all: eexists _, _; split; [reflexivity|]; simpl.
        all: rewrite <- ?app_assoc; repeat split; eauto 10.
      * eexists _, _; split; [reflexivity|]; simpl.
        rewrite ?app_nil_r. repeat split; eauto.
    + eexists _, _; split; [reflexivity|]; simpl.
      rewrite ?app_nil_r. repeat split; eauto.
  - unfold bind, in_world, get_local, genai_delete_file, emit, ret. simpl.
    assert (Hnil : match vp with Some _ => [] | None => [] end = @nil event)
      by by destruct vp.
    assert (Hfs : match vp with Some _ => fs w1 | None => fs w1 end = fs w1)
      by by destruct vp.
    assert (Htrue : match vp with Some _ => true | None => true end = true)
      by by destruct vp.
    rewrite Hnil, Hfs, Htrue. simpl.
    destruct l as [f|]; simpl.
    + destruct (env_delete_file env (file_name f)) eqn:Hd; simpl.
      all: eexists _, _; split; [reflexivity|]; simpl.
      all: repeat split; eauto 10.
    + eexists _, _; split; [reflexivity|]; simpl.
      rewrite ?app_nil_r. repeat split; eauto.
Qed.

(** One call of [analyze_with_gemini], split into its [try] block and
    its [finally] block. *)
Lemma analyze_with_gemini_run (fuel : nat) (env : Env) (vi : VideoAnalysis)
    (vp : option pystr) (w : World) :
  exists rb l w1 evs,
    analyze_body fuel env vi vp (None, w) = (rb, (l, w1)) /\
    body_ok w l w1 evs /\
    (sample_exists vp w = false -> l = None) /\
    body_result env vi rb l evs /\
    (rb = Diverge -> analyze_with_gemini fuel env vi vp w = (Diverge, w1)) /\
    (rb <> Diverge ->
     exists w2,
       trace w2 = trace w ++ evs ++ cleanup_events env vp w l /\
       fs w2 = cleanup_fs env vp w /\
       fetches w2 = fetches w1 /\
       (analyze_with_gemini fuel env vi vp w = (caught rb, w2) /\
        unlink_ok env vp w = true \/
        analyze_with_gemini fuel env vi vp w = (Raise DeleteError, w2) /\
        unlink_ok env vp w = true /\
        (exists f, l = Some f /\ env_delete_file env (file_name f) = false) \/
        analyze_with_gemini fuel env vi vp w = (Raise OSError, w2) /\
        unlink_ok env vp w = false)).
Proof.
  destruct (analyze_body_inv fuel env vi vp w)
    as (rb & l & w1 & evs & Hrun & Hok & Hnone & Hres).
  exists rb, l, w1, evs. do 4 (split; [done|]).
  unfold analyze_with_gemini, with_frame, try_finally, try_except.
  rewrite Hrun. destruct Hok as (Hfs & Htr & _).
  destruct (analyze_cleanup_run env vp l w1)
    as (rc & w2 & Hc & Htr2 & Hfs2 & Hfe & Hrc).
  assert (Hev : cleanup_events env vp w1 l = cleanup_events env vp w l).
  { unfold cleanup_events.
    by rewrite (sample_exists_fs vp w w1 Hfs), (unlink_ok_fs env vp w w1 Hfs). }
  assert (Hcf : cleanup_fs env vp w1 = cleanup_fs env vp w).
  { unfold cleanup_fs. by rewrite (sample_exists_fs vp w w1 Hfs), Hfs. }
  rewrite (unlink_ok_fs env vp w w1 Hfs) in Hrc.
  split.
  - by intros ->.
  - intros Hnd. exists w2.
    split; [by rewrite Htr2, Htr, Hev, app_assoc|].
    split; [by rewrite Hfs2, Hcf|].
    split; [done|].
    destruct rb as [v|e|]; [| |done]; simpl; unfold ret; simpl; rewrite Hc.
    all: destruct Hrc as [[-> Hu]|[[-> Hu]|[-> Hu]]];
      [by left|by right; left|by right; right].
Qed.




Lemma count_cleanup_generate env vp w l :
  count is_generate (cleanup_events env vp w l) = 0%nat.
Proof.
  unfold cleanup_events. rewrite count_app.
  destruct (unlink_ok env vp w);
    (destruct vp as [p|]; [destruct (sample_exists (Some p) w)|]);
    by destruct l.
Qed.

Lemma handle_after_cleanup init env vp w l :
  handle_after init (cleanup_events env vp w l) = init.
Proof.
  unfold cleanup_events.
  destruct (unlink_ok env vp w);
    (destruct vp as [p|]; [destruct (sample_exists (Some p) w)|]);
    by destruct l.
Qed.

Lemma deleted_names_app (a b : list event) :
  deleted_names (a ++ b) = deleted_names a ++ deleted_names b.
Proof. unfold deleted_names. apply omap_app. Qed.

Lemma deleted_names_none (t : list event) :
  count is_delete t = 0%nat -> deleted_names t = [].
Proof.
  unfold count, deleted_names. induction t as [|e t IH]; [done|].
  destruct e; simpl; try done; auto.
Qed.

Lemma deleted_names_cleanup env vp w l :
  deleted_names (cleanup_events env vp w l)
  = if unlink_ok env vp w
    then match l with Some f => [file_name f] | None => [] end
    else [].
Proof.
  unfold cleanup_events.
  destruct (unlink_ok env vp w);
    (destruct vp as [p|]; [destruct (sample_exists (Some p) w)|]);
    by destruct l.
Qed.

Lemma analyze_body_settles (fuel : nat) (env : Env) (vi : VideoAnalysis)
    (vp : option pystr) (w : World) :
  will_settle env fuel vp w = true ->
  fst (analyze_body fuel env vi vp (None, w)) <> Diverge.
Proof.
  unfold will_settle, analyze_body. unfold bind at 1.
  rewrite sample_present_run.
  destruct (sample_exists vp w) eqn:Hs.
  - destruct vp as [p|]; [|done].
    unfold bind at 1. unfold bind at 1.
    unfold in_world at 1, genai_upload_file, bind at 1, emit. simpl.
    destruct (env_upload env p) as [f0|] eqn:Hup; simpl; [|done].
    intros Hset. unfold bind at 1. unfold set_local at 1. simpl.
    unfold bind at 1.
    pose proof (poll_settles fuel env f0 (Some f0)
                  (log (EUpload p (Some f0)) w) Hset) as Hp.
    destruct (poll fuel env f0 (Some f0, log (EUpload p (Some f0)) w))
      as [[x|e|] [l1 w1]]; simpl in *; [| done | done].
    destruct (is_failed x); simpl; [done|].
    unfold get_local, in_world, generate_content, bind, emit; simpl.
    destruct (env_generate env (build_prompt vi) l1) as [text|]; simpl;
      [by destruct (json_loads (clean_response text))|done].
  - intros _.
    unfold bind, ret, get_local, in_world, generate_content, emit; simpl.
    destruct (env_generate env (build_prompt vi) None) as [text|]; simpl;
      [by destruct (json_loads (clean_response text))|done].
Qed.

(** Enough fuel for the service to settle: the call ends. *)
Lemma analyze_with_gemini_ends (fuel : nat) (env : Env) (vi : VideoAnalysis)
    (vp : option pystr) (w : World) :
  will_settle env fuel vp w = true ->
  fst (analyze_with_gemini fuel env vi vp w) <> Diverge.
Proof.
  intros Hs. pose proof (analyze_body_settles fuel env vi vp w Hs) as Hb.
  destruct (analyze_with_gemini_run fuel env vi vp w)
    as (rb & l & w1 & evs & Hrun & _ & _ & _ & _ & Hend).
  rewrite Hrun in Hb. simpl in Hb.
  destruct (Hend Hb) as (w2 & _ & _ & _ & [[-> _] | [[-> _] | [-> _]]]);
    [|done|done].
  by destruct rb.
Qed.




(** The six exit paths on the sample: success, upload failure, poll
    failure, [FAILED] terminal state, generation failure, parse
    failure.  Each lists the result, then the numbers of successful
    uploads, remote deletions and unlinks, then the files left. *)
Example exit_success :
  exists v, summary env_ok = (Ret v, (1, 1, 1)%nat, []) /\
            v <> get_fallback_analysis.
Proof. eexists. split; [vm_compute; reflexivity|discriminate]. Qed.

Example exit_upload_failure :
  summary (demo_env false PROCESSING 1 (Some READY) (Some demo_answer) true)
  = (Ret get_fallback_analysis, (0, 0, 1)%nat, []).
Proof. vm_compute. reflexivity. Qed.

Example exit_poll_failure :
  summary (demo_env true PROCESSING 1 None (Some demo_answer) true)
  = (Ret get_fallback_analysis, (1, 1, 1)%nat, []).
Proof. vm_compute. reflexivity. Qed.

Example exit_failed_state :
  summary (demo_env true PROCESSING 1 (Some FAILED) (Some demo_answer) true)
  = (Ret get_fallback_analysis, (1, 1, 1)%nat, []).
Proof. vm_compute. reflexivity. Qed.

Example exit_generation_failure :
  summary (demo_env true PROCESSING 1 (Some READY) None true)
  = (Ret get_fallback_analysis, (1, 1, 1)%nat, []).
Proof. vm_compute. reflexivity. Qed.

Example exit_parse_failure :
  summary (demo_env true PROCESSING 1 (Some READY) (Some (lit "not json")) true)
  = (Ret get_fallback_analysis, (1, 1, 1)%nat, []).
Proof. vm_compute. reflexivity. Qed.

Example exit_unlink_failure :
  summary env_unlink_fails = (Raise OSError, (1, 0, 1)%nat, [demo_path]).
Proof. vm_compute. reflexivity. Qed.

(** C5. When the handle reports [PROCESSING] at the upload and at the
    first status fetch, and [READY] at the second, the orchestrator
    makes exactly two status fetches, each one right after a sleep of 2,
    and then calls the generation; the clean-up follows: the unlink of
    the sample and, unless that unlink raises, the remote deletion. *)
Theorem poll_twice_then_generate (fuel : nat) (env : Env) (vi : VideoAnalysis)
    (p : pystr) (w : World) (f0 f1 f2 : File) :
  p <> [] -> p ∈ fs w ->
  env_upload env p = Some f0 -> file_state_of f0 = PROCESSING ->
  env_get_file env (fetches w) (file_name f0) = Some f1 ->
  file_state_of f1 = PROCESSING ->
  env_get_file env (S (fetches w)) (file_name f1) = Some f2 ->
  file_state_of f2 = READY ->
  (2 <= fuel)%nat ->
  trace (snd (analyze_with_gemini fuel env vi (Some p) w))
  = trace w ++
    [ EUpload p (Some f0);
      ESleep 2; EGetFile (file_name f0) (Some f1);
      ESleep 2; EGetFile (file_name f1) (Some f2);
      EGenerate (build_prompt vi) (Some f2)
                (env_generate env (build_prompt vi) (Some f2));
      EUnlink p ]
    ++ (if env_unlink env p then [EDeleteFile (file_name f2)] else []).
Proof.
  intros Hp Hin Hup Hs0 Hg1 Hs1 Hg2 Hs2 Hfuel.
  destruct fuel as [|[|k]]; [lia|lia|]. clear Hfuel.
  destruct p as [|c p]; [done|]. clear Hp.
  unfold analyze_with_gemini, with_frame, try_finally, try_except,
    analyze_body, analyze_cleanup.
  unfold bind at 1. rewrite sample_present_run. simpl sample_exists.
  rewrite (bool_decide_eq_true_2 _ Hin).
  unfold bind, in_world, genai_upload_file, emit, set_local, get_local,
    generate_content, genai_delete_file, os_unlink, sample_present,
    path_exists, ret, raise.
  simpl. rewrite Hup. simpl.
  assert (P0 : is_processing f0 = true) by (unfold is_processing; by rewrite Hs0).
  assert (P1 : is_processing f1 = true) by (unfold is_processing; by rewrite Hs1).
  assert (P2 : is_processing f2 = false) by (unfold is_processing; by rewrite Hs2).
  assert (F2 : is_failed f2 = false) by (unfold is_failed; by rewrite Hs2).
  rewrite P0. unfold bind, in_world, asyncio_sleep, genai_get_file, emit,
    set_local. simpl. rewrite Hg1. simpl. rewrite P1. simpl.
  rewrite Hg2. simpl.
  assert (Hk : poll k env f2 = ret f2) by (destruct k; simpl; by rewrite P2).
  rewrite Hk. unfold ret. simpl. rewrite F2. simpl.
  rewrite ?(bool_decide_eq_true_2 _ Hin).
  destruct (env_generate env (build_prompt vi) (Some f2)) as [text|]; simpl;
    [destruct (json_loads (clean_response text)); simpl|].
  all: rewrite ?(bool_decide_eq_true_2 _ Hin); simpl.
  all: destruct (env_unlink env (c :: p)); simpl.
  all: try destruct (env_delete_file env (file_name f2)); simpl.
  all: by rewrite <- !app_assoc.
Qed.

Lemma poll_twice_then_generate_witness :
  demo_path <> [] /\
  trace (snd (analyze_with_gemini 5 env_ok demo_video (Some demo_path)
                                  world_with_sample))
  = [ EUpload demo_path (Some (mkFile demo_name PROCESSING));
      ESleep 2; EGetFile demo_name (Some (mkFile demo_name PROCESSING));
      ESleep 2; EGetFile demo_name (Some (mkFile demo_name READY));
      EGenerate (build_prompt demo_video) (Some (mkFile demo_name READY))
                (Some demo_answer);
      EUnlink demo_path; EDeleteFile demo_name ].
Proof.
  split; [discriminate|].
  apply (poll_twice_then_generate 5 env_ok demo_video demo_path
           world_with_sample (mkFile demo_name PROCESSING)
           (mkFile demo_name PROCESSING) (mkFile demo_name READY)).
  - discriminate.
  - vm_compute. reflexivity.
  - reflexivity.
  - reflexivity.
  - reflexivity.
  - reflexivity.
  - reflexivity.
  - reflexivity.
  - simpl. lia.
Defined.

(** ** The pipeline *)

(** Without a sample the orchestrator makes one call, the generation
    without media, and returns. *)
Lemma analyze_with_gemini_no_sample (fuel : nat) (env : Env)
    (vi : VideoAnalysis) (w : World) :
  analyze_with_gemini fuel env vi None w
  = (Ret (answer_or_fallback (env_generate env (build_prompt vi) None)),
     log (EGenerate (build_prompt vi) None
                    (env_generate env (build_prompt vi) None)) w).
Proof.
  unfold analyze_with_gemini, with_frame, try_finally, try_except,
    analyze_body, analyze_cleanup, bind, in_world, sample_present,
    get_local, generate_content, emit, ret, raise, answer_or_fallback.
  simpl.
  destruct (env_generate env (build_prompt vi) None) as [text|]; simpl;
    [by destruct (json_loads (clean_response text))|done].
Qed.

Lemma mkRequest_url (url : option pystr) (flag : bool) :
  match mkRequest url flag with
  | BodyDict d => d !! "url" = VStr <$> url
  | BodyOther => False
  end.
Proof.
  unfold mkRequest. rewrite lookup_insert_ne by done.
  destruct url; [apply lookup_singleton_eq|apply lookup_empty].
Qed.

Lemma mkRequest_flag (url : option pystr) (flag : bool) :
  match mkRequest url flag with
  | BodyDict d => d !! "analyze_video_content" = Some (VOther flag)
  | BodyOther => False
  end.
Proof. unfold mkRequest. apply lookup_insert_eq. Qed.

(** The route on a body made of a string URL (or none) and a boolean
    flag. *)
Lemma analyze_video_mkRequest (fuel : nat) (env : Env) (url : option pystr)
    (flag : bool) :
  analyze_video fuel env (mkRequest url flag)
  = try_except
      (match url with
       | Some (c :: r) =>
         match extract_video_id (c :: r) with
         | Some (_ :: _) =>
           let! info := get_video_info env (c :: r) in
           match info with
           | Some video_info =>
             let! video_path :=
               (if flag then download_video_segment env (c :: r) 60
                else ret None) in
             let! analysis_result :=
               analyze_with_gemini fuel env video_info video_path in
             ret (RespOk video_info analysis_result)
           | None => ret (RespError "Failed to extract video information" 400)
           end
         | _ => ret (RespError "Invalid YouTube URL" 400)
         end
       | _ => ret (RespError "URL is required" 400)
       end)
      (fun _ => ret (RespError "Internal server error" 500)).
Proof.
  pose proof (mkRequest_url url flag) as Hu.
  pose proof (mkRequest_flag url flag) as Hf.
  unfold analyze_video. destruct (mkRequest url flag) as [d|]; [|done].
  rewrite Hu, Hf. by destruct url as [[|c r]|].
Qed.

Lemma get_video_info_run (env : Env) (url : pystr) (w : World) :
  get_video_info env url w
  = (Ret (option_map video_of_info (env_extract_info env url)),
     log (EExtractInfo url) w).
Proof.
  unfold get_video_info, try_except, ydl_extract_info, bind, emit, ret, raise.
  simpl. by destruct (env_extract_info env url).
Qed.

(** C10. When the temporary file is allocated and the download then
    fails, [download_video_segment] returns [None] and unlinks nothing:
    the file it created is still there.  The route goes on without a
    sample, so the orchestrator is handed no path, nothing in the rest
    of the request unlinks the file either, and it is still there when
    the response is returned. *)
Theorem failed_download_leaves_temp_file (fuel : nat) (env : Env)
    (url p : pystr) (info : InfoDict) (w : World) :
  url <> [] ->
  (exists g, extract_video_id url = Some g /\ g <> []) ->
  env_extract_info env url = Some info ->
  env_tempfile env = Some p ->
  env_download env url p = false ->
  (forall w0,
     exists w1,
       download_video_segment env url 60 w0 = (Ret None, w1) /\
       trace w1 = trace w0 ++ [ETempFile p; EDownload url p 60] /\
       fs w1 = fs w0 ∪ {[p]}) /\
  (exists w',
     analyze_video fuel env (mkRequest (Some url) true) w
     = (Ret (RespOk (video_of_info info)
               (answer_or_fallback
                  (env_generate env (build_prompt (video_of_info info)) None))),
        w') /\
     p ∈ fs w' /\
     count is_unlink (trace w') = count is_unlink (trace w) /\
     count is_upload (trace w') = count is_upload (trace w)).
Proof.
  intros Hurl (g & Hid & Hg) Hinfo Htmp Hdl.
  assert (Hdown : forall w0,
    download_video_segment env url 60 w0
    = (Ret None,
       mkWorld (fs w0 ∪ {[p]}) (trace w0 ++ [ETempFile p; EDownload url p 60])
               (fetches w0))).
  { intros w0.
    unfold download_video_segment, try_except, bind, named_temporary_file,
      ydl_download, emit, ret, raise, bind.
    rewrite Htmp. simpl. rewrite Hdl. simpl. unfold log. simpl.
    by rewrite <- app_assoc. }
  split.
  { intros w0. eexists. split; [apply Hdown|]. by split. }
  rewrite analyze_video_mkRequest. unfold try_except.
  destruct url as [|c url]; [done|]. rewrite Hid.
  destruct g as [|c' g]; [done|].
  unfold bind at 1. rewrite get_video_info_run, Hinfo. simpl.
  unfold bind at 1. rewrite Hdown.
  unfold bind at 1. rewrite analyze_with_gemini_no_sample. unfold ret.
  eexists. split; [reflexivity|]. simpl.
  split; [apply elem_of_union_r, elem_of_singleton; reflexivity|].
  rewrite !count_app. unfold count. simpl. split; lia.
Qed.

Lemma failed_download_leaves_temp_file_witness :
  (forall w0,
     exists w1,
       download_video_segment env_download_fails demo_url 60 w0 = (Ret None, w1) /\
       trace w1 = trace w0 ++ [ETempFile demo_path; EDownload demo_url demo_path 60] /\
       fs w1 = fs w0 ∪ {[demo_path]}) /\
  (exists w',
     analyze_video 5 env_download_fails (mkRequest (Some demo_url) true)
                   world_empty
     = (Ret (RespOk (video_of_info demo_info)
               (answer_or_fallback
                  (env_generate env_download_fails
                     (build_prompt (video_of_info demo_info)) None))),
        w') /\
     demo_path ∈ fs w' /\
     count is_unlink (trace w') = count is_unlink (trace world_empty) /\
     count is_upload (trace w') = count is_upload (trace world_empty)).
Proof.
  apply (failed_download_leaves_temp_file 5 env_download_fails demo_url
           demo_path demo_info world_empty).
  - discriminate.
  - eexists. split; [reflexivity|discriminate].
  - reflexivity.
  - reflexivity.
  - reflexivity.
Defined.

(** The route without sampling, for any URL the extractor accepts. *)
Lemma analyze_video_metadata_only (fuel : nat) (env : Env) (url g : pystr)
    (w : World) :
  url <> [] -> extract_video_id url = Some g -> g <> [] ->
  analyze_video fuel env (mkRequest (Some url) false) w
  = match env_extract_info env url with
    | Some info =>
      let vi := video_of_info info in
      let answer := env_generate env (build_prompt vi) None in
      (Ret (RespOk vi (answer_or_fallback answer)),
       log (EGenerate (build_prompt vi) None answer)
           (log (EExtractInfo url) w))
    | None =>
      (Ret (RespError "Failed to extract video information" 400),
       log (EExtractInfo url) w)
    end.
Proof.
  intros Hurl Hid Hg. rewrite analyze_video_mkRequest. unfold try_except.
  destruct url as [|c url]; [done|]. rewrite Hid.
  destruct g as [|c' g]; [done|].
  unfold bind at 1. rewrite get_video_info_run.
  destruct (env_extract_info env (c :: url)) as [info|]; simpl; [|done].
  unfold bind at 1. unfold ret at 1. unfold bind at 1.
  by rewrite analyze_with_gemini_no_sample.
Qed.

(** C8, as the code has it. For the URL [https://youtu.be/abc123] with
    [analyze_video_content] false: the extractor resolves the URL to
    [abc123]; the only calls are the metadata fetch and one generation
    without media, so nothing is sampled and the orchestrator runs with
    the sample absent; when the provider answers, the response carries
    the [video_id] the provider reported (empty when it reported none),
    hence [abc123] when the provider reports [abc123]; when the
    provider fails, the response is the 400 error. *)
Theorem short_url_metadata_only (fuel : nat) (env : Env) (w : World) :
  extract_video_id demo_url = Some (lit "abc123") /\
  match env_extract_info env demo_url with
  | Some info =>
    let vi := video_of_info info in
    let answer := env_generate env (build_prompt vi) None in
    let w1 := log (EExtractInfo demo_url) w in
    analyze_video fuel env (mkRequest (Some demo_url) false) w
    = (Ret (RespOk vi (answer_or_fallback answer)),
       log (EGenerate (build_prompt vi) None answer) w1) /\
    analyze_with_gemini fuel env vi None w1
    = (Ret (answer_or_fallback answer),
       log (EGenerate (build_prompt vi) None answer) w1) /\
    field_from (info_str info !! "id") [] (video_id vi) /\
    (info_str info !! "id" = Some (lit "abc123") -> video_id vi = lit "abc123")
  | None =>
    analyze_video fuel env (mkRequest (Some demo_url) false) w
    = (Ret (RespError "Failed to extract video information" 400),
       log (EExtractInfo demo_url) w)
  end.
Proof.
  split; [reflexivity|].
  rewrite (analyze_video_metadata_only fuel env demo_url (lit "abc123") w)
    by done.
  destruct (env_extract_info env demo_url) as [info|]; [|done].
  split; [done|]. split; [apply analyze_with_gemini_no_sample|].
  split; [apply field_from_default|].
  simpl. unfold get_str. by intros ->.
Qed.

(** The claim as stated fails: with a provider whose answer has no
    [id], the URL still resolves to [abc123], yet the response's
    [video_id] is the empty string. *)
Lemma video_id_is_the_providers :
  extract_video_id demo_url = Some (lit "abc123") /\
  exists vi a,
    fst (analyze_video 5 env_no_id (mkRequest (Some demo_url) false) world_empty)
    = Ret (RespOk vi a) /\
    video_id vi = [] /\ video_id vi <> lit "abc123".
Proof.
  split; [reflexivity|]. eexists _, _.
  split; [vm_compute; reflexivity|]. split; [reflexivity|discriminate].
Qed.

(** C2, as the code has it. An exception raised in the [try] block
    (upload, poll, [FAILED] state, generation, parse) never leaves
    [analyze_with_gemini]: the call then returns the fallback report,
    unless the clean-up itself raises, in its unlink of the sample or in
    its remote deletion; these are the only exceptions that leave the
    call.  The call ends whenever the service settles within the fuel,
    and it then returns a value when neither clean-up call raises.  A
    returned value is the fallback report or the value parsed from the
    answer, whatever its shape.  When the handle held at the end is
    [FAILED], no generation was called; the result is then the fallback
    report and the remote deletion was issued for that handle, provided
    the unlink did not raise (the deletion itself may). *)
Theorem errors_become_fallback (fuel : nat) (env : Env) (vi : VideoAnalysis)
    (vp : option pystr) (w : World) (r : res json) (w' : World) :
  analyze_with_gemini fuel env vi vp w = (r, w') ->
  (will_settle env fuel vp w = true -> r <> Diverge) /\
  (forall e s, analyze_body fuel env vi vp (None, w) = (Raise e, s) ->
     r = Ret get_fallback_analysis \/ r = Raise DeleteError \/
     r = Raise OSError) /\
  (forall v, r = Ret v ->
     v = get_fallback_analysis \/
     exists media text,
       env_generate env (build_prompt vi) media = Some text /\
       json_loads (clean_response text) = Some v) /\
  (r <> Diverge ->
   exists evs,
     trace w' = trace w ++ evs /\
     (forall e, r = Raise e ->
        e = OSError /\ unlink_ok env vp w = false \/
        e = DeleteError /\ unlink_ok env vp w = true /\
        exists h, handle_after None evs = Some h /\
                  env_delete_file env (file_name h) = false) /\
     (forall h, handle_after None evs = Some h -> is_failed h = true ->
        count is_generate evs = 0%nat /\
        (unlink_ok env vp w = true ->
         (r = Ret get_fallback_analysis \/ r = Raise DeleteError) /\
         deleted_names evs = [file_name h]) /\
        (unlink_ok env vp w = false ->
         r = Raise OSError /\ deleted_names evs = []))) /\
  (will_settle env fuel vp w = true -> unlink_ok env vp w = true ->
   (forall name, env_delete_file env name = true) ->
   exists v, r = Ret v).
Proof.
  intros Hrun.
  destruct (analyze_with_gemini_run fuel env vi vp w)
    as (rb & l & w1 & evs & Hbody & Hok & _ & Hres & Hdiv & Hend).
  assert (Hsettle : will_settle env fuel vp w = true -> r <> Diverge).
  { intros Hs. pose proof (analyze_with_gemini_ends fuel env vi vp w Hs) as H.
    by rewrite Hrun in H. }
  split; [done|].
  split.
  { intros e s He. rewrite He in Hbody. injection Hbody as <- _.
    destruct Hend as (w2 & _ & _ & _ & [[H _]|[[H _]|[H _]]]); [done| | |];
      rewrite H in Hrun; injection Hrun as <- _; auto. }
  split.
  { intros v ->.
    destruct rb as [v0|e|].
    - destruct Hend as (w2 & _ & _ & _ & [[H _]|[[H _]|[H _]]]); [done| | |];
        rewrite H in Hrun; [|done|done]. injection Hrun as <- _.
      right. destruct Hres as [(text & ? & ?) _]. by exists l, text.
    - destruct Hend as (w2 & _ & _ & _ & [[H _]|[[H _]|[H _]]]); [done| | |];
        rewrite H in Hrun; [|done|done]. injection Hrun as <- _. by left.
    - rewrite (Hdiv eq_refl) in Hrun. done. }
  split.
  - intros Hnd.
    assert (Hrb : rb <> Diverge).
    { intros Hrb. rewrite (Hdiv Hrb) in Hrun. by inversion Hrun; subst. }
    destruct (Hend Hrb) as (w2 & Htr & Hfs & _ & Hcases).
    assert (w' = w2) as ->.
    { destruct Hcases as [[H _]|[[H _]|[H _]]]; rewrite H in Hrun;
        by inversion Hrun. }
    destruct Hok as (_ & _ & _ & Hc2 & _ & Hh).
    exists (evs ++ cleanup_events env vp w l).
    rewrite handle_after_app, handle_after_cleanup, <- Hh.
    split; [done|]. split.
    + intros e ->.
      destruct Hcases as [[H Hu]|[[H [Hu (f & -> & Hf)]]|[H Hu]]];
        rewrite H in Hrun.
      * destruct rb; simpl in Hrun; done.
      * injection Hrun as <-. right. split; [done|]. split; [done|].
        by exists f.
      * injection Hrun as <-. by left.
    + intros h -> Hfail.
      assert (Hgen : count is_generate evs = 0%nat /\ exists e, rb = Raise e).
      { destruct rb as [v|e|]; [|by eauto|done].
        destruct Hres as [_ Hnf]. rewrite (Hnf h eq_refl) in Hfail. done. }
      destruct Hgen as [Hgen [e ->]].
      rewrite count_app, Hgen, count_cleanup_generate, deleted_names_app,
        (deleted_names_none evs Hc2), deleted_names_cleanup.
      split; [done|]. split.
      * intros Hu. rewrite Hu. split; [|done].
        destruct Hcases as [[H _]|[[H _]|[H Hu']]]; [| |congruence];
          rewrite H in Hrun; injection Hrun as <-; auto.
      * intros Hu. rewrite Hu. split; [|done].
        destruct Hcases as [[_ Hu']|[[_ [Hu' _]]|[H _]]];
          [congruence|congruence|].
        rewrite H in Hrun. by injection Hrun as <-.
  - intros Hs Hu Hdel.
    assert (Hnd : r <> Diverge) by auto.
    assert (Hrb : rb <> Diverge).
    { intros Hrb. rewrite (Hdiv Hrb) in Hrun. by inversion Hrun; subst. }
    destruct (Hend Hrb)
      as (w2 & _ & _ & _ & [[H _]|[[_ [_ (f & _ & Hf)]]|[_ Hu']]]).
    + rewrite H in Hrun. injection Hrun as <- _.
      destruct rb as [v|e|]; [by exists v|by eexists|done].
    + by rewrite Hdel in Hf.
    + congruence.
Qed.

Lemma errors_become_fallback_witness :
  let env := env_failed_state in
  let vp := Some demo_path in
  let w := world_with_sample in
  let run := analyze_with_gemini 5 env demo_video vp w in
  (will_settle env 5 vp w = true -> fst run <> Diverge) /\
  (forall e s, analyze_body 5 env demo_video vp (None, w) = (Raise e, s) ->
     fst run = Ret get_fallback_analysis \/ fst run = Raise DeleteError \/
     fst run = Raise OSError) /\
  (forall v, fst run = Ret v ->
     v = get_fallback_analysis \/
     exists media text,
       env_generate env (build_prompt demo_video) media = Some text /\
       json_loads (clean_response text) = Some v) /\
  (fst run <> Diverge ->
   exists evs,
     trace (snd run) = trace w ++ evs /\
     (forall e, fst run = Raise e ->
        e = OSError /\ unlink_ok env vp w = false \/
        e = DeleteError /\ unlink_ok env vp w = true /\
        exists h, handle_after None evs = Some h /\
                  env_delete_file env (file_name h) = false) /\
     (forall h, handle_after None evs = Some h -> is_failed h = true ->
        count is_generate evs = 0%nat /\
        (unlink_ok env vp w = true ->
         (fst run = Ret get_fallback_analysis \/ fst run = Raise DeleteError) /\
         deleted_names evs = [file_name h]) /\
        (unlink_ok env vp w = false ->
         fst run = Raise OSError /\ deleted_names evs = []))) /\
  (will_settle env 5 vp w = true -> unlink_ok env vp w = true ->
   (forall name, env_delete_file env name = true) ->
   exists v, fst run = Ret v).
Proof.
  apply (errors_become_fallback 5 env_failed_state demo_video (Some demo_path)
           world_with_sample).
  vm_compute. reflexivity.
Defined.

(** The run of the witness goes through the error path: the [try]
    block raises on the [FAILED] state, and the call returns the
    fallback report after deleting the remote file. *)
Example failed_state_run :
  let run := analyze_with_gemini 5 env_failed_state demo_video
               (Some demo_path) world_with_sample in
  fst (analyze_body 5 env_failed_state demo_video (Some demo_path)
         (None, world_with_sample))
  = Raise (ValueError "Video file processing failed.") /\
  fst run = Ret get_fallback_analysis /\
  count is_generate (trace (snd run)) = 0%nat /\
  deleted_names (trace (snd run)) = [demo_name].
Proof. vm_compute. repeat split; reflexivity. Qed.

(** A service that never leaves [PROCESSING] keeps the loop going. *)
Lemma poll_stalled (fuel : nat) :
  forall (f : File) (l : option File) (w : World),
    is_processing f = true ->
    fst (poll fuel env_stalled f (l, w)) = Diverge.
Proof.
  induction fuel as [|k IH]; intros f l w Hf; simpl; rewrite Hf; [done|].
  unfold bind, in_world, asyncio_sleep, emit, genai_get_file, set_local.
  simpl. by apply IH.
Qed.

(** The claim as stated fails, in four ways.  An error of the remote
    deletion leaves the call, and so does an error of the unlink of the
    sample; a service that stays [PROCESSING] keeps the call from
    returning, whatever the fuel; and an answer that is valid JSON but
    no report is returned as it is. *)
Lemma orchestrator_can_fail :
  fst (analyze_with_gemini 5 env_delete_fails demo_video (Some demo_path)
                           world_with_sample) = Raise DeleteError /\
  fst (analyze_with_gemini 5 env_unlink_fails demo_video (Some demo_path)
                           world_with_sample) = Raise OSError /\
  (forall fuel,
     fst (analyze_with_gemini fuel env_stalled demo_video (Some demo_path)
                              world_with_sample) = Diverge) /\
  fst (analyze_with_gemini 5 env_answers_list demo_video (Some demo_path)
                           world_with_sample) = Ret (JArr []) /\
  well_formed_report (JArr []) = false.
Proof.
  split; [vm_compute; reflexivity|].
  split; [vm_compute; reflexivity|].
  split; [|split; [vm_compute; reflexivity|reflexivity]].
  intros fuel.
  destruct (analyze_with_gemini_run fuel env_stalled demo_video
              (Some demo_path) world_with_sample)
    as (rb & l & w1 & evs & Hbody & _ & _ & _ & Hdiv & _).
  assert (Hrb : rb = Diverge).
  { revert Hbody. unfold analyze_body. unfold bind at 1.
    rewrite sample_present_run.
    change (sample_exists (Some demo_path) world_with_sample) with true.
    cbv iota. unfold bind at 1. unfold bind at 1.
    unfold in_world at 1, genai_upload_file, bind at 1, emit. simpl.
    unfold bind at 1. unfold set_local at 1. simpl. unfold bind at 1.
    pose proof (poll_stalled fuel (mkFile demo_name PROCESSING)
                  (Some (mkFile demo_name PROCESSING))
                  (log (EUpload demo_path (Some (mkFile demo_name PROCESSING)))
                       world_with_sample) eq_refl) as Hp.
    destruct (poll fuel env_stalled _ _) as [rp sp]. simpl in Hp. subst rp.
    by intros [= <- _]. }
  by rewrite (Hdiv Hrb).
Qed.

(** ** The prompt *)

Section Digits.










End Digits.

(** ** Joining the tags *)






(** ** The lines of the prompt *)






Example build_prompt_demo :
  contains (lit "- Tiêu đề: Demo" ++ [10]) (build_prompt demo_video) = true /\
  contains (lit "- Mô tả: A demo video..." ++ [10]) (build_prompt demo_video)
  = true /\
  contains (lit "- Tags: a, b" ++ [10]) (build_prompt demo_video) = true /\
  contains (lit "- Lượt xem: 1,234,567" ++ [10]) (build_prompt demo_video)
  = true /\
  contains (lit "- Lượt thích: 89" ++ [10]) (build_prompt demo_video) = true.
Proof. repeat split; vm_compute; reflexivity. Qed.

(** ** Fallback result *)

(** C6. The fallback report has the structure of a genuine report: it
    is a well-formed report itself; under each of the six report keys
    it holds a value of the same JSON type as any well-formed report
    does; and its keys with their types are exactly those of the
    structure the prompt asks for, in the same order, with the [error]
    marker added in front.  Only the values differ. *)
Theorem fallback_has_report_shape :
  well_formed_report get_fallback_analysis = true /\
  (forall v, well_formed_report v = true ->
     forall k, k ∈ report_keys ->
       exists t, has_type v k t = true /\
                 has_type get_fallback_analysis k t = true) /\
  (exists sh,
     json_loads prompt_schema = Some schema_value /\
     shape schema_value = Some sh /\
     shape get_fallback_analysis = Some ((key "error", TString) :: sh)).
Proof.
  split; [vm_compute; reflexivity|]. split.
  - intros v Hv k Hk. unfold well_formed_report in Hv.
    repeat (apply andb_true_iff in Hv as [Hv ?]).
    unfold report_keys in Hk.
    repeat (apply elem_of_cons in Hk as [->|Hk]);
      [exists TNumber|exists TObject|exists TArray|exists TNumber
       |exists TArray|exists TArray|by apply elem_of_nil in Hk].
    all: split; [done|vm_compute; reflexivity].
  - eexists. split; [vm_compute; reflexivity|].
    split; vm_compute; reflexivity.
Qed.

(** Below the report's own keys the two differ: the fallback's [scores]
    is the empty object, where the structure asked for has the six
    categories. *)
Example fallback_scores_empty :
  dict_get (key "scores")
    match get_fallback_analysis with JObj kvs => kvs | _ => [] end
  = Some (JObj []).
Proof. reflexivity. Qed.

(** ** Fenced answers *)

Section Replace.

Variable old : pystr.
Hypothesis old_nonempty : old <> [].

Lemma strip_prefix_length (p s r : pystr) :
  strip_prefix p s = Some r -> (length p <= length s)%nat.
Proof.
  intros H%strip_prefix_app. subst. rewrite length_app. lia.
Qed.

Lemma starts_with_sep (p s t : pystr) (sep : N) :
  memb sep p = false ->
  starts_with p (s ++ sep :: t) = starts_with p s.
Proof.
  unfold starts_with. revert s.
  induction p as [|a p IH]; intros s Hsep; [by destruct s|].
  simpl in Hsep. apply orb_false_iff in Hsep as [Ha Hp].
  destruct s as [|b s]; simpl.
  - rewrite N.eqb_sym in Ha. by rewrite Ha.
  - destruct (a =? b); [by apply IH|done].
Qed.

Lemma starts_with_length (p s : pystr) :
  starts_with p s = true -> (length p <= length s)%nat.
Proof.
  unfold starts_with. destruct (strip_prefix p s) eqn:E; [|done].
  intros _. by eapply strip_prefix_length.
Qed.

Lemma starts_with_other (c : N) (s : pystr) :
  memb c old = false -> starts_with old (c :: s) = false.
Proof.
  destruct old as [|a p]; [done|]. simpl.
  intros [Ha _]%orb_false_iff. unfold starts_with. simpl.
  rewrite N.eqb_sym in Ha. by rewrite Ha.
Qed.

(** A character outside [old] splits the text: no occurrence spans
    it. *)
Lemma remove_from_sep (sep : N) (t : pystr) :
  memb sep old = false ->
  forall (s : pystr) (k : nat),
    (k <= length s)%nat ->
    remove_from old k (s ++ sep :: t)
    = remove_from old k s ++ sep :: remove_from old 0 t.
Proof.
  intros Hsep. induction s as [|c s IH]; intros k Hk; simpl in Hk.
  - assert (k = 0%nat) as -> by lia.
    change ([] ++ sep :: t) with (sep :: t).
    change (remove_from old 0 (sep :: t))
      with (if starts_with old (sep :: t)
            then remove_from old (Nat.pred (length old)) t
            else sep :: remove_from old 0 t).
    by rewrite starts_with_other.
  - destruct k as [|k].
    + change (remove_from old 0 ((c :: s) ++ sep :: t))
        with (if starts_with old ((c :: s) ++ sep :: t)
              then remove_from old (Nat.pred (length old)) (s ++ sep :: t)
              else c :: remove_from old 0 (s ++ sep :: t)).
      change (remove_from old 0 (c :: s))
        with (if starts_with old (c :: s)
              then remove_from old (Nat.pred (length old)) s
              else c :: remove_from old 0 s).
      rewrite starts_with_sep by done.
      destruct (starts_with old (c :: s)) eqn:E.
      * apply starts_with_length in E. simpl in E. apply IH. lia.
      * rewrite IH by lia. done.
    + simpl. apply IH. lia.
Qed.

Lemma remove_all_outside (w : pystr) :
  forallb (fun c => negb (memb c old)) w = true ->
  forall s, remove_all old (w ++ s) = w ++ remove_all old s.
Proof.
  unfold remove_all. induction w as [|c w IH]; intros Hw s; [done|].
  simpl in Hw. apply andb_true_iff in Hw as [Hc Hw].
  apply negb_true_iff in Hc.
  change (remove_from old 0 ((c :: w) ++ s))
    with (if starts_with old (c :: w ++ s)
          then remove_from old (Nat.pred (length old)) (w ++ s)
          else c :: remove_from old 0 (w ++ s)).
  rewrite starts_with_other by done. simpl. f_equal. by apply IH.
Qed.

Lemma remove_all_outside_end (w : pystr) :
  forallb (fun c => negb (memb c old)) w = true ->
  forall s, remove_all old (s ++ w) = remove_all old s ++ w.
Proof.
  intros Hw s. destruct w as [|c w]; [by rewrite !app_nil_r|].
  simpl in Hw. apply andb_true_iff in Hw as [Hc Hw].
  apply negb_true_iff in Hc.
  unfold remove_all. rewrite remove_from_sep by (done || lia).
  f_equal. f_equal.
  pose proof (remove_all_outside w Hw []) as H.
  unfold remove_all in H. by rewrite !app_nil_r in H.
Qed.

End Replace.

Lemma fence_json_nonempty : fence_json <> [].
Proof. discriminate. Qed.

Lemma fence_nonempty : fence <> [].
Proof. discriminate. Qed.

Lemma py_strip_fenced (tagged : bool) (c : pystr) :
  py_strip (fenced tagged c) = fenced tagged c.
Proof.
  unfold py_strip, rstrip.
  assert (Hl : lstrip (fenced tagged c) = fenced tagged c)
    by by destruct tagged.
  rewrite Hl. unfold fenced.
  rewrite !rev_app_distr. simpl rev at 1.
  change (lstrip ([96; 96; 96] ++ ?x)) with ([96; 96; 96] ++ x).
  rewrite !rev_app_distr.
  destruct tagged; simpl; by rewrite ?rev_involutive, <- ?app_assoc.
Qed.

(** Cleaning a fenced answer leaves the content, cleaned of any fence
    of its own, between two newlines. *)
Lemma clean_response_fenced (tagged : bool) (c : pystr) :
  clean_response (fenced tagged c)
  = [10] ++ remove_all fence (remove_all fence_json c) ++ [10].
Proof.
  unfold clean_response. rewrite py_strip_fenced.
  assert (H1 : remove_all fence_json (fenced tagged c)
               = (if tagged then [] else fence)
                 ++ 10 :: remove_all fence_json c ++ 10 :: fence).
  { unfold fenced, remove_all.
    pose proof (remove_from_sep fence_json fence_json_nonempty 10 fence
                  eq_refl c 0 ltac:(lia)) as G.
    change (remove_from fence_json 0 fence) with fence in G.
    destruct tagged; simpl; by rewrite G. }
  rewrite H1. unfold remove_all.
  pose proof (remove_from_sep fence fence_nonempty 10 fence eq_refl
                (remove_from fence_json 0 c) 0 ltac:(lia)) as G.
  change (remove_from fence 0 fence) with (@nil N) in G.
  destruct tagged; simpl; by rewrite G.
Qed.

(** ** [json.loads] and whitespace *)

Section TrailingWhitespace.

Variable w : pystr.
Hypothesis w_ws : forallb is_json_ws w = true.

(** What every scanner needs to know of [w]: it is empty or starts with
    a whitespace character. *)
Lemma w_head : w = [] \/ exists c w', w = c :: w' /\ is_json_ws c = true.
Proof.
  destruct w as [|c w']; [by left|right]. simpl in w_ws.
  apply andb_true_iff in w_ws as [? _]. eauto.
Qed.

Lemma json_ws_cases (c : N) :
  is_json_ws c = true -> c = 32 \/ c = 9 \/ c = 10 \/ c = 13.
Proof.
  unfold is_json_ws. rewrite !orb_true_iff, !N.eqb_eq. tauto.
Qed.

Lemma skip_ws_all (v : pystr) : forallb is_json_ws v = true -> skip_ws v = [].
Proof.
  induction v as [|c v IH]; simpl; [done|].
  intros [-> ?]%andb_true_iff. auto.
Qed.

Lemma skip_ws_app (s : pystr) :
  skip_ws (s ++ w) = match skip_ws s with [] => [] | t => t ++ w end.
Proof.
  induction s as [|c s IH]; simpl; [by apply skip_ws_all|].
  by destruct (is_json_ws c).
Qed.

Lemma strip_prefix_ws_head (p : pystr) :
  p <> [] -> forallb (fun c => negb (is_json_ws c)) p = true ->
  strip_prefix p w = None.
Proof.
  destruct p as [|a p]; [done|]. intros _ Hp. simpl in Hp.
  apply andb_true_iff in Hp as [Ha _]. apply negb_true_iff in Ha.
  destruct w_head as [->|(c & w' & -> & Hc)]; simpl; [done|].
  destruct (N.eqb_spec a c); [congruence|done].
Qed.

Lemma strip_prefix_ext (p s : pystr) :
  forallb (fun c => negb (is_json_ws c)) p = true ->
  strip_prefix p (s ++ w) = option_map (fun r => r ++ w) (strip_prefix p s).
Proof.
  revert s. induction p as [|a p IH]; intros s Hp; [done|].
  destruct s as [|b s].
  - simpl app. rewrite strip_prefix_ws_head; done.
  - simpl in *. apply andb_true_iff in Hp as [_ Hp].
    destruct (a =? b); [by apply IH|done].
Qed.

Lemma span_digit_ext (s : pystr) :
  span is_digit (s ++ w)
  = (fst (span is_digit s), snd (span is_digit s) ++ w).
Proof.
  induction s as [|c s IH]; simpl.
  - destruct w_head as [->|(c & w' & -> & Hc)]; simpl; [done|].
    by destruct (json_ws_cases c Hc) as [ -> | [ -> | [ -> | -> ] ] ].
  - destruct (is_digit c); [|done]. rewrite IH.
    by destruct (span is_digit s).
Qed.

Lemma ws_not_special (c : N) :
  is_json_ws c = true ->
  is_digit c = false /\ (c =? 48) = false /\ (c =? 46) = false /\
  (c =? 43) = false /\ (c =? 45) = false /\ (c =? 101) = false /\
  (c =? 69) = false /\ (c =? 34) = false /\ (c =? 123) = false /\
  (c =? 91) = false /\ (c =? 92) = false /\ (c =? 117) = false /\
  hexval c = None /\ unescape c = None.
Proof.
  intros Hc.
  by destruct (json_ws_cases c Hc) as [ -> | [ -> | [ -> | -> ] ] ].
Qed.

Lemma scan_int_ext (s : pystr) :
  scan_int (s ++ w)
  = option_map (fun x => (fst x, snd x ++ w)) (scan_int s).
Proof.
  destruct s as [|c r]; simpl.
  - destruct w_head as [->|(c & w' & -> & Hc)]; simpl; [done|].
    destruct (ws_not_special c Hc) as (-> & -> & _). done.
  - destruct (c =? 48); [done|]. destruct (is_digit c) eqn:E; [|done].
    pose proof (span_digit_ext (c :: r)) as H. simpl in H. rewrite E in H.
    simpl. by rewrite H.
Qed.

Lemma scan_frac_ext (s : pystr) :
  scan_frac (s ++ w) = (fst (scan_frac s), snd (scan_frac s) ++ w).
Proof.
  destruct s as [|d r]; simpl.
  - destruct w_head as [->|(c & w' & -> & Hc)]; simpl; [done|].
    destruct (ws_not_special c Hc) as (_ & _ & -> & _). done.
  - destruct (d =? 46); [|done]. rewrite span_digit_ext.
    by destruct (span is_digit r) as [[|x ds] b].
Qed.

Lemma scan_sign_ext (s : pystr) :
  s <> [] ->
  scan_sign (s ++ w) = (fst (scan_sign s), snd (scan_sign s) ++ w).
Proof.
  destruct s as [|c r]; [done|]. intros _. simpl.
  by destruct ((c =? 43) || (c =? 45)).
Qed.

Lemma scan_exp_ext (s : pystr) :
  scan_exp (s ++ w) = (fst (scan_exp s), snd (scan_exp s) ++ w).
Proof.
  destruct s as [|e r]; simpl.
  - destruct w_head as [->|(c & w' & -> & Hc)]; simpl; [done|].
    destruct (ws_not_special c Hc) as (_ & _ & _ & _ & _ & -> & -> & _).
    done.
  - destruct ((e =? 101) || (e =? 69)); [|done].
    destruct r as [|c r].
    + simpl. destruct w_head as [->|(c & w' & -> & Hc)]; simpl; [done|].
      destruct (ws_not_special c Hc) as (Hd & _ & _ & -> & -> & _).
      simpl. by rewrite Hd.
    + rewrite (scan_sign_ext (c :: r)) by done.
      destruct (scan_sign (c :: r)) as [sg r1]. simpl fst. simpl snd.
      rewrite span_digit_ext.
      by destruct (span is_digit r1) as [[|x ds] b].
Qed.

Lemma scan_unsigned_ext (neg : bool) (s : pystr) :
  scan_unsigned neg (s ++ w)
  = option_map (fun x => (fst x, snd x ++ w)) (scan_unsigned neg s).
Proof.
  unfold scan_unsigned. rewrite scan_int_ext.
  destruct (scan_int s) as [[ds r]|]; [|done]. simpl.
  rewrite scan_frac_ext. destruct (scan_frac r) as [fr r1]. simpl.
  rewrite scan_exp_ext. destruct (scan_exp r1) as [ex r2]. simpl.
  by destruct fr, ex.
Qed.

Lemma scan_number_ext (s : pystr) :
  scan_number (s ++ w)
  = option_map (fun x => (fst x, snd x ++ w)) (scan_number s).
Proof.
  destruct s as [|c r].
  - change (scan_number []) with (scan_unsigned false []).
    rewrite <- scan_unsigned_ext. simpl app.
    destruct w_head as [->|(c & w' & -> & Hc)]; [done|].
    destruct (ws_not_special c Hc) as (_ & _ & _ & _ & H45 & _).
    unfold scan_number. by rewrite H45.
  - change ((c :: r) ++ w) with (c :: r ++ w). unfold scan_number.
    destruct (c =? 45); [apply scan_unsigned_ext|].
    apply (scan_unsigned_ext false (c :: r)).
Qed.

Lemma starts_with_ext (p s : pystr) :
  forallb (fun c => negb (is_json_ws c)) p = true ->
  starts_with p (s ++ w) = starts_with p s.
Proof.
  intros Hp. unfold starts_with. rewrite strip_prefix_ext by done.
  by destruct (strip_prefix p s).
Qed.

Lemma hex4_ws (a b c d : N) :
  is_json_ws a = true \/ is_json_ws b = true \/
  is_json_ws c = true \/ is_json_ws d = true ->
  hex4 a b c d = None.
Proof.
  unfold hex4.
  intros [H|[H|[H|H]]];
    destruct (ws_not_special _ H) as (_&_&_&_&_&_&_&_&_&_&_&_& -> &_);
    by repeat case_match.
Qed.

Lemma hex4_at_ws (v : pystr) :
  forallb is_json_ws v = true -> forall (p : pystr),
  (length p < 4)%nat -> hex4_at (p ++ v) = None.
Proof.
  intros Hv p Hp. unfold hex4_at.
  destruct p as [|a [|b [|c [|d p]]]]; simpl in Hp; try lia; simpl.
  all: repeat (let x := fresh "x" in
               destruct v as [|x v]; [done|];
               simpl in Hv; apply andb_true_iff in Hv as [? Hv]).
  all: apply hex4_ws; auto.
Qed.

Lemma hex4_at_ext (s : pystr) : hex4_at (s ++ w) = hex4_at s.
Proof.
  destruct (decide (length s < 4)%nat) as [Hs|Hs].
  - rewrite hex4_at_ws by done.
    by destruct s as [|a [|b [|c [|d p]]]]; simpl in Hs; try lia.
  - by destruct s as [|a [|b [|c [|d p]]]]; simpl in Hs; try lia.
Qed.

Lemma hex4_at_length (s : pystr) (u : N) :
  hex4_at s = Some u -> (4 <= length s)%nat.
Proof.
  destruct s as [|a [|b [|c [|d p]]]]; simpl; try done. lia.
Qed.

Lemma scan_escape_ext (r : pystr) : scan_escape (r ++ w) = scan_escape r.
Proof.
  destruct r as [|e r1].
  - simpl app. destruct w_head as [->|(c & w' & -> & Hc)]; [done|].
    simpl.
    destruct (ws_not_special c Hc) as (_&_&_&_&_&_&_&_&_&_&_& -> &_& ->).
    done.
  - change ((e :: r1) ++ w) with (e :: r1 ++ w). unfold scan_escape.
    destruct (e =? 117); [|done].
    rewrite hex4_at_ext. destruct (hex4_at r1) as [u|] eqn:Hu; [|done].
    apply hex4_at_length in Hu.
    rewrite (drop_app_le r1 w 4) by done.
    rewrite starts_with_ext by done.
    destruct (is_high_surrogate u && starts_with [92; 117] (drop 4 r1))
      eqn:Hpair; [|done].
    apply andb_true_iff in Hpair as [_ Hsw].
    apply starts_with_length in Hsw. rewrite length_drop in Hsw.
    simpl in Hsw.
    rewrite (drop_app_le r1 w 6) by lia.
    by rewrite hex4_at_ext.
Qed.

Lemma scan_string_ws (v : pystr) :
  forallb is_json_ws v = true ->
  forall skip acc, scan_string skip v acc = PFail.
Proof.
  induction v as [|c v IH]; intros Hv skip acc; [done|].
  simpl in Hv. apply andb_true_iff in Hv as [Hc Hv]. simpl.
  destruct skip; [|by apply IH].
  destruct (json_ws_cases c Hc) as [ -> | [ -> | [ -> | -> ] ] ]; simpl;
    auto.
Qed.

Lemma scan_string_ext (s : pystr) :
  forall skip acc,
    scan_string skip (s ++ w) acc = with_rest w (scan_string skip s acc).
Proof.
  induction s as [|c s IH]; intros skip acc.
  - simpl. by rewrite scan_string_ws.
  - change ((c :: s) ++ w) with (c :: s ++ w). simpl.
    destruct skip; [|by apply IH].
    destruct (c =? 34); [done|].
    destruct (c =? 92).
    + rewrite scan_escape_ext.
      destruct (scan_escape s) as [[u n]|]; [apply IH|done].
    + destruct (c <? 32); [done|apply IH].
Qed.

Lemma scan_scalar_ext (s : pystr) :
  scan_scalar (s ++ w) = with_rest w (scan_scalar s).
Proof.
  unfold scan_scalar.
  rewrite !strip_prefix_ext by done. rewrite scan_number_ext.
  destruct (strip_prefix kw_null s); [done|].
  destruct (strip_prefix kw_true s); [done|].
  destruct (strip_prefix kw_false s); [done|].
  destruct (scan_number s) as [[v r]|]; [done|].
  destruct (strip_prefix kw_nan s); [done|].
  destruct (strip_prefix kw_inf s); [done|].
  by destruct (strip_prefix kw_neg_inf s).
Qed.

Lemma scan_empty (f : nat) :
  (scan_once f [] = PFail \/ scan_once f [] = PFuel) /\
  (forall acc, array_items f acc [] = PFail \/ array_items f acc [] = PFuel) /\
  (forall acc, object_items f acc [] = PFail \/ object_items f acc [] = PFuel).
Proof.
  destruct f as [|[|f]]; simpl; auto.
Qed.

Lemma with_rest_array_empty (f : nat) (acc : list json) :
  with_rest w (array_items f acc []) = array_items f acc [].
Proof.
  destruct (scan_empty f) as (_ & H & _). by destruct (H acc) as [->| ->].
Qed.

Lemma with_rest_object_empty (f : nat) (acc : list (pystr * json)) :
  with_rest w (object_items f acc []) = object_items f acc [].
Proof.
  destruct (scan_empty f) as (_ & _ & H). by destruct (H acc) as [->| ->].
Qed.

Lemma with_rest_scan_empty (f : nat) :
  with_rest w (scan_once f []) = scan_once f [].
Proof.
  destruct (scan_empty f) as (H & _). by destruct H as [->| ->].
Qed.

(** Whitespace added at the end of the text changes nothing but the
    unread rest. *)
Lemma scan_ext (f : nat) :
  (forall s, scan_once f (s ++ w) = with_rest w (scan_once f s)) /\
  (forall acc s,
     array_items f acc (s ++ w) = with_rest w (array_items f acc s)) /\
  (forall acc s,
     object_items f acc (s ++ w) = with_rest w (object_items f acc s)).
Proof.
  induction f as [|f (IHv & IHa & IHo)]; [done|].
  split; [|split].
  - intros [|c r].
    + simpl app. destruct w_head as [->|(c & w' & Hw & Hc)]; [done|].
      destruct (ws_not_special c Hc)
        as (_&_&_&_&_&_&_& H34 & H123 & H91 &_).
      pose proof (scan_scalar_ext []) as Hs. simpl app in Hs.
      rewrite Hw in *. simpl. by rewrite H34, H123, H91, Hs.
    + rewrite <- (app_comm_cons r w c). simpl.
      destruct (c =? 34).
      { rewrite scan_string_ext. by destruct (scan_string 0 r []). }
      destruct (c =? 123).
      { rewrite skip_ws_app. destruct (skip_ws r) as [|c1 r1]; [done|].
        rewrite <- (app_comm_cons r1 w c1).
        destruct (c1 =? 125); [done|]. apply (IHo [] (c1 :: r1)). }
      destruct (c =? 91).
      { rewrite skip_ws_app. destruct (skip_ws r) as [|c1 r1]; [done|].
        rewrite <- (app_comm_cons r1 w c1).
        destruct (c1 =? 93); [done|]. apply (IHa [] (c1 :: r1)). }
      apply (scan_scalar_ext (c :: r)).
  - intros acc s. simpl. rewrite IHv.
    destruct (scan_once f s) as [v r| |]; [|done|done]. simpl.
    rewrite skip_ws_app. destruct (skip_ws r) as [|c r1]; [done|].
    rewrite <- (app_comm_cons r1 w c).
    destruct (c =? 93); [done|]. destruct (c =? 44); [|done].
    rewrite skip_ws_app. destruct (skip_ws r1) as [|c2 r2].
    + by rewrite with_rest_array_empty.
    + apply IHa.
  - intros acc [|q r]; simpl.
    + destruct w_head as [->|(c & w' & Hw & Hc)]; [done|].
      destruct (ws_not_special c Hc) as (_&_&_&_&_&_&_& H34 &_).
      rewrite Hw. by rewrite H34.
    + destruct (q =? 34); [|done].
      rewrite scan_string_ext.
      destruct (scan_string 0 r []) as [k r1| |]; [|done|done]. simpl.
      rewrite skip_ws_app. destruct (skip_ws r1) as [|c1 r2]; [done|].
      rewrite <- (app_comm_cons r2 w c1).
      destruct (c1 =? 58); [|done].
      rewrite skip_ws_app.
      assert (Hv : scan_once f match skip_ws r2 with
                               | [] => []
                               | t => t ++ w
                               end
                   = with_rest w (scan_once f (skip_ws r2))).
      { destruct (skip_ws r2) as [|c2 r3];
          [by rewrite with_rest_scan_empty|apply IHv]. }
      rewrite Hv.
      destruct (scan_once f (skip_ws r2)) as [v r3| |]; [|done|done].
      simpl. rewrite skip_ws_app.
      destruct (skip_ws r3) as [|c3 r4]; [done|].
      rewrite <- (app_comm_cons r4 w c3).
      destruct (c3 =? 125); [done|]. destruct (c3 =? 44); [|done].
      rewrite skip_ws_app. destruct (skip_ws r4) as [|c4 r5].
      * by rewrite with_rest_object_empty.
      * apply IHo.
Qed.
End TrailingWhitespace.

Section ScannerProgress.

Lemma skip_ws_length (s : pystr) : (length (skip_ws s) <= length s)%nat.
Proof.
  induction s as [|c s IH]; simpl; [done|].
  destruct (is_json_ws c); simpl; lia.
Qed.

Lemma span_length (f : N -> bool) (s : pystr) :
  (length (snd (span f s)) <= length s)%nat.
Proof.
  induction s as [|c s IH]; simpl; [done|].
  destruct (f c); [|simpl; lia]. destruct (span f s); simpl in *. lia.
Qed.

Lemma scan_string_length (s : pystr) :
  forall skip acc k r,
    scan_string skip s acc = POk k r -> (length r < length s)%nat.
Proof.
  induction s as [|c s IH]; intros skip acc k r; simpl; [done|].
  destruct skip as [|n]; [|intros H%IH; lia].
  destruct (c =? 34); [intros [= _ <-]; lia|].
  destruct (c =? 92).
  - destruct (scan_escape s) as [[u n]|]; [intros H%IH; lia|done].
  - destruct (c <? 32); [done|intros H%IH; lia].
Qed.

Lemma scan_string_no_fuel (s : pystr) :
  forall skip acc, scan_string skip s acc <> PFuel.
Proof.
  induction s as [|c s IH]; intros skip acc; simpl; [done|].
  destruct skip as [|n]; [|apply IH].
  destruct (c =? 34); [done|].
  destruct (c =? 92).
  - destruct (scan_escape s) as [[u n]|]; [apply IH|done].
  - destruct (c <? 32); [done|apply IH].
Qed.

Lemma keyword_length (p s r : pystr) :
  p <> [] -> strip_prefix p s = Some r -> (length r < length s)%nat.
Proof.
  intros Hp H%strip_prefix_app. subst. rewrite length_app.
  destruct p; [done|simpl; lia].
Qed.

Lemma scan_int_length (s ds r : pystr) :
  scan_int s = Some (ds, r) -> (length r < length s)%nat.
Proof.
  destruct s as [|c s]; simpl; [done|].
  destruct (c =? 48); [intros [= _ <-]; lia|].
  destruct (is_digit c); [|done].
  pose proof (span_length is_digit s).
  destruct (span is_digit s) as [a b]. intros [= _ <-]. simpl in *. lia.
Qed.

Lemma scan_frac_length (s : pystr) :
  (length (snd (scan_frac s)) <= length s)%nat.
Proof.
  destruct s as [|d s]; simpl; [done|].
  destruct (d =? 46); [|simpl; lia].
  pose proof (span_length is_digit s).
  destruct (span is_digit s) as [[|x a] b]; simpl in *; lia.
Qed.

Lemma scan_exp_length (s : pystr) :
  (length (snd (scan_exp s)) <= length s)%nat.
Proof.
  destruct s as [|e s]; simpl; [done|].
  destruct ((e =? 101) || (e =? 69)); [|simpl; lia].
  assert (Hs : (length (snd (scan_sign s)) <= length s)%nat).
  { destruct s as [|c s]; simpl; [done|].
    destruct ((c =? 43) || (c =? 45)); simpl; lia. }
  destruct (scan_sign s) as [sg r1]. simpl in Hs.
  pose proof (span_length is_digit r1).
  destruct (span is_digit r1) as [[|x a] b]; simpl in *; lia.
Qed.

Lemma scan_unsigned_length (neg : bool) (s : pystr) (v : json) (r : pystr) :
  scan_unsigned neg s = Some (v, r) -> (length r < length s)%nat.
Proof.
  unfold scan_unsigned.
  destruct (scan_int s) as [[ds r0]|] eqn:E; [|done].
  apply scan_int_length in E.
  pose proof (scan_frac_length r0).
  destruct (scan_frac r0) as [fr r1].
  pose proof (scan_exp_length r1).
  destruct (scan_exp r1) as [ex r2]. simpl in *.
  destruct fr, ex; intros [= _ <-]; lia.
Qed.

Lemma scan_number_length (s : pystr) (v : json) (r : pystr) :
  scan_number s = Some (v, r) -> (length r < length s)%nat.
Proof.
  unfold scan_number. destruct s as [|c s].
  - apply scan_unsigned_length.
  - destruct (c =? 45); intros H%scan_unsigned_length; simpl in *; lia.
Qed.

Lemma scan_scalar_length (s : pystr) (v : json) (r : pystr) :
  scan_scalar s = POk v r -> (length r < length s)%nat.
Proof.
  unfold scan_scalar.
  destruct (strip_prefix kw_null s) eqn:E1;
    [intros [= _ <-]; by eapply keyword_length; [|apply E1]|].
  destruct (strip_prefix kw_true s) eqn:E2;
    [intros [= _ <-]; by eapply keyword_length; [|apply E2]|].
  destruct (strip_prefix kw_false s) eqn:E3;
    [intros [= _ <-]; by eapply keyword_length; [|apply E3]|].
  destruct (scan_number s) as [[v0 r0]|] eqn:E4;
    [intros [= _ <-]; by eapply scan_number_length|].
  destruct (strip_prefix kw_nan s) eqn:E5;
    [intros [= _ <-]; by eapply keyword_length; [|apply E5]|].
  destruct (strip_prefix kw_inf s) eqn:E6;
    [intros [= _ <-]; by eapply keyword_length; [|apply E6]|].
  destruct (strip_prefix kw_neg_inf s) eqn:E7;
    [intros [= _ <-]; by eapply keyword_length; [|apply E7]|done].
Qed.

End ScannerProgress.

Section Fuel.

Lemma scan_once_S (f : nat) (s : pystr) :
  scan_once (S f) s
  = match s with
    | [] => PFail
    | c :: r =>
      if c =? 34 then pbind (scan_string 0 r []) (fun k r' => POk (JStr k) r')
      else if c =? 123 then
        match skip_ws r with
        | c1 :: r1 =>
          if c1 =? 125 then POk (JObj []) r1
          else object_items f [] (c1 :: r1)
        | [] => PFail
        end
      else if c =? 91 then
        match skip_ws r with
        | c1 :: r1 =>
          if c1 =? 93 then POk (JArr []) r1
          else array_items f [] (c1 :: r1)
        | [] => PFail
        end
      else scan_scalar s
    end.
Proof. reflexivity. Qed.

Lemma array_items_S (f : nat) (acc : list json) (s : pystr) :
  array_items (S f) acc s
  = pbind (scan_once f s) (fun v r =>
      match skip_ws r with
      | c :: r1 =>
        if c =? 93 then POk (JArr (rev (v :: acc))) r1
        else if c =? 44 then array_items f (v :: acc) (skip_ws r1)
        else PFail
      | [] => PFail
      end).
Proof. reflexivity. Qed.

Lemma object_items_S (f : nat) (acc : list (pystr * json)) (s : pystr) :
  object_items (S f) acc s
  = match s with
    | [] => PFail
    | q :: r =>
      if q =? 34 then
        pbind (scan_string 0 r []) (fun k r1 =>
          match skip_ws r1 with
          | c1 :: r2 =>
            if c1 =? 58 then
              pbind (scan_once f (skip_ws r2)) (fun v r3 =>
                match skip_ws r3 with
                | c2 :: r4 =>
                  if c2 =? 125
                  then POk (JObj (dict_of (rev ((k, v) :: acc)))) r4
                  else if c2 =? 44
                  then object_items f ((k, v) :: acc) (skip_ws r4)
                  else PFail
                | [] => PFail
                end)
            else PFail
          | [] => PFail
          end)
      else PFail
    end.
Proof. reflexivity. Qed.

(** A successful scan consumes at least one character. *)
Lemma scan_length (f : nat) :
  (forall s v r, scan_once f s = POk v r -> (length r < length s)%nat) /\
  (forall acc s v r,
     array_items f acc s = POk v r -> (length r < length s)%nat) /\
  (forall acc s v r,
     object_items f acc s = POk v r -> (length r < length s)%nat).
Proof.
  induction f as [|f (IHv & IHa & IHo)]; [done|].
  split; [|split].
  - intros s v r. rewrite scan_once_S. destruct s as [|c s]; [done|].
    destruct (c =? 34).
    { destruct (scan_string 0 s []) as [k r'| |] eqn:E; [|done|done].
      apply scan_string_length in E. simpl. intros [= _ <-]. lia. }
    pose proof (skip_ws_length s) as Hs.
    destruct (c =? 123).
    { destruct (skip_ws s) as [|c1 r1]; [done|]. simpl in Hs.
      destruct (c1 =? 125); [intros [= _ <-]; simpl; lia|].
      intros H%IHo. simpl in *. lia. }
    destruct (c =? 91).
    { destruct (skip_ws s) as [|c1 r1]; [done|]. simpl in Hs.
      destruct (c1 =? 93); [intros [= _ <-]; simpl; lia|].
      intros H%IHa. simpl in *. lia. }
    apply scan_scalar_length.
  - intros acc s v r. rewrite array_items_S.
    destruct (scan_once f s) as [v0 r0| |] eqn:E; [|done|done].
    apply IHv in E. simpl.
    pose proof (skip_ws_length r0) as Hs.
    destruct (skip_ws r0) as [|c r1]; [done|]. simpl in Hs.
    destruct (c =? 93); [intros [= _ <-]; lia|].
    destruct (c =? 44); [|done].
    pose proof (skip_ws_length r1). intros H'%IHa. lia.
  - intros acc s v r. rewrite object_items_S. destruct s as [|q s]; [done|].
    destruct (q =? 34); [|done].
    destruct (scan_string 0 s []) as [k r1| |] eqn:E; [|done|done].
    apply scan_string_length in E. simpl.
    pose proof (skip_ws_length r1) as Hs1.
    destruct (skip_ws r1) as [|c1 r2]; [done|]. simpl in Hs1.
    destruct (c1 =? 58); [|done].
    pose proof (skip_ws_length r2) as Hs2.
    destruct (scan_once f (skip_ws r2)) as [v0 r3| |] eqn:E2; [|done|done].
    apply IHv in E2. simpl.
    pose proof (skip_ws_length r3) as Hs3.
    destruct (skip_ws r3) as [|c2 r4]; [done|]. simpl in Hs3.
    destruct (c2 =? 125); [intros [= _ <-]; lia|].
    destruct (c2 =? 44); [|done].
    pose proof (skip_ws_length r4). intros H'%IHo. lia.
Qed.

(** More fuel does not change an outcome that did not need it. *)
Lemma scan_fuel_mono (f : nat) :
  (forall s, scan_once f s <> PFuel -> scan_once (S f) s = scan_once f s) /\
  (forall acc s,
     array_items f acc s <> PFuel ->
     array_items (S f) acc s = array_items f acc s) /\
  (forall acc s,
     object_items f acc s <> PFuel ->
     object_items (S f) acc s = object_items f acc s).
Proof.
  induction f as [|f (IHv & IHa & IHo)]; [done|].
  split; [|split].
  - intros s. rewrite (scan_once_S (S f) s), (scan_once_S f s).
    destruct s as [|c s]; [done|].
    destruct (c =? 34); [done|].
    destruct (c =? 123).
    { destruct (skip_ws s) as [|c1 r1]; [done|].
      destruct (c1 =? 125); [done|apply IHo]. }
    destruct (c =? 91); [|done].
    destruct (skip_ws s) as [|c1 r1]; [done|].
    destruct (c1 =? 93); [done|apply IHa].
  - intros acc s.
    rewrite (array_items_S (S f) acc s), (array_items_S f acc s).
    destruct (scan_once f s) as [v0 r0| |] eqn:E; [| |done].
    + rewrite IHv by (rewrite E; done). rewrite E. cbn [pbind].
      destruct (skip_ws r0) as [|c r1]; [done|].
      destruct (c =? 93); [done|]. destruct (c =? 44); [apply IHa|done].
    + rewrite IHv by (rewrite E; done). by rewrite E.
  - intros acc s.
    rewrite (object_items_S (S f) acc s), (object_items_S f acc s).
    destruct s as [|q s]; [done|]. destruct (q =? 34); [|done].
    destruct (scan_string 0 s []) as [k r1| |]; [|done|done]. cbn [pbind].
    destruct (skip_ws r1) as [|c1 r2]; [done|].
    destruct (c1 =? 58); [|done].
    destruct (scan_once f (skip_ws r2)) as [v0 r3| |] eqn:E; [| |done].
    + rewrite IHv by (rewrite E; done). rewrite E. cbn [pbind].
      destruct (skip_ws r3) as [|c2 r4]; [done|].
      destruct (c2 =? 125); [done|]. destruct (c2 =? 44); [apply IHo|done].
    + rewrite IHv by (rewrite E; done). by rewrite E.
Qed.

(** Fuel in proportion to the text is never used up. *)
Lemma scan_fuel_enough (f : nat) :
  (forall s, (2 * length s + 1 <= f)%nat -> scan_once f s <> PFuel) /\
  (forall acc s,
     (2 * length s + 2 <= f)%nat -> array_items f acc s <> PFuel) /\
  (forall acc s,
     (2 * length s + 1 <= f)%nat -> object_items f acc s <> PFuel).
Proof.
  induction f as [|f (IHv & IHa & IHo)].
  { repeat split; intros; lia. }
  split; [|split].
  - intros s Hf. rewrite scan_once_S. destruct s as [|c s]; [done|].
    simpl in Hf.
    destruct (c =? 34).
    { pose proof (scan_string_no_fuel s 0%nat []).
      by destruct (scan_string 0 s []). }
    pose proof (skip_ws_length s) as Hs.
    destruct (c =? 123).
    { destruct (skip_ws s) as [|c1 r1]; [done|]. simpl in Hs.
      destruct (c1 =? 125); [done|]. apply IHo. simpl. lia. }
    destruct (c =? 91).
    { destruct (skip_ws s) as [|c1 r1]; [done|]. simpl in Hs.
      destruct (c1 =? 93); [done|]. apply IHa. simpl. lia. }
    unfold scan_scalar. by repeat case_match.
  - intros acc s Hf. rewrite array_items_S.
    pose proof (IHv s ltac:(lia)) as Hv.
    destruct (scan_once f s) as [v0 r0| |] eqn:E; [|done|done].
    destruct (scan_length f) as (Hl & _ & _). apply Hl in E. simpl.
    pose proof (skip_ws_length r0) as Hs.
    destruct (skip_ws r0) as [|c r1]; [done|]. simpl in Hs.
    destruct (c =? 93); [done|]. destruct (c =? 44); [|done].
    pose proof (skip_ws_length r1). apply IHa. lia.
  - intros acc s Hf. rewrite object_items_S. destruct s as [|q s]; [done|].
    simpl in Hf. destruct (q =? 34); [|done].
    pose proof (scan_string_no_fuel s 0%nat []).
    destruct (scan_string 0 s []) as [k r1| |] eqn:E; [|done|done].
    apply scan_string_length in E. simpl.
    pose proof (skip_ws_length r1) as Hs1.
    destruct (skip_ws r1) as [|c1 r2]; [done|]. simpl in Hs1.
    destruct (c1 =? 58); [|done].
    pose proof (skip_ws_length r2) as Hs2.
    pose proof (IHv (skip_ws r2) ltac:(lia)) as Hv.
    destruct (scan_once f (skip_ws r2)) as [v0 r3| |] eqn:E2; [|done|done].
    destruct (scan_length f) as (Hl & _ & _). apply Hl in E2. simpl.
    pose proof (skip_ws_length r3) as Hs3.
    destruct (skip_ws r3) as [|c2 r4]; [done|]. simpl in Hs3.
    destruct (c2 =? 125); [done|]. destruct (c2 =? 44); [|done].
    pose proof (skip_ws_length r4). apply IHo. lia.
Qed.

Lemma scan_once_fuel (f1 f2 : nat) (s : pystr) :
  (2 * length s + 1 <= f1)%nat -> (f1 <= f2)%nat ->
  scan_once f2 s = scan_once f1 s.
Proof.
  intros H1 H2. induction H2 as [|f2 H2 IH]; [done|].
  destruct (scan_fuel_mono f2) as (Hm & _ & _).
  rewrite Hm; [done|].
  destruct (scan_fuel_enough f2) as (He & _ & _). apply He. lia.
Qed.

End Fuel.

Lemma skip_ws_prefix (a y : pystr) :
  forallb is_json_ws a = true -> skip_ws (a ++ y) = skip_ws y.
Proof.
  induction a as [|c a IH]; simpl; [done|].
  intros [-> ?]%andb_true_iff. auto.
Qed.

(** [json.loads] does not see JSON whitespace around the text. *)
Lemma json_loads_ws (a s b : pystr) :
  forallb is_json_ws a = true -> forallb is_json_ws b = true ->
  json_loads (a ++ s ++ b) = json_loads s.
Proof.
  intros Ha Hb. unfold json_loads.
  rewrite skip_ws_prefix, (skip_ws_app b Hb) by done.
  pose proof (skip_ws_length s) as Hlen.
  destruct (skip_ws s) as [|c t] eqn:Hs.
  - unfold loads_fuel. rewrite !Nat.add_succ_r. by rewrite !scan_once_S.
  - destruct (scan_ext b Hb (loads_fuel (a ++ s ++ b))) as (Hext & _ & _).
    rewrite Hext.
    assert (Hfuel : scan_once (loads_fuel (a ++ s ++ b)) (c :: t)
                    = scan_once (loads_fuel s) (c :: t)).
    { rewrite (scan_once_fuel (2 * length (c :: t) + 1)
                 (loads_fuel (a ++ s ++ b))),
              (scan_once_fuel (2 * length (c :: t) + 1) (loads_fuel s));
        unfold loads_fuel; rewrite ?length_app; try lia. done. }
    rewrite Hfuel.
    destruct (scan_once (loads_fuel s) (c :: t)) as [v r| |]; [|done|done].
    simpl. rewrite (skip_ws_app b Hb).
    destruct (skip_ws r) as [|x u]; [done|]. done.
Qed.

(** The fuel [json_loads] gives its scanner is never used up. *)
Lemma scan_once_fuel_loads (s : pystr) :
  scan_once (loads_fuel s) (skip_ws s) <> PFuel.
Proof.
  destruct (scan_fuel_enough (loads_fuel s)) as (H & _ & _). apply H.
  pose proof (skip_ws_length s). unfold loads_fuel. lia.
Qed.

Lemma lstrip_span (s : pystr) : lstrip s = snd (span is_py_space s).
Proof.
  induction s as [|c s IH]; simpl; [done|].
  destruct (is_py_space c); [|done]. rewrite IH. by destruct (span is_py_space s).
Qed.

(** A text is what [strip()] removes at the left, what it keeps, and what
    it removes at the right. *)
Lemma strip_decompose (c : pystr) :
  c = stripped_left c ++ py_strip c ++ stripped_right c.
Proof.
  unfold stripped_left, stripped_right, py_strip, rstrip.
  rewrite (span_app is_py_space c) at 1. rewrite <- lstrip_span. f_equal.
  rewrite <- (rev_involutive (lstrip c)) at 1.
  rewrite (span_app is_py_space (rev (lstrip c))) at 1.
  by rewrite rev_app_distr, <- lstrip_span.
Qed.

Lemma json_ws_outside_fences (v : pystr) :
  forallb is_json_ws v = true ->
  forallb (fun c => negb (memb c fence_json)) v = true /\
  forallb (fun c => negb (memb c fence)) v = true.
Proof.
  induction v as [|c v IH]; [done|]. cbn [forallb].
  intros [Hc Hv]%andb_true_iff. destruct (IH Hv) as [-> ->].
  by destruct (json_ws_cases c Hc) as [ -> | [ -> | [ -> | -> ] ] ].
Qed.

Lemma remove_fences_margins (a m b : pystr) :
  forallb is_json_ws a = true -> forallb is_json_ws b = true ->
  remove_all fence (remove_all fence_json (a ++ m ++ b))
  = a ++ remove_all fence (remove_all fence_json m) ++ b.
Proof.
  intros [Ha1 Ha2]%json_ws_outside_fences [Hb1 Hb2]%json_ws_outside_fences.
  rewrite (remove_all_outside fence_json fence_json_nonempty a Ha1).
  rewrite (remove_all_outside_end fence_json fence_json_nonempty b Hb1).
  rewrite (remove_all_outside fence fence_nonempty a Ha2).
  by rewrite (remove_all_outside_end fence fence_nonempty b Hb2).
Qed.

Lemma lstrip_spaces (pre y : pystr) :
  forallb is_py_space pre = true -> lstrip (pre ++ y) = lstrip y.
Proof.
  induction pre as [|c pre IH]; simpl; [done|].
  intros [-> ?]%andb_true_iff. auto.
Qed.

Lemma lstrip_app_spaces (x post : pystr) :
  forallb is_py_space post = true ->
  lstrip (x ++ post) = match lstrip x with [] => [] | y => y ++ post end.
Proof.
  intros Hpost. induction x as [|c x IH]; simpl.
  - rewrite <- (app_nil_r post). by rewrite lstrip_spaces.
  - by destruct (is_py_space c).
Qed.

Lemma forallb_reverse (f : N -> bool) (l : pystr) :
  forallb f (rev l) = forallb f l.
Proof.
  induction l as [|c l IH]; simpl; [done|].
  rewrite forallb_app, IH. simpl. rewrite andb_true_r. apply andb_comm.
Qed.

Lemma rstrip_spaces (y post : pystr) :
  forallb is_py_space post = true -> rstrip (y ++ post) = rstrip y.
Proof.
  intros Hpost. unfold rstrip. rewrite rev_app_distr, lstrip_spaces; [done|].
  by rewrite forallb_reverse.
Qed.

(** Whitespace around an answer is stripped before anything else. *)
Lemma clean_response_padded (pre text post : pystr) :
  forallb is_py_space pre = true -> forallb is_py_space post = true ->
  clean_response (pre ++ text ++ post) = clean_response text.
Proof.
  intros Hpre Hpost. unfold clean_response, py_strip.
  rewrite lstrip_spaces, lstrip_app_spaces by done.
  destruct (lstrip text) as [|c y]; [done|]. by rewrite rstrip_spaces.
Qed.

(** C7, as the code has it. When the whitespace [strip()] would remove
    around the content is whitespace for JSON as well, the content
    parses the same with and without a Markdown fence around it, be the
    fence tagged [json] or not, and whatever whitespace surrounds the
    fenced answer; and an answer that does not parse makes the call
    return the fallback report. *)
Theorem fenced_answer_parses_alike (tagged : bool) (c : pystr) :
  json_margins c = true ->
  parse_response (fenced tagged c) = parse_response c /\
  (forall pre post,
     forallb is_py_space pre = true -> forallb is_py_space post = true ->
     parse_response (pre ++ fenced tagged c ++ post) = parse_response c) /\
  (forall fuel env vi w text,
     env_generate env (build_prompt vi) None = Some text ->
     parse_response text = None ->
     fst (analyze_with_gemini fuel env vi None w) = Ret get_fallback_analysis).
Proof.
  intros [Hl Hr]%andb_true_iff.
  assert (Hmain : parse_response (fenced tagged c) = parse_response c).
  2: { split; [done|]. split.
       - intros pre post Hpre Hpost. rewrite <- Hmain. unfold parse_response.
         by rewrite clean_response_padded.
       - intros fuel env vi w text Hgen Hparse.
         rewrite analyze_with_gemini_no_sample, Hgen. simpl.
         unfold parse_response in Hparse. by rewrite Hparse. }
  - unfold parse_response. rewrite clean_response_fenced.
    unfold clean_response.
    set (m := py_strip c).
    rewrite (strip_decompose c) at 1. fold m.
    rewrite remove_fences_margins by done.
    set (x := remove_all fence (remove_all fence_json m)).
    replace ([10] ++ (stripped_left c ++ x ++ stripped_right c) ++ [10])
      with (([10] ++ stripped_left c) ++ x ++ (stripped_right c ++ [10]))
      by (by rewrite <- !app_assoc).
    apply json_loads_ws.
    + by simpl; rewrite Hl.
    + rewrite forallb_app, Hr. done.
Qed.

Lemma fenced_answer_parses_alike_witness :
  json_margins (10 :: lit "[1, 2]  ") = true /\
  parse_response (10 :: lit "[1, 2]  ") = Some (JArr [JInt 1; JInt 2]) /\
  parse_response (fenced true (10 :: lit "[1, 2]  "))
  = parse_response (10 :: lit "[1, 2]  ").
Proof.
  split; [reflexivity|]. split; [reflexivity|].
  apply (fenced_answer_parses_alike true (10 :: lit "[1, 2]  ")).
  reflexivity.
Defined.

(** The claim as stated fails: for content that starts with a form
    feed, the bare answer parses (the form feed is stripped) and the
    fenced one does not (the form feed stays, and JSON rejects it). *)
Lemma fence_can_change_the_parse :
  parse_response form_feed_content = Some (JObj []) /\
  parse_response (fenced true form_feed_content) = None.
Proof. split; vm_compute; reflexivity. Qed.

(** * Further properties *)

(** ** Identifier extractor *)

Lemma span_exact (f : N -> bool) (g rest : pystr) :
  forallb f g = true ->
  match rest with [] => True | c :: _ => f c = false end ->
  span f (g ++ rest) = (g, rest).
Proof.
  intros Hg Hrest. induction g as [|c g IH]; simpl.
  - destruct rest as [|c rest]; [done|]. simpl. by rewrite Hrest.
  - simpl in Hg. apply andb_true_iff in Hg as [-> Hg]. by rewrite IH.
Qed.

Lemma match_alts_other_head (ls : list pystr) (cs : list N) (a c : N)
    (s : pystr) :
  Forall (fun l => exists l', l = a :: l') ls -> (c =? a) = false ->
  match_alts ls cs (c :: s) = None.
Proof.
  intros Hls Hc. induction Hls as [|l ls [l' ->] _ IH]; [done|].
  cbn [match_alts strip_prefix]. rewrite N.eqb_sym in Hc. by rewrite Hc.
Qed.

Lemma match_at_not_y (p : pattern) (c : N) (s : pystr) :
  p ∈ patterns -> (c =? 121) = false -> match_at p (c :: s) = None.
Proof.
  intros Hp Hc. unfold patterns in Hp.
  repeat (apply elem_of_cons in Hp as [->|Hp]);
    [| |by apply elem_of_nil in Hp].
  all: unfold match_at; apply (match_alts_other_head _ _ 121); [|done].
  all: repeat constructor; by eexists.
Qed.

Lemma re_search_not_y (p : pattern) (c : N) (s : pystr) :
  p ∈ patterns -> (c =? 121) = false ->
  re_search p (c :: s) = re_search p s.
Proof.
  intros Hp Hc. simpl. by rewrite match_at_not_y.
Qed.

Lemma re_search_no_y (p : pattern) (pre s : pystr) :
  p ∈ patterns -> no_y pre = true -> re_search p (pre ++ s) = re_search p s.
Proof.
  intros Hp. induction pre as [|c pre IH]; [done|]. simpl no_y.
  intros [Hc Hpre]%andb_true_iff. apply negb_true_iff in Hc.
  rewrite <- app_comm_cons, re_search_not_y by done. auto.
Qed.

Lemma first_pattern_in : first_pattern ∈ patterns.
Proof. apply elem_of_cons. by left. Qed.

Lemma second_pattern_in : second_pattern ∈ patterns.
Proof. apply elem_of_cons. right. apply elem_of_cons. by left. Qed.

Lemma re_search_here (p : pattern) (s g : pystr) :
  match_at p s = Some g -> re_search p s = Some g.
Proof. intros H. destruct s; simpl; by rewrite H. Qed.

Lemma capture_here (l g rest : pystr) (ls : list pystr) :
  is_id g = true -> ends_id rest = true ->
  match_alts (l :: ls) id_stop (l ++ g ++ rest) = Some g.
Proof.
  intros Hg Hrest. cbn [match_alts]. rewrite strip_prefix_self.
  destruct g as [|c g]; [done|].
  rewrite (span_exact (fun c => negb (memb c id_stop)) (c :: g) rest).
  - done.
  - exact Hg.
  - destruct rest as [|x rest]; [done|]. simpl in Hrest.
    by apply negb_false_iff.
Qed.

Lemma match_alts_skip (l : pystr) (ls : list pystr) (cs : list N) (s : pystr) :
  strip_prefix l s = None -> match_alts (l :: ls) cs s = match_alts ls cs s.
Proof. intros H. cbn [match_alts]. by rewrite H. Qed.

(** X1. Whatever [extract_video_id] returns is a usable id: it is not
    empty, it has none of the characters [&], newline, [?] and [#], and
    it is a piece of the URL that runs up to the next such character or
    to the end of the URL. *)
Theorem extracted_id_wellformed (url g : pystr) :
  extract_video_id url = Some g ->
  is_id g = true /\
  exists pre rest, url = pre ++ g ++ rest /\ ends_id rest = true.
Proof.
  intros Hg. unfold extract_video_id in Hg.
  pose proof (first_match_spec patterns url) as H. rewrite Hg in H.
  destruct H as (i & p & Hi & Hp & _).
  assert (Hstop : excluded p = id_stop).
  { destruct i as [|[|i]]; simpl in Hi; [by injection Hi as <-..|done]. }
  apply re_search_sound in Hp as (pre & l & rest & -> & _ & Hne & Hall & Hrest).
  rewrite Hstop in *. split.
  - destruct g; [done|exact Hall].
  - exists (pre ++ l), rest. split; [by rewrite <- app_assoc|].
    by destruct rest.
Qed.

Lemma extracted_id_wellformed_witness :
  is_id (lit "abc123") = true /\
  exists pre rest,
    lit "https://youtu.be/abc123?t=5" = pre ++ lit "abc123" ++ rest /\
    ends_id rest = true.
Proof.
  apply (extracted_id_wellformed (lit "https://youtu.be/abc123?t=5")).
  reflexivity.
Defined.

(** X2. Building a URL from an id and reading the id back: after any
    text without the letter [y] (a scheme and a host prefix such as
    [https://www.]), each of the forms [youtube.com/watch?v=],
    [youtu.be/] and [youtube.com/embed/] followed by an id gives that
    id back, whatever follows the id from its first separator on. *)
Theorem extract_video_id_round_trip (pre l g rest : pystr) :
  no_y pre = true -> l ∈ alts first_pattern ->
  is_id g = true -> ends_id rest = true ->
  extract_video_id (pre ++ l ++ g ++ rest) = Some g.
Proof.
  intros Hpre Hl Hg Hrest. unfold extract_video_id, patterns.
  cbn [first_match].
  change (Pattern [lit "youtube.com/watch?v="; lit "youtu.be/";
                   lit "youtube.com/embed/"] id_stop) with first_pattern.
  rewrite (re_search_no_y first_pattern pre) by (done || apply first_pattern_in).
  assert (Hm : match_at first_pattern (l ++ g ++ rest) = Some g).
  { unfold match_at. unfold first_pattern in *. cbn [alts excluded] in *.
    repeat (apply elem_of_cons in Hl as [->|Hl]);
      [| | |by apply elem_of_nil in Hl].
    - by apply capture_here.
    - rewrite match_alts_skip by reflexivity. by apply capture_here.
    - rewrite !match_alts_skip by reflexivity. by apply capture_here. }
  by rewrite (re_search_here _ _ _ Hm).
Qed.

Lemma extract_video_id_round_trip_witness :
  extract_video_id
    (lit "https://www." ++ lit "youtube.com/watch?v=" ++ lit "dQw4w9WgXcQ"
       ++ lit "&t=42")
  = Some (lit "dQw4w9WgXcQ").
Proof.
  apply (extract_video_id_round_trip (lit "https://www.")
           (lit "youtube.com/watch?v=") (lit "dQw4w9WgXcQ") (lit "&t=42")).
  - reflexivity.
  - vm_compute. apply elem_of_cons. by left.
  - reflexivity.
  - reflexivity.
Defined.

Lemma re_search_next (p : pattern) (c : N) (s : pystr) :
  match_at p (c :: s) = None -> re_search p (c :: s) = re_search p s.
Proof. intros H. simpl. by rewrite H. Qed.

(** X3. The [/v/] form, and the priority of the first pattern on it:
    after any text without the letter [y], [youtube.com/v/] followed by
    an id gives that id back, unless the first pattern matches somewhere
    in the id or after it, in which case the capture of the first
    pattern is returned instead. *)
Theorem extract_video_id_v_form (pre g rest : pystr) :
  no_y pre = true -> is_id g = true -> ends_id rest = true ->
  extract_video_id (pre ++ v_form ++ g ++ rest)
  = match re_search first_pattern (g ++ rest) with
    | Some h => Some h
    | None => Some g
    end.
Proof.
  intros Hpre Hg Hrest. unfold extract_video_id, patterns.
  cbn [first_match].
  change (Pattern [lit "youtube.com/watch?v="; lit "youtu.be/";
                   lit "youtube.com/embed/"] id_stop) with first_pattern.
  change (Pattern [lit "youtube.com/v/"] id_stop) with second_pattern.
  rewrite (re_search_no_y first_pattern pre) by (done || apply first_pattern_in).
  assert (H1 : re_search first_pattern (v_form ++ g ++ rest)
               = re_search first_pattern (g ++ rest)).
  { change (v_form ++ g ++ rest)
      with (121 :: (lit "outube.com/v/" ++ g ++ rest)).
    rewrite re_search_next.
    - apply re_search_no_y; [apply first_pattern_in|reflexivity].
    - unfold match_at, first_pattern. cbn [alts excluded].
      by rewrite !match_alts_skip by reflexivity. }
  rewrite H1.
  destruct (re_search first_pattern (g ++ rest)) as [h|]; [done|].
  rewrite (re_search_no_y second_pattern pre)
    by (done || apply second_pattern_in).
  rewrite (re_search_here second_pattern (v_form ++ g ++ rest) g); [done|].
  unfold match_at, second_pattern. cbn [alts excluded].
  by apply capture_here.
Qed.

Lemma extract_video_id_v_form_witness :
  extract_video_id (lit "https://www." ++ v_form ++ lit "abc" ++ lit "?x=1")
  = match re_search first_pattern (lit "abc" ++ lit "?x=1") with
    | Some h => Some h
    | None => Some (lit "abc")
    end.
Proof.
  apply (extract_video_id_v_form (lit "https://www.") (lit "abc") (lit "?x=1"));
    reflexivity.
Defined.

(** ** Cleaning the answer *)

Lemma remove_fence_here (r : pystr) :
  remove_all fence (96 :: 96 :: 96 :: r) = remove_all fence r.
Proof. reflexivity. Qed.

Lemma remove_all_step (old : pystr) (c : N) (r : pystr) :
  starts_with old (c :: r) = false ->
  remove_all old (c :: r) = c :: remove_all old r.
Proof. intros H. unfold remove_all. cbn [remove_from]. by rewrite H. Qed.

Lemma starts_with_fence (s : pystr) :
  starts_with fence s = true -> exists r, s = 96 :: 96 :: 96 :: r.
Proof.
  unfold starts_with. destruct (strip_prefix fence s) as [r|] eqn:E; [|done].
  intros _. exists r. by apply strip_prefix_app in E.
Qed.

Lemma starts_with_fence_false (c : N) (r : pystr) :
  c <> 96 -> starts_with fence (c :: r) = false.
Proof.
  intros Hc. unfold starts_with, fence. cbn [strip_prefix].
  destruct (N.eqb_spec 96 c); [congruence|done].
Qed.

(** Removing the fences cannot bring three backquotes together at the
    start of the text. *)
Lemma remove_fence_head (s : pystr) :
  starts_with fence s = false -> starts_with fence (remove_all fence s) = false.
Proof.
  intros Hs. destruct s as [|c r]; [done|].
  rewrite remove_all_step by done.
  destruct (N.eq_dec c 96) as [->|Hc]; [|by apply starts_with_fence_false].
  destruct r as [|d r1]; [done|].
  destruct (N.eq_dec d 96) as [->|Hd].
  2: { rewrite remove_all_step by (by apply starts_with_fence_false).
       unfold starts_with, fence. cbn [strip_prefix]. rewrite N.eqb_refl.
       destruct (N.eqb_spec 96 d); [congruence|done]. }
  destruct r1 as [|e r2]; [done|].
  destruct (N.eq_dec e 96) as [->|He]; [done|].
  assert (H2 : starts_with fence (96 :: e :: r2) = false).
  { unfold starts_with, fence. cbn [strip_prefix]. rewrite N.eqb_refl.
    destruct (N.eqb_spec 96 e); [congruence|done]. }
  rewrite (remove_all_step fence 96 (e :: r2)) by done.
  rewrite (remove_all_step fence e r2) by (by apply starts_with_fence_false).
  unfold starts_with, fence. cbn [strip_prefix]. rewrite !N.eqb_refl.
  destruct (N.eqb_spec 96 e); [congruence|done].
Qed.

Lemma remove_fence_none (n : nat) :
  forall s : pystr,
    (length s <= n)%nat -> contains fence (remove_all fence s) = false.
Proof.
  induction n as [n IH] using lt_wf_ind. intros s Hn.
  destruct s as [|c r]; [done|].
  destruct (starts_with fence (c :: r)) eqn:E.
  - destruct (starts_with_fence _ E) as [r3 Heq]. rewrite Heq.
    rewrite remove_fence_here. rewrite Heq in Hn. simpl in Hn.
    apply (IH (length r3)); lia.
  - pose proof (remove_fence_head _ E) as Hh.
    rewrite remove_all_step in * by done.
    cbn [contains]. rewrite Hh. simpl in Hn.
    apply (IH (length r)); lia.
Qed.

(** X4. The text handed to [json.loads] never has a code fence left in
    it: whatever the answer, no three backquotes in a row remain after
    the two replacements. *)
Theorem clean_response_no_fence (text : pystr) :
  contains fence (clean_response text) = false /\
  contains fence_json (clean_response text) = false.
Proof.
  assert (H : contains fence (clean_response text) = false)
    by (unfold clean_response; by eapply remove_fence_none).
  split; [done|].
  revert H. generalize (clean_response text). intros s.
  induction s as [|c s IH]; [done|]. cbn [contains].
  intros [Hh Ht]%orb_false_iff. rewrite (IH Ht).
  assert (Hj : starts_with fence_json (c :: s) = false); [|by rewrite Hj].
  unfold starts_with in *.
  destruct (strip_prefix fence_json (c :: s)) as [r|] eqn:E; [|done].
  apply strip_prefix_app in E.
  change fence_json with (fence ++ lit "json") in E.
  rewrite <- app_assoc in E. rewrite E, strip_prefix_self in Hh. done.
Qed.

Lemma starts_with_app_l (old a b : pystr) :
  starts_with old a = true -> starts_with old (a ++ b) = true.
Proof.
  unfold starts_with. destruct (strip_prefix old a) as [r|] eqn:E; [|done].
  intros _. apply strip_prefix_app in E. subst a.
  by rewrite <- app_assoc, strip_prefix_self.
Qed.

Lemma contains_app_l (old a b : pystr) :
  contains old a = true -> contains old (a ++ b) = true.
Proof.
  induction a as [|c a IH].
  - simpl. rewrite orb_false_r. intros H.
    pose proof (starts_with_app_l old [] b H) as H'. simpl in H'.
    destruct b; simpl; by rewrite H'.
  - cbn [contains app]. intros [H|H]%orb_true_iff.
    + pose proof (starts_with_app_l old (c :: a) b H) as H'.
      rewrite <- app_comm_cons in H'. by rewrite H'.
    + rewrite (IH H). apply orb_true_r.
Qed.

Lemma contains_lstrip (old s : pystr) :
  contains old (lstrip s) = true -> contains old s = true.
Proof.
  induction s as [|c s IH]; [done|]. simpl lstrip.
  destruct (is_py_space c); [|done].
  intros H%IH. cbn [contains]. rewrite H. apply orb_true_r.
Qed.

Lemma rstrip_prefix (s : pystr) : exists v, s = rstrip s ++ v.
Proof.
  unfold rstrip. exists (rev (fst (span is_py_space (rev s)))).
  rewrite <- rev_app_distr, lstrip_span, <- span_app. by rewrite rev_involutive.
Qed.

Lemma contains_py_strip (old s : pystr) :
  contains old s = false -> contains old (py_strip s) = false.
Proof.
  intros Hs. destruct (contains old (py_strip s)) eqn:E; [|done].
  unfold py_strip in E.
  destruct (rstrip_prefix (lstrip s)) as [v Hv].
  apply (contains_app_l _ _ v) in E. rewrite <- Hv in E.
  apply contains_lstrip in E. congruence.
Qed.

Lemma remove_all_absent (old s : pystr) :
  contains old s = false -> remove_all old s = s.
Proof.
  induction s as [|c s IH]; [done|]. cbn [contains].
  intros [Hh Ht]%orb_false_iff.
  rewrite remove_all_step by done. by rewrite IH.
Qed.

Lemma no_fence_no_tagged_fence (s : pystr) :
  contains fence s = false -> contains fence_json s = false.
Proof.
  induction s as [|c s IH]; [done|]. cbn [contains].
  intros [Hh Ht]%orb_false_iff. rewrite (IH Ht).
  assert (Hj : starts_with fence_json (c :: s) = false); [|by rewrite Hj].
  unfold starts_with in *.
  destruct (strip_prefix fence_json (c :: s)) as [r|] eqn:E; [|done].
  apply strip_prefix_app in E.
  change fence_json with (fence ++ lit "json") in E.
  rewrite <- app_assoc in E. rewrite E, strip_prefix_self in Hh. done.
Qed.

(** X5. An answer with no code fence in it is only stripped of the
    whitespace around it before it is parsed. *)
Theorem clean_response_unfenced (text : pystr) :
  contains fence text = false ->
  clean_response text = py_strip text /\
  parse_response text = json_loads (py_strip text).
Proof.
  intros H%(contains_py_strip fence).
  assert (Hc : clean_response text = py_strip text).
  { unfold clean_response.
    rewrite (remove_all_absent fence_json) by by apply no_fence_no_tagged_fence.
    by apply remove_all_absent. }
  split; [done|]. unfold parse_response. by rewrite Hc.
Qed.

Lemma clean_response_unfenced_witness :
  clean_response (lit "  [1, 2] " ++ [10]) = py_strip (lit "  [1, 2] " ++ [10]) /\
  parse_response (lit "  [1, 2] " ++ [10])
  = json_loads (py_strip (lit "  [1, 2] " ++ [10])).
Proof.
  apply (clean_response_unfenced (lit "  [1, 2] " ++ [10])). reflexivity.
Defined.

(** X6. Whitespace around the answer, of any kind [strip()] knows, has
    no effect on the text that is parsed nor on the outcome of the
    parse. *)
Theorem parse_response_padded (pre text post : pystr) :
  forallb is_py_space pre = true -> forallb is_py_space post = true ->
  clean_response (pre ++ text ++ post) = clean_response text /\
  parse_response (pre ++ text ++ post) = parse_response text.
Proof.
  intros Hpre Hpost.
  pose proof (clean_response_padded pre text post Hpre Hpost) as H.
  split; [done|]. unfold parse_response. by rewrite H.
Qed.

Lemma parse_response_padded_witness :
  clean_response ([12; 160] ++ lit "{}" ++ [10; 8232])
  = clean_response (lit "{}") /\
  parse_response ([12; 160] ++ lit "{}" ++ [10; 8232])
  = parse_response (lit "{}").
Proof.
  apply (parse_response_padded [12; 160] (lit "{}") [10; 8232]); reflexivity.
Defined.

(** ** Orchestrator *)

(** X7. Without a usable sample (no path, an empty path, or a path
    that names no existing file) the orchestrator makes exactly one
    call, the generation without media; it uploads, polls, unlinks and
    deletes nothing, leaves local storage as it is, needs no fuel, and
    returns the parsed answer or the fallback report. *)
Theorem analyze_without_sample (fuel : nat) (env : Env) (vi : VideoAnalysis)
    (vp : option pystr) (w : World) :
  sample_exists vp w = false ->
  analyze_with_gemini fuel env vi vp w
  = (Ret (answer_or_fallback (env_generate env (build_prompt vi) None)),
     log (EGenerate (build_prompt vi) None
                    (env_generate env (build_prompt vi) None)) w).
Proof.
  intros Hs.
  unfold analyze_with_gemini, with_frame, try_finally, try_except,
    analyze_body, analyze_cleanup.
  unfold bind at 1. rewrite sample_present_run, Hs.
  unfold bind at 1. unfold ret at 1. unfold bind at 1. unfold get_local at 1.
  unfold bind at 1. unfold in_world at 1, generate_content, bind at 1, emit.
  cbn [fst snd].
  assert (Hs' : forall e, sample_exists vp (log e w) = false).
  { intros e. by rewrite (sample_exists_fs vp w (log e w)). }
  unfold answer_or_fallback.
  destruct (env_generate env (build_prompt vi) None) as [text|]; cbn.
  - destruct (json_loads (clean_response text)); cbn;
      unfold bind at 1; rewrite sample_present_run, Hs'; reflexivity.
  - unfold bind at 1; rewrite sample_present_run, Hs'; reflexivity.
Qed.

Lemma analyze_without_sample_witness :
  analyze_with_gemini 0 env_ok demo_video (Some demo_path) world_empty
  = (Ret (answer_or_fallback (env_generate env_ok (build_prompt demo_video) None)),
     log (EGenerate (build_prompt demo_video) None
                    (env_generate env_ok (build_prompt demo_video) None))
         world_empty).
Proof.
  apply (analyze_without_sample 0 env_ok demo_video (Some demo_path)
           world_empty).
  reflexivity.
Defined.

Lemma poll_done (fuel : nat) (env : Env) (f : File) :
  is_processing f = false -> poll fuel env f = ret f.
Proof. intros H. destruct fuel; simpl; by rewrite H. Qed.

Lemma poll_round (fuel : nat) (env : Env) (f : File) (l : option File)
    (w : World) :
  is_processing f = true ->
  poll (S fuel) env f (l, w)
  = match env_get_file env (fetches w) (file_name f) with
    | Some f' =>
      poll fuel env f'
        (Some f',
         mkWorld (fs w)
           (trace w ++ [ESleep 2; EGetFile (file_name f) (Some f')])
           (S (fetches w)))
    | None =>
      (Raise GetFileError,
       (l, mkWorld (fs w) (trace w ++ [ESleep 2; EGetFile (file_name f) None])
                   (S (fetches w))))
    end.
Proof.
  intros Hf. simpl. rewrite Hf.
  unfold bind, in_world, asyncio_sleep, emit, genai_get_file, set_local, log.
  simpl.
  destruct (env_get_file env (fetches w) (file_name f)); simpl;
    by rewrite <- app_assoc.
Qed.

(** X8. The polling loop, whatever the service does: it leaves local
    storage alone; its calls are rounds of one sleep of 2 followed by
    one status fetch, nothing else; it makes no more fetches than it has
    fuel; and when it ends normally, the handle it ends with is the last
    one obtained and is not [PROCESSING]. *)
Theorem poll_rounds (fuel : nat) (env : Env) :
  forall (f : File) (l : option File) (w : World),
  exists r l' w' evs,
    poll fuel env f (l, w) = (r, (l', w')) /\
    fs w' = fs w /\ trace w' = trace w ++ evs /\
    sleep_then_fetch evs = true /\
    (count is_fetch evs <= fuel)%nat /\
    count is_sleep evs = count is_fetch evs /\
    fetches w' = (fetches w + count is_fetch evs)%nat /\
    (forall x, r = Ret x ->
       is_processing x = false /\ handle_after (Some f) evs = Some x).
Proof.
  induction fuel as [|k IH]; intros f l w.
  - simpl. destruct (is_processing f) eqn:E.
    + exists Diverge, l, w, []. rewrite app_nil_r.
      do 7 (split; [first [done|unfold count; simpl; lia]|]). done.
    + exists (Ret f), l, w, []. rewrite app_nil_r.
      do 7 (split; [first [done|unfold count; simpl; lia]|]).
      by intros x [= <-].
  - destruct (is_processing f) eqn:E.
    + rewrite poll_round by done.
      destruct (env_get_file env (fetches w) (file_name f)) as [f1|] eqn:G.
      * destruct (IH f1 (Some f1)
                    (mkWorld (fs w)
                       (trace w ++ [ESleep 2; EGetFile (file_name f) (Some f1)])
                       (S (fetches w))))
          as (r & l' & w' & evs & Hrun & Hfs & Htr & Hst & Hle & Hsl & Hfe & Hr).
        exists r, l', w', ([ESleep 2; EGetFile (file_name f) (Some f1)] ++ evs).
        simpl in *. split; [done|]. split; [done|].
        split; [by rewrite Htr, <- app_assoc|]. split; [done|].
        unfold count in *. simpl. split; [lia|]. split; [lia|].
        split; [lia|]. done.
      * eexists _, _, _, [ESleep 2; EGetFile (file_name f) None].
        split; [reflexivity|]. simpl. unfold count. simpl.
        do 6 (split; [first [done|lia]|]). done.
    + rewrite poll_done by done.
      exists (Ret f), l, w, []. rewrite app_nil_r.
      do 7 (split; [first [done|unfold count; simpl; lia]|]).
      by intros x [= <-].
Qed.

Lemma stays_processing_next (env : Env) (start n : nat) :
  stays_processing env start (S n) -> stays_processing env (S start) n.
Proof.
  intros H i name Hi. destruct (H (S i) name ltac:(lia)) as (f & Hf & Hp).
  exists f. split; [|done]. by replace (S start + i)%nat with (start + S i)%nat by lia.
Qed.

(** X9. How long the loop polls. When the handle is [PROCESSING], the
    next [n] status fetches report [PROCESSING] and the one after them
    reports another state or raises, the loop makes exactly [n + 1]
    fetches and [n + 1] sleeps and then ends; with fuel for fewer than
    that many rounds it is still running. *)
Theorem poll_exact_count (n : nat) (env : Env) :
  forall (fuel : nat) (f : File) (l : option File) (w : World),
    is_processing f = true ->
    stays_processing env (fetches w) n ->
    settled_at env (fetches w + n) ->
    ((n < fuel)%nat ->
     exists r l' w' evs,
       poll fuel env f (l, w) = (r, (l', w')) /\
       r <> Diverge /\
       trace w' = trace w ++ evs /\
       count is_fetch evs = S n /\ count is_sleep evs = S n) /\
    ((fuel <= n)%nat -> fst (poll fuel env f (l, w)) = Diverge).
Proof.
  induction n as [|m IH]; intros fuel f l w Hf Hstay Hset.
  - split.
    + intros Hfuel. destruct fuel as [|k]; [lia|].
      rewrite poll_round by done.
      specialize (Hset (file_name f)). rewrite Nat.add_0_r in Hset.
      destruct (env_get_file env (fetches w) (file_name f)) as [f1|].
      * rewrite poll_done by done.
        eexists _, _, _, [ESleep 2; EGetFile (file_name f) (Some f1)].
        split; [reflexivity|]. by repeat split.
      * eexists _, _, _, [ESleep 2; EGetFile (file_name f) None].
        split; [reflexivity|]. by repeat split.
    + intros Hfuel. assert (fuel = 0%nat) as -> by lia. simpl. by rewrite Hf.
  - destruct (Hstay 0%nat (file_name f) ltac:(lia)) as (f1 & Hg & Hp1).
    rewrite Nat.add_0_r in Hg.
    apply stays_processing_next in Hstay.
    split.
    + intros Hfuel. destruct fuel as [|k]; [lia|].
      rewrite poll_round, Hg by done.
      destruct (IH k f1 (Some f1)
                  (mkWorld (fs w)
                     (trace w ++ [ESleep 2; EGetFile (file_name f) (Some f1)])
                     (S (fetches w))) Hp1 Hstay) as [Hok _].
      { cbn [fetches]. by replace (S (fetches w) + m)%nat
                 with (fetches w + S m)%nat by lia. }
      destruct (Hok ltac:(lia)) as (r & l' & w' & evs & Hrun & Hnd & Htr & Hc1 & Hc2).
      exists r, l', w', ([ESleep 2; EGetFile (file_name f) (Some f1)] ++ evs).
      split; [done|]. split; [done|]. simpl in Htr.
      split; [by rewrite Htr, <- app_assoc|].
      rewrite !count_app, Hc1, Hc2. by split.
    + intros Hfuel. destruct fuel as [|k]; [simpl; by rewrite Hf|].
      rewrite poll_round, Hg by done.
      destruct (IH k f1 (Some f1)
                  (mkWorld (fs w)
                     (trace w ++ [ESleep 2; EGetFile (file_name f) (Some f1)])
                     (S (fetches w))) Hp1 Hstay) as [_ Hdiv].
      { cbn [fetches]. by replace (S (fetches w) + m)%nat
                 with (fetches w + S m)%nat by lia. }
      apply Hdiv. lia.
Qed.

Lemma poll_exact_count_witness :
  (exists r l' w' evs,
     poll 5 env_ok (mkFile demo_name PROCESSING) (None, world_empty)
     = (r, (l', w')) /\
     r <> Diverge /\
     trace w' = trace world_empty ++ evs /\
     count is_fetch evs = 2%nat /\ count is_sleep evs = 2%nat).
Proof.
  refine (proj1 (poll_exact_count 1 env_ok 5 (mkFile demo_name PROCESSING)
                   None world_empty _ _ _) _).
  - reflexivity.
  - intros i name Hi. destruct i as [|i]; [|lia].
    eexists. split; reflexivity.
  - intros name. reflexivity.
  - lia.
Defined.

(** The calls of the [try] block: calls that are no generation, then at
    most one generation, with the prompt of the video and usable
    media. *)
Lemma analyze_body_calls (fuel : nat) (env : Env) (vi : VideoAnalysis)
    (vp : option pystr) (w : World) :
  exists rb l w1 pre gen,
    analyze_body fuel env vi vp (None, w) = (rb, (l, w1)) /\
    trace w1 = trace w ++ pre ++ gen /\
    count is_generate pre = 0%nat /\
    (gen = [] \/ gen = [generate_event env vi l] /\ usable_media l).
Proof.
  unfold analyze_body. unfold bind at 1. rewrite sample_present_run.
  destruct (sample_exists vp w) eqn:Hs.
  - destruct vp as [p|]; [|done].
    unfold bind at 1. unfold bind at 1.
    unfold in_world at 1, genai_upload_file, bind at 1, emit. simpl.
    destruct (env_upload env p) as [f0|] eqn:Hup; simpl.
    + unfold bind at 1. unfold set_local at 1. simpl.
      unfold bind at 1.
      destruct (poll_inv fuel env f0 (Some f0) (log (EUpload p (Some f0)) w))
        as (r & l' & w1 & evs & Hrun & Hfs & Htr & Hev & Hh & Hl & Hr).
      rewrite Hrun. destruct (Hl eq_refl) as [f' ->].
      assert (Hnogen : count is_generate (EUpload p (Some f0) :: evs) = 0%nat).
      { change (EUpload p (Some f0) :: evs) with ([EUpload p (Some f0)] ++ evs).
        by rewrite count_app, (poll_not_generate evs). }
      assert (Htr' : trace w1 = trace w ++ (EUpload p (Some f0) :: evs) ++ []).
      { rewrite Htr, app_nil_r. simpl. by rewrite <- app_assoc. }
      destruct r as [x| e |]; simpl.
      * destruct (Hr x eq_refl) as [Hproc Hx]. specialize (Hx eq_refl).
        injection Hx as <-.
        destruct (is_failed f') eqn:Hfail; simpl.
        { eexists _, _, _, _, []. split; [reflexivity|].
          split; [exact Htr'|]. split; [exact Hnogen|by left]. }
        unfold get_local, in_world, generate_content, bind, emit; simpl.
        assert (Hm : usable_media (Some f')) by (by intros h [= <-]).
        destruct (env_generate env (build_prompt vi) (Some f')) as [text|] eqn:Hgen;
          simpl; [destruct (json_loads (clean_response text)); simpl|].
        all: eexists _, _, _, (EUpload p (Some f0) :: evs),
               [generate_event env vi (Some f')].
        all: split; [reflexivity|]; simpl.
        all: split; [rewrite Htr', app_nil_r, <- app_assoc;
                     unfold generate_event; by rewrite Hgen|].
        all: split; [exact Hnogen|by right].
      * eexists _, _, _, _, []. split; [reflexivity|].
        split; [exact Htr'|]. split; [exact Hnogen|by left].
      * eexists _, _, _, _, []. split; [reflexivity|].
        split; [exact Htr'|]. split; [exact Hnogen|by left].
    + eexists _, _, _, [EUpload p None], []. split; [reflexivity|].
      split; [done|]. split; [done|by left].
  - unfold bind, ret, get_local, in_world, generate_content, emit; simpl.
    assert (Hm : usable_media None) by (by intros h).
    destruct (env_generate env (build_prompt vi) None) as [text|] eqn:Hgen; simpl;
      [destruct (json_loads (clean_response text)); simpl|].
    all: eexists _, _, _, [], [generate_event env vi None].
    all: split; [reflexivity|]; simpl.
    all: split; [unfold generate_event; by rewrite Hgen|].
    all: split; [done|by right].
Qed.

Lemma count_zero_elem (f : event -> bool) (t : list event) (e : event) :
  count f t = 0%nat -> e ∈ t -> f e = false.
Proof.
  unfold count. induction t as [|x t IH]; [by intros _ ?%elem_of_nil|].
  simpl. destruct (f x) eqn:E; [done|].
  intros H [->|He]%elem_of_cons; auto.
Qed.

(** The calls of one run of the orchestrator: those of the [try] block,
    then those of the [finally] block when the run gets there. *)
Lemma analyze_calls (fuel : nat) (env : Env) (vi : VideoAnalysis)
    (vp : option pystr) (w : World) :
  exists l pre gen fin,
    trace (snd (analyze_with_gemini fuel env vi vp w))
    = trace w ++ pre ++ gen ++ fin /\
    count is_generate pre = 0%nat /\
    (gen = [] \/ gen = [generate_event env vi l] /\ usable_media l) /\
    (fin = [] \/ fin = cleanup_events env vp w l) /\
    (fst (analyze_with_gemini fuel env vi vp w) <> Diverge ->
     fin = cleanup_events env vp w l /\
     count is_unlink (pre ++ gen) = 0%nat /\
     count is_delete (pre ++ gen) = 0%nat /\
     l = handle_after None (pre ++ gen)).
Proof.
  destruct (analyze_body_calls fuel env vi vp w)
    as (rb & l & w1 & pre & gen & Hbody & Htr & Hpre & Hgen).
  destruct (analyze_with_gemini_run fuel env vi vp w)
    as (rb' & l' & w1' & evs & Hbody' & Hok & _ & _ & Hdiv & Hend).
  rewrite Hbody in Hbody'. injection Hbody' as <- <- <-.
  destruct Hok as (_ & Htr1 & Hu & Hd & _ & Hh).
  assert (Hevs : evs = pre ++ gen).
  { rewrite Htr1 in Htr. by apply app_inv_head in Htr. }
  subst evs.
  destruct rb as [v|e|].
  - destruct (Hend ltac:(done)) as (w2 & Htr2 & _ & _ & Hres).
    exists l, pre, gen, (cleanup_events env vp w l).
    assert (Hw : snd (analyze_with_gemini fuel env vi vp w) = w2)
      by (by destruct Hres as [[-> _] | [[-> _] | [-> _]]]).
    rewrite Hw, Htr2, <- !app_assoc. by auto 10.
  - destruct (Hend ltac:(done)) as (w2 & Htr2 & _ & _ & Hres).
    exists l, pre, gen, (cleanup_events env vp w l).
    assert (Hw : snd (analyze_with_gemini fuel env vi vp w) = w2)
      by (by destruct Hres as [[-> _] | [[-> _] | [-> _]]]).
    rewrite Hw, Htr2, <- !app_assoc. by auto 10.
  - exists l, pre, gen, []. rewrite (Hdiv eq_refl). simpl.
    rewrite Htr, app_nil_r.
    split; [done|]. split; [done|]. split; [done|]. split; [by left|].
    by intros Hc.
Qed.

(** X10. What the orchestrator asks the generation, on every run: at
    most one generation call is made; it carries the prompt built from
    the video and nothing else; and the file that goes with it, if any,
    is neither [PROCESSING] nor [FAILED]. *)
Theorem generation_call (fuel : nat) (env : Env) (vi : VideoAnalysis)
    (vp : option pystr) (w : World) :
  exists evs,
    trace (snd (analyze_with_gemini fuel env vi vp w)) = trace w ++ evs /\
    (count is_generate evs <= 1)%nat /\
    forall p m t, EGenerate p m t ∈ evs ->
      p = build_prompt vi /\ t = env_generate env p m /\ usable_media m.
Proof.
  destruct (analyze_calls fuel env vi vp w)
    as (l & pre & gen & fin & Htr & Hpre & Hgen & Hfin & _).
  exists (pre ++ gen ++ fin). split; [done|].
  assert (Hf : count is_generate fin = 0%nat).
  { destruct Hfin as [->| ->]; [done|apply count_cleanup_generate]. }
  split.
  - rewrite !count_app, Hpre, Hf.
    destruct Hgen as [->|[-> _]]; unfold count; simpl; lia.
  - intros p m t [Hin|[Hin|Hin]%elem_of_app]%elem_of_app.
    + by apply (count_zero_elem _ _ _ Hpre) in Hin.
    + destruct Hgen as [->|[-> Hm]]; [by apply elem_of_nil in Hin|].
      apply list_elem_of_singleton in Hin. unfold generate_event in Hin.
      injection Hin as -> -> ->. done.
    + by apply (count_zero_elem _ _ _ Hf) in Hin.
Qed.

(** X11. On every run that ends, the clean-up is the last thing done:
    the trace is the calls of the [try] block, none of which unlinks or
    deletes, followed by the unlink of the sample (if it exists) and
    then, unless that unlink raised, by the remote deletion (if a handle
    is held), in this order. *)
Theorem cleanup_comes_last (fuel : nat) (env : Env) (vi : VideoAnalysis)
    (vp : option pystr) (w : World) :
  fst (analyze_with_gemini fuel env vi vp w) <> Diverge ->
  exists evs,
    trace (snd (analyze_with_gemini fuel env vi vp w))
    = trace w ++ evs
      ++ match vp with
         | Some p => if sample_exists vp w then [EUnlink p] else []
         | None => []
         end
      ++ (if unlink_ok env vp w
          then match handle_after None evs with
               | Some f => [EDeleteFile (file_name f)]
               | None => []
               end
          else []) /\
    count is_unlink evs = 0%nat /\ count is_delete evs = 0%nat.
Proof.
  intros Hnd.
  destruct (analyze_calls fuel env vi vp w)
    as (l & pre & gen & fin & Htr & _ & _ & _ & Hend).
  destruct (Hend Hnd) as (-> & Hu & Hd & Hl).
  exists (pre ++ gen). rewrite <- Hl. by rewrite <- app_assoc.
Qed.

Lemma cleanup_comes_last_witness :
  let env := env_unlink_fails in
  let vp := Some demo_path in
  let w := world_with_sample in
  exists evs,
    trace (snd (analyze_with_gemini 5 env demo_video vp w))
    = trace w ++ evs
      ++ match vp with
         | Some p => if sample_exists vp w then [EUnlink p] else []
         | None => []
         end
      ++ (if unlink_ok env vp w
          then match handle_after None evs with
               | Some f => [EDeleteFile (file_name f)]
               | None => []
               end
          else []) /\
    count is_unlink evs = 0%nat /\ count is_delete evs = 0%nat.
Proof.
  apply (cleanup_comes_last 5 env_unlink_fails demo_video (Some demo_path)
           world_with_sample).
  vm_compute. discriminate.
Defined.

(** ** The sampler and the route *)

Lemma download_video_segment_run (env : Env) (url : pystr) (d : Z)
    (w : World) :
  download_video_segment env url d w
  = match env_tempfile env with
    | None => (Ret None, w)
    | Some p =>
      (Ret (if env_download env url p then Some p else None),
       mkWorld (fs w ∪ {[p]}) (trace w ++ [ETempFile p; EDownload url p d])
               (fetches w))
    end.
Proof.
  unfold download_video_segment, try_except, bind, named_temporary_file,
    ydl_download, emit, ret, raise, bind.
  destruct (env_tempfile env) as [p|]; [|done]. simpl.
  destruct (env_download env url p); simpl; unfold log; simpl;
    by rewrite <- app_assoc.
Qed.

(** X12. The sampler never raises and never removes a file.  It returns
    a path exactly when the temporary file was allocated and the
    download went through; that path then names a file that exists, and
    the download was asked for the given duration on that very path.
    When no temporary file can be allocated nothing at all happens. *)
Theorem download_video_segment_result (env : Env) (url : pystr) (d : Z)
    (w : World) :
  exists r w',
    download_video_segment env url d w = (Ret r, w') /\
    fs w ⊆ fs w' /\
    (forall p, r = Some p <->
       env_tempfile env = Some p /\ env_download env url p = true) /\
    (forall p, r = Some p ->
       p ∈ fs w' /\ trace w' = trace w ++ [ETempFile p; EDownload url p d]) /\
    (env_tempfile env = None -> w' = w).
Proof.
  rewrite download_video_segment_run.
  destruct (env_tempfile env) as [q|] eqn:Ht.
  - eexists _, _. split; [reflexivity|]. simpl.
    split; [apply union_subseteq_l|].
    destruct (env_download env url q) eqn:Hd.
    + split; [|split; [|done]].
      * intros p. split; [by intros [= <-]|by intros [[= <-] _]].
      * intros p [= <-]. split; [|done].
        apply elem_of_union_r. by apply elem_of_singleton.
    + split; [|split; [|done]].
      * intros p. split; [done|]. intros [[= <-] H]. by rewrite Hd in H.
      * done.
  - exists None, w. split; [done|]. split; [done|].
    split; [|by split].
    intros p. split; [done|by intros [? _]].
Qed.

(** The route on a request it accepts: metadata, then the sampling step,
    then the orchestrator, whose outcome decides the answer. *)
Lemma analyze_video_accepts (fuel : nat) (env : Env)
    (d : gmap string pyvalue) (url g : pystr) (info : InfoDict) (w : World) :
  d !! "url" = Some (VStr url) ->
  url <> [] -> extract_video_id url = Some g -> g <> [] ->
  env_extract_info env url = Some info ->
  let wanted := truthy (d !! "analyze_video_content") in
  analyze_video fuel env (BodyDict d) w
  = (respond (video_of_info info)
       (fst (analyze_with_gemini fuel env (video_of_info info)
               (fst (sampling env url wanted (log (EExtractInfo url) w)))
               (snd (sampling env url wanted (log (EExtractInfo url) w))))),
     snd (analyze_with_gemini fuel env (video_of_info info)
            (fst (sampling env url wanted (log (EExtractInfo url) w)))
            (snd (sampling env url wanted (log (EExtractInfo url) w))))).
Proof.
  intros Hd Hurl Hid Hg Hinfo wanted.
  unfold analyze_video, try_except. rewrite Hd.
  destruct url as [|c url]; [done|]. cbn [truthy negb]. rewrite Hid.
  destruct g as [|c' g]; [done|].
  unfold bind at 1. rewrite get_video_info_run, Hinfo. simpl.
  unfold bind at 1. unfold sampling. fold wanted.
  destruct wanted.
  - rewrite download_video_segment_run.
    destruct (env_tempfile env) as [p|]; simpl.
    + unfold bind at 1.
      destruct (analyze_with_gemini _ _ _ _ _) as [[a|e|] w2]; done.
    + unfold bind at 1.
      destruct (analyze_with_gemini _ _ _ _ _) as [[a|e|] w2]; done.
  - unfold ret at 1. unfold bind at 1.
    destruct (analyze_with_gemini _ _ _ _ _) as [[a|e|] w2]; done.
Qed.

Lemma analyze_video_run (fuel : nat) (env : Env) (url g : pystr)
    (wanted : bool) (info : InfoDict) (w : World) :
  url <> [] -> extract_video_id url = Some g -> g <> [] ->
  env_extract_info env url = Some info ->
  analyze_video fuel env (mkRequest (Some url) wanted) w
  = (respond (video_of_info info)
       (fst (analyze_with_gemini fuel env (video_of_info info)
               (fst (sampling env url wanted (log (EExtractInfo url) w)))
               (snd (sampling env url wanted (log (EExtractInfo url) w))))),
     snd (analyze_with_gemini fuel env (video_of_info info)
            (fst (sampling env url wanted (log (EExtractInfo url) w)))
            (snd (sampling env url wanted (log (EExtractInfo url) w))))).
Proof.
  intros Hurl Hid Hg Hinfo.
  pose proof (mkRequest_url (Some url) wanted) as Hu.
  pose proof (mkRequest_flag (Some url) wanted) as Hf.
  destruct (mkRequest (Some url) wanted) as [d|]; [|done].
  rewrite (analyze_video_accepts fuel env d url g info w Hu Hurl Hid Hg Hinfo).
  rewrite Hf. by destruct wanted.
Qed.

(** The ways a request goes through the route. *)
Lemma analyze_video_cases (fuel : nat) (env : Env) (data : Request)
    (w : World) :
  (exists msg, analyze_video fuel env data w = (Ret (RespError msg 400), w)) \/
  (exists url msg,
     req_url data = Some url /\
     env_extract_info env url = None /\
     analyze_video fuel env data w
     = (Ret (RespError msg 400), log (EExtractInfo url) w)) \/
  (exists url info vp w1 ra w2,
     req_url data = Some url /\
     env_extract_info env url = Some info /\
     sampling env url (req_analyze_video_content data)
       (log (EExtractInfo url) w) = (vp, w1) /\
     analyze_with_gemini fuel env (video_of_info info) vp w1 = (ra, w2) /\
     analyze_video fuel env data w = (respond (video_of_info info) ra, w2)) \/
  (unusable_body data = true /\
   analyze_video fuel env data w
   = (Ret (RespError "Internal server error" 500), w)).
Proof.
  destruct data as [d|]; [|by right; right; right].
  destruct (d !! "url") as [[url|b]|] eqn:Hd.
  - destruct url as [|c url].
    { left. unfold analyze_video, try_except. rewrite Hd. by eexists. }
    destruct (extract_video_id (c :: url)) as [[|c' g]|] eqn:Hid.
    + left. unfold analyze_video, try_except. rewrite Hd. cbn [truthy negb].
      rewrite Hid. by eexists.
    + destruct (env_extract_info env (c :: url)) as [info|] eqn:Hinfo.
      * right. right. left.
        rewrite (analyze_video_accepts fuel env d (c :: url) (c' :: g) info w)
          by done.
        cbv zeta.
        destruct (sampling _ _ _ _) as [vp w1] eqn:Hs. simpl.
        destruct (analyze_with_gemini _ _ _ _ _) as [ra w2] eqn:Ha. simpl.
        exists (c :: url), info, vp, w1, ra, w2.
        unfold req_url, req_analyze_video_content. rewrite Hd. by rewrite Hs.
      * right. left. exists (c :: url).
        unfold analyze_video, try_except, req_url. rewrite Hd.
        cbn [truthy negb]. rewrite Hid.
        unfold bind at 1. rewrite get_video_info_run, Hinfo. simpl.
        by eexists.
    + left. unfold analyze_video, try_except. rewrite Hd. cbn [truthy negb].
      rewrite Hid. by eexists.
  - destruct b.
    + right. right. right. unfold analyze_video, try_except, unusable_body.
      by rewrite Hd.
    + left. unfold analyze_video, try_except. rewrite Hd. by eexists.
  - left. unfold analyze_video, try_except. rewrite Hd. by eexists.
Qed.

Lemma sampling_trace (env : Env) (url : pystr) (wanted : bool) (w : World) :
  trace (snd (sampling env url wanted w))
  = trace w ++ sampling_events env url wanted.
Proof.
  unfold sampling, sampling_events.
  destruct wanted; [|by rewrite app_nil_r].
  destruct (env_tempfile env); [done|by rewrite app_nil_r].
Qed.

Lemma sampling_fetches (env : Env) (url : pystr) (wanted : bool) (w : World) :
  fetches (snd (sampling env url wanted w)) = fetches w.
Proof.
  unfold sampling. destruct wanted; [|done]. by destruct (env_tempfile env).
Qed.

Lemma sampling_some (env : Env) (url p : pystr) (wanted : bool) (w : World) :
  fst (sampling env url wanted w) = Some p ->
  wanted = true /\ env_tempfile env = Some p /\ env_download env url p = true.
Proof.
  unfold sampling. destruct wanted; [|done].
  destruct (env_tempfile env) as [q|]; [|done]. simpl.
  destruct (env_download env url q) eqn:Hd; [|done]. by intros [= ->].
Qed.

Lemma settles_le (env : Env) (n m start : nat) (f : File) :
  (n <= m)%nat -> settles env n start f = true -> settles env m start f = true.
Proof.
  induction 1 as [|m Hle IH]; [done|]. intros H. by apply settles_mono, IH.
Qed.

(** When the orchestrator does not end, a sample was uploaded and its
    handle was still [PROCESSING] after all the fetches of the fuel. *)
Lemma analyze_with_gemini_diverges (fuel : nat) (env : Env)
    (vi : VideoAnalysis) (vp : option pystr) (w : World) :
  fst (analyze_with_gemini fuel env vi vp w) = Diverge ->
  exists p f0, vp = Some p /\ env_upload env p = Some f0 /\
               settles env fuel (fetches w) f0 = false.
Proof.
  intros Hd.
  destruct (will_settle env fuel vp w) eqn:Hs.
  { by apply analyze_with_gemini_ends with (vi := vi) in Hs. }
  unfold will_settle in Hs.
  destruct (sample_exists vp w); [|done].
  destruct vp as [p|]; [|done].
  destruct (env_upload env p) as [f0|] eqn:Hup; [|done].
  by exists p, f0.
Qed.

(** X13. The route never lets an exception out: whatever the request
    and whatever the collaborators do, it ends with a response whose
    status is 200, 400 or 500, unless the polling does not end.  It
    fails to end within a budget of [fuel] status fetches only when a
    sample was downloaded and uploaded and its handle was still
    [PROCESSING] after every one of these fetches; so when the handle
    leaves [PROCESSING] (or a fetch raises) within [n] fetches, every
    budget of [n] or more gives a response. *)
Theorem analyze_video_never_raises (fuel : nat) (env : Env) (data : Request)
    (w : World) :
  ((exists resp,
      fst (analyze_video fuel env data w) = Ret resp /\
      (status_of resp = 200 \/ status_of resp = 400 \/ status_of resp = 500)%Z)
   \/
   fst (analyze_video fuel env data w) = Diverge /\
   exists url p f0,
     req_url data = Some url /\ req_analyze_video_content data = true /\
     env_tempfile env = Some p /\ env_download env url p = true /\
     env_upload env p = Some f0 /\
     settles env fuel (fetches w) f0 = false) /\
  (forall n,
     (forall p f0, env_tempfile env = Some p -> env_upload env p = Some f0 ->
                   settles env n (fetches w) f0 = true) ->
     (n <= fuel)%nat ->
     exists resp, fst (analyze_video fuel env data w) = Ret resp).
Proof.
  assert (Hmain :
    (exists resp,
      fst (analyze_video fuel env data w) = Ret resp /\
      (status_of resp = 200 \/ status_of resp = 400 \/ status_of resp = 500)%Z)
   \/
   fst (analyze_video fuel env data w) = Diverge /\
   exists url p f0,
     req_url data = Some url /\ req_analyze_video_content data = true /\
     env_tempfile env = Some p /\ env_download env url p = true /\
     env_upload env p = Some f0 /\
     settles env fuel (fetches w) f0 = false).
  { destruct (analyze_video_cases fuel env data w)
      as [[msg ->]|[(url & msg & _ & _ & ->)
                   |[(url & info & vp & w1 & ra & w2 & Hu & _ & Hs & Ha & ->)
                    |[_ ->]]]].
    - left. eexists. split; [reflexivity|]. simpl. by auto.
    - left. eexists. split; [reflexivity|]. simpl. by auto.
    - destruct ra as [a|e|]; simpl.
      + left. eexists. split; [reflexivity|]. simpl. by auto.
      + left. eexists. split; [reflexivity|]. simpl. by auto.
      + right. split; [done|].
        destruct (analyze_with_gemini_diverges fuel env (video_of_info info)
                    vp w1) as (p & f0 & -> & Hup & Hset).
        { by rewrite Ha. }
        assert (Hw1 : fetches w1 = fetches w).
        { replace w1 with (snd (sampling env url
                                  (req_analyze_video_content data)
                                  (log (EExtractInfo url) w)))
            by (by rewrite Hs).
          by rewrite sampling_fetches. }
        destruct (sampling_some env url p (req_analyze_video_content data)
                    (log (EExtractInfo url) w)) as (Hw & Ht & Hdl).
        { by rewrite Hs. }
        rewrite Hw1 in Hset. by exists url, p, f0.
    - left. eexists. split; [reflexivity|]. simpl. by auto. }
  split; [exact Hmain|].
  intros n Hn Hle.
  destruct Hmain as [(resp & H & _)|(_ & url & p & f0 & _ & _ & Ht & _ & Hup & Hs)];
    [by exists resp|].
  pose proof (settles_le env n fuel (fetches w) f0 Hle (Hn p f0 Ht Hup)) as H.
  congruence.
Qed.

(** X14. A 400 answer is given before anything is sampled, uploaded
    or generated: local storage is as it was, and the only call that may
    have been made is the metadata fetch for the request's URL. *)
Theorem client_error_makes_no_remote_call (fuel : nat) (env : Env)
    (data : Request) (w : World) (msg : string) :
  fst (analyze_video fuel env data w) = Ret (RespError msg 400) ->
  fs (snd (analyze_video fuel env data w)) = fs w /\
  fetches (snd (analyze_video fuel env data w)) = fetches w /\
  (trace (snd (analyze_video fuel env data w)) = trace w \/
   exists url, req_url data = Some url /\
     env_extract_info env url = None /\
     trace (snd (analyze_video fuel env data w))
     = trace w ++ [EExtractInfo url]).
Proof.
  destruct (analyze_video_cases fuel env data w)
    as [[msg' ->]|[(url & msg' & Hu & Hi & ->)
                  |[(url & info & vp & w1 & ra & w2 & _ & _ & _ & _ & ->)
                   |[_ ->]]]];
    simpl.
  - by auto.
  - intros _. split; [done|]. split; [done|]. right. by exists url.
  - by destruct ra.
  - done.
Qed.

Lemma client_error_makes_no_remote_call_witness :
  fs (snd (analyze_video 5 env_ok (mkRequest (Some (lit "https://example.org/watch")) true)
             world_with_sample)) = fs world_with_sample.
Proof.
  refine (proj1 (client_error_makes_no_remote_call 5 env_ok
            (mkRequest (Some (lit "https://example.org/watch")) true)
            world_with_sample "Invalid YouTube URL" _)).
  vm_compute. reflexivity.
Defined.

(** What an exception of the orchestrator is: one of the two calls of
    the [finally] block raised, as the last call of the run.  Either
    the unlink of the sample, which then stays, or the remote deletion,
    made on the handle last obtained. *)
Lemma analyze_with_gemini_raises (fuel : nat) (env : Env)
    (vi : VideoAnalysis) (vp : option pystr) (w w2 : World) (e : exn) :
  analyze_with_gemini fuel env vi vp w = (Raise e, w2) ->
  (exists evs p,
     e = OSError /\ vp = Some p /\
     trace w2 = trace w ++ evs ++ [EUnlink p] /\
     env_unlink env p = false /\ p ∈ fs w /\ fs w2 = fs w /\
     count is_delete evs = 0%nat /\ count is_unlink evs = 0%nat) \/
  (exists evs f,
     e = DeleteError /\
     trace w2 = trace w ++ evs ++ [EDeleteFile (file_name f)] /\
     env_delete_file env (file_name f) = false /\
     handle_after None evs = Some f /\
     count is_delete evs = 0%nat).
Proof.
  intros Hrun.
  destruct (analyze_with_gemini_run fuel env vi vp w)
    as (rb & l & w1 & evs & _ & Hok & _ & _ & Hdiv & Hend).
  destruct Hok as (_ & _ & Hu & Hd & _ & Hh).
  assert (Hnd : rb <> Diverge).
  { intros ->. by rewrite (Hdiv eq_refl) in Hrun. }
  destruct (Hend Hnd)
    as (w2' & Htr & Hfs & _ & [[Hc _]|[[Hr [Hok (f & -> & Hdel)]]|[Hr Hno]]]).
  - rewrite Hc in Hrun. by destruct rb.
  - rewrite Hr in Hrun. injection Hrun as <- <-. right.
    exists (evs ++ match vp with
                   | Some p => if sample_exists vp w then [EUnlink p] else []
                   | None => []
                   end), f.
    split; [done|].
    split.
    { rewrite Htr. unfold cleanup_events. rewrite Hok.
      by rewrite <- !app_assoc. }
    split; [done|].
    split.
    { rewrite handle_after_app, <- Hh.
      by destruct vp as [p|]; [destruct (sample_exists (Some p) w)|]. }
    rewrite count_app, Hd.
    by destruct vp as [p|]; [destruct (sample_exists (Some p) w)|].
  - rewrite Hr in Hrun. injection Hrun as <- <-. left.
    unfold unlink_ok in Hno.
    destruct vp as [p|]; [|done].
    destruct (sample_exists (Some p) w) eqn:Hs; [|done].
    exists evs, p. split; [done|]. split; [done|].
    split.
    { rewrite Htr. unfold cleanup_events, unlink_ok. rewrite Hs, Hno.
      by rewrite app_nil_r. }
    split; [done|].
    split.
    { destruct p as [|c p]; [done|]. by apply bool_decide_eq_true in Hs. }
    split; [|done].
    rewrite Hfs. unfold cleanup_fs. by rewrite Hs, Hno.
Qed.

(** X15. The route answers 500 in three cases only.  The body is no
    dict, or its [url] is a true value that is no string: nothing is
    called and nothing changes.  Or the unlink of the sample in the
    orchestrator's clean-up raised: it is the last call of the request
    and the sample is still there.  Or the remote deletion of the
    clean-up raised: it is the last call of the request, made on the
    handle the service had last returned.  In the last two cases no
    other remote deletion was tried. *)
Theorem server_error_causes (fuel : nat) (env : Env)
    (data : Request) (w : World) (msg : string) :
  fst (analyze_video fuel env data w) = Ret (RespError msg 500) ->
  unusable_body data = true /\ snd (analyze_video fuel env data w) = w \/
  (exists evs p,
     trace (snd (analyze_video fuel env data w))
     = trace w ++ evs ++ [EUnlink p] /\
     env_unlink env p = false /\
     p ∈ fs (snd (analyze_video fuel env data w)) /\
     count is_delete evs = 0%nat) \/
  (exists evs f,
     trace (snd (analyze_video fuel env data w))
     = trace w ++ evs ++ [EDeleteFile (file_name f)] /\
     env_delete_file env (file_name f) = false /\
     handle_after None evs = Some f /\
     count is_delete evs = 0%nat).
Proof.
  destruct (analyze_video_cases fuel env data w)
    as [[msg' ->]|[(url & msg' & _ & _ & ->)
                  |[(url & info & vp & w1 & ra & w2 & _ & _ & Hs & Ha & ->)
                   |[Hbad ->]]]];
    [done|done| |by left].
  destruct ra as [a|e|]; [done| |done]. intros _. simpl. right.
  assert (Hw1 : trace w1
    = trace w ++ [EExtractInfo url]
        ++ sampling_events env url (req_analyze_video_content data)).
  { replace w1 with (snd (sampling env url (req_analyze_video_content data)
                            (log (EExtractInfo url) w))) by (by rewrite Hs).
    rewrite sampling_trace. simpl. by rewrite <- app_assoc. }
  set (pre := [EExtractInfo url]
                ++ sampling_events env url (req_analyze_video_content data))
    in *.
  assert (Hpre : forall init, handle_after init pre = init).
  { intros init. unfold pre, sampling_events.
    destruct (req_analyze_video_content data); [|done].
    by destruct (env_tempfile env). }
  assert (Hpd : count is_delete pre = 0%nat).
  { unfold pre, sampling_events.
    destruct (req_analyze_video_content data); [|done].
    by destruct (env_tempfile env). }
  destruct (analyze_with_gemini_raises _ _ _ _ _ _ _ Ha)
    as [(evs & p & _ & _ & Htr & Hun & Hin & Hfs & Hd & _)
       |(evs & f & _ & Htr & Hdel & Hh & Hd)].
  - left. exists (pre ++ evs), p.
    split; [by rewrite Htr, Hw1, <- !app_assoc|].
    split; [done|].
    split; [by rewrite Hfs|by rewrite count_app, Hpd, Hd].
  - right. exists (pre ++ evs), f.
    split; [by rewrite Htr, Hw1, <- !app_assoc|].
    split; [done|].
    split; [by rewrite handle_after_app, Hpre|].
    by rewrite count_app, Hpd, Hd.
Qed.

Lemma server_error_causes_witness :
  let run := analyze_video 5 env_unlink_fails
               (mkRequest (Some demo_url) true) world_empty in
  unusable_body (mkRequest (Some demo_url) true) = true /\ snd run = world_empty \/
  (exists evs p,
     trace (snd run) = trace world_empty ++ evs ++ [EUnlink p] /\
     env_unlink env_unlink_fails p = false /\
     p ∈ fs (snd run) /\
     count is_delete evs = 0%nat) \/
  (exists evs f,
     trace (snd run) = trace world_empty ++ evs ++ [EDeleteFile (file_name f)] /\
     env_delete_file env_unlink_fails (file_name f) = false /\
     handle_after None evs = Some f /\
     count is_delete evs = 0%nat).
Proof.
  apply (server_error_causes 5 env_unlink_fails
           (mkRequest (Some demo_url) true) world_empty
           "Internal server error").
  vm_compute. reflexivity.
Defined.

(** The three causes on sample requests: a body that is a list, a URL
    that is a number, and a remote deletion that raises. *)
Example server_error_samples :
  analyze_video 5 env_ok BodyOther world_empty
  = (Ret (RespError "Internal server error" 500), world_empty) /\
  analyze_video 5 env_ok (BodyDict {[ "url" := VOther true ]}) world_empty
  = (Ret (RespError "Internal server error" 500), world_empty) /\
  fst (analyze_video 5 env_delete_fails (mkRequest (Some demo_url) true)
         world_empty)
  = Ret (RespError "Internal server error" 500) /\
  analyze_video 5 env_ok (BodyDict {[ "url" := VOther false ]}) world_empty
  = (Ret (RespError "URL is required" 400), world_empty).
Proof. repeat split; vm_compute; reflexivity. Qed.

Lemma extract_video_id_nonempty (url g : pystr) :
  extract_video_id url = Some g -> g <> [].
Proof.
  intros Hg. unfold extract_video_id in Hg.
  pose proof (first_match_spec patterns url) as H. rewrite Hg in H.
  destruct H as (i & p & _ & Hp & _).
  by apply re_search_sound in Hp as (pre & l & rest & _ & _ & Hne & _).
Qed.

(** X16. A request with sampling whose download succeeds, when it
    ends: if the unlink of the clean-up goes through, the temporary file
    is gone and the rest of local storage is as it was, whatever the
    response; if that unlink raises, the file is still there and the
    response is the 500 error. *)
Theorem sampled_request_storage (fuel : nat) (env : Env)
    (url g p : pystr) (info : InfoDict) (w : World) :
  url <> [] -> extract_video_id url = Some g ->
  env_extract_info env url = Some info ->
  env_tempfile env = Some p -> p <> [] ->
  env_download env url p = true ->
  fst (analyze_video fuel env (mkRequest (Some url) true) w) <> Diverge ->
  fs (snd (analyze_video fuel env (mkRequest (Some url) true) w))
  = (if env_unlink env p then fs w ∖ {[p]} else fs w ∪ {[p]}) /\
  (env_unlink env p = false ->
   fst (analyze_video fuel env (mkRequest (Some url) true) w)
   = Ret (RespError "Internal server error" 500)).
Proof.
  intros Hurl Hid Hinfo Htmp Hp Hdl.
  rewrite (analyze_video_run fuel env url g true info w Hurl Hid
             (extract_video_id_nonempty url g Hid) Hinfo).
  unfold sampling. rewrite Htmp, Hdl. cbn [fst snd].
  set (w1 := mkWorld _ _ _).
  intros Hnd.
  destruct (analyze_with_gemini_run fuel env (video_of_info info) (Some p) w1)
    as (rb & l & w1' & evs & _ & _ & _ & _ & Hdiv & Hend).
  assert (Hrb : rb <> Diverge).
  { intros ->. by rewrite (Hdiv eq_refl) in Hnd. }
  destruct (Hend Hrb) as (w2 & _ & Hfs & _ & Hres).
  assert (Hin : p ∈ fs w1).
  { apply elem_of_union_r. by apply elem_of_singleton. }
  assert (Hs : sample_exists (Some p) w1 = true).
  { destruct p as [|c p]; [done|]. by apply bool_decide_eq_true_2. }
  assert (Hw2 : snd (analyze_with_gemini fuel env (video_of_info info)
                       (Some p) w1) = w2)
    by (by destruct Hres as [[-> _] | [[-> _] | [-> _]]]).
  rewrite Hw2, Hfs. unfold cleanup_fs. rewrite Hs. cbn [andb].
  split.
  - destruct (env_unlink env p); [|done].
    apply set_eq. intros x. subst w1. cbn [fs].
    rewrite !elem_of_difference, elem_of_union. tauto.
  - intros Hun.
    destruct Hres as [[_ Hok] | [[_ [Hok _]] | [-> _]]]; [| |done].
    all: unfold unlink_ok in Hok; rewrite Hs, Hun in Hok; done.
Qed.

Lemma sampled_request_storage_witness :
  let run := analyze_video 5 env_unlink_fails (mkRequest (Some demo_url) true)
               world_empty in
  fs (snd run)
  = (if env_unlink env_unlink_fails demo_path
     then fs world_empty ∖ {[demo_path]}
     else fs world_empty ∪ {[demo_path]}) /\
  (env_unlink env_unlink_fails demo_path = false ->
   fst run = Ret (RespError "Internal server error" 500)).
Proof.
  apply (sampled_request_storage 5 env_unlink_fails demo_url (lit "abc123")
           demo_path demo_info world_empty).
  - discriminate.
  - reflexivity.
  - reflexivity.
  - reflexivity.
  - discriminate.
  - reflexivity.
  - vm_compute. discriminate.
Defined.

(** X17. When no temporary file can be allocated, a request with
    sampling goes exactly like the same request without: same answer,
    same calls, same storage. *)
Theorem no_tempfile_is_metadata_only (fuel : nat) (env : Env)
    (url : option pystr) (w : World) :
  env_tempfile env = None ->
  analyze_video fuel env (mkRequest url true) w
  = analyze_video fuel env (mkRequest url false) w.
Proof.
  intros Htmp.
  destruct url as [[|c url]|];
    [by rewrite !analyze_video_mkRequest| |by rewrite !analyze_video_mkRequest].
  destruct (extract_video_id (c :: url)) as [[|c' g]|] eqn:Hid.
  - rewrite !analyze_video_mkRequest. unfold try_except. by rewrite Hid.
  - destruct (env_extract_info env (c :: url)) as [info|] eqn:Hinfo.
    + rewrite !(analyze_video_run fuel env (c :: url) (c' :: g) _ info w)
        by done.
      unfold sampling. by rewrite Htmp.
    + rewrite !analyze_video_mkRequest. unfold try_except. rewrite Hid.
      unfold bind. by rewrite get_video_info_run, Hinfo.
  - rewrite !analyze_video_mkRequest. unfold try_except. by rewrite Hid.
Qed.

Lemma no_tempfile_is_metadata_only_witness :
  analyze_video 5 env_no_id (mkRequest (Some demo_url) true) world_empty
  = analyze_video 5 env_no_id (mkRequest (Some demo_url) false) world_empty.
Proof.
  apply (no_tempfile_is_metadata_only 5 env_no_id (Some demo_url) world_empty).
  reflexivity.
Defined.

(** ** The orchestrator on a sample, case by case *)

Lemma sample_exists_in (p : pystr) (w : World) :
  p <> [] -> p ∈ fs w -> sample_exists (Some p) w = true.
Proof.
  intros Hp Hin. destruct p as [|c p]; [done|].
  by apply bool_decide_eq_true_2.
Qed.

(** The [finally] block on an existing sample, without a handle and
    with one. *)
Lemma analyze_cleanup_no_handle (env : Env) (p : pystr) (w1 : World) :
  p <> [] -> p ∈ fs w1 ->
  analyze_cleanup env (Some p) (None, w1)
  = (if env_unlink env p then Ret tt else Raise OSError,
     (None,
      mkWorld (if env_unlink env p then fs w1 ∖ {[p]} else fs w1)
              (trace w1 ++ [EUnlink p])
              (fetches w1))).
Proof.
  intros Hp Hin. unfold analyze_cleanup.
  unfold bind at 1. rewrite sample_present_run, (sample_exists_in p w1 Hp Hin).
  unfold bind, in_world, os_unlink, get_local, ret.
  cbn [fst snd]. rewrite (bool_decide_eq_true_2 _ Hin).
  by destruct (env_unlink env p).
Qed.

Lemma analyze_cleanup_present (env : Env) (p : pystr) (f : File)
    (w1 : World) :
  p <> [] -> p ∈ fs w1 ->
  analyze_cleanup env (Some p) (Some f, w1)
  = (if env_unlink env p
     then if env_delete_file env (file_name f) then Ret tt
          else Raise DeleteError
     else Raise OSError,
     (Some f,
      mkWorld (if env_unlink env p then fs w1 ∖ {[p]} else fs w1)
              (trace w1 ++ [EUnlink p]
                 ++ if env_unlink env p then [EDeleteFile (file_name f)]
                    else [])
              (fetches w1))).
Proof.
  intros Hp Hin. unfold analyze_cleanup.
  unfold bind at 1. rewrite sample_present_run, (sample_exists_in p w1 Hp Hin).
  unfold bind, in_world, os_unlink, get_local, genai_delete_file, emit, ret.
  cbn [fst snd]. rewrite (bool_decide_eq_true_2 _ Hin).
  destruct (env_unlink env p); cbn; [|done].
  destruct (env_delete_file env (file_name f)); cbn;
    unfold log; cbn; by rewrite <- !app_assoc.
Qed.

(** X18. When the upload of the sample raises, nothing is generated,
    not even from the metadata alone, and no remote deletion is tried:
    the only calls are the upload and the unlink of the sample.  The
    call returns the fallback report and the sample is gone, unless the
    unlink raises: its exception then leaves the call and the sample
    stays. *)
Theorem upload_failure_gives_fallback (fuel : nat) (env : Env)
    (vi : VideoAnalysis) (p : pystr) (w : World) :
  p <> [] -> p ∈ fs w -> env_upload env p = None ->
  analyze_with_gemini fuel env vi (Some p) w
  = (if env_unlink env p then Ret get_fallback_analysis else Raise OSError,
     mkWorld (if env_unlink env p then fs w ∖ {[p]} else fs w)
             (trace w ++ [EUpload p None; EUnlink p])
             (fetches w)).
Proof.
  intros Hp Hin Hup.
  pose proof (sample_exists_in p w Hp Hin) as Hs.
  unfold analyze_with_gemini, with_frame, try_finally, try_except,
    analyze_body.
  unfold bind at 1. rewrite sample_present_run, Hs.
  unfold bind at 1. unfold bind at 1.
  unfold in_world at 1, genai_upload_file, bind at 1, emit.
  rewrite Hup. cbn [fst snd raise ret]. cbv beta iota.
  rewrite analyze_cleanup_no_handle by done.
  destruct (env_unlink env p); cbn; by rewrite <- !app_assoc.
Qed.

Lemma upload_failure_gives_fallback_witness :
  let env := env_download_fails in
  analyze_with_gemini 5 env demo_video (Some demo_path) world_with_sample
  = (if env_unlink env demo_path then Ret get_fallback_analysis
     else Raise OSError,
     mkWorld (if env_unlink env demo_path
              then fs world_with_sample ∖ {[demo_path]}
              else fs world_with_sample)
             (trace world_with_sample
                ++ [EUpload demo_path None; EUnlink demo_path])
             (fetches world_with_sample)).
Proof.
  apply (upload_failure_gives_fallback 5 env_download_fails demo_video
           demo_path world_with_sample).
  - discriminate.
  - vm_compute. reflexivity.
  - reflexivity.
Defined.

(** X19. When the handle the upload returns is already out of
    [PROCESSING], the orchestrator neither sleeps nor fetches the
    status: it generates at once with that handle (or not at all when
    the handle is [FAILED]), then unlinks the sample and, unless that
    unlink raises, deletes the remote file.  The answer is the parsed
    text or the fallback report, unless one of the two clean-up calls
    raises; when the unlink raises the sample stays. *)
Theorem settled_upload_skips_polling (fuel : nat) (env : Env)
    (vi : VideoAnalysis) (p : pystr) (f : File) (w : World) :
  p <> [] -> p ∈ fs w -> env_upload env p = Some f ->
  is_processing f = false ->
  analyze_with_gemini fuel env vi (Some p) w
  = (if env_unlink env p
     then if env_delete_file env (file_name f)
          then Ret (if is_failed f then get_fallback_analysis
                    else answer_or_fallback
                           (env_generate env (build_prompt vi) (Some f)))
          else Raise DeleteError
     else Raise OSError,
     mkWorld (if env_unlink env p then fs w ∖ {[p]} else fs w)
             (trace w ++ [EUpload p (Some f)]
                ++ (if is_failed f then []
                    else [generate_event env vi (Some f)])
                ++ [EUnlink p]
                ++ (if env_unlink env p then [EDeleteFile (file_name f)]
                    else []))
             (fetches w)).
Proof.
  intros Hp Hin Hup Hproc.
  pose proof (sample_exists_in p w Hp Hin) as Hs.
  unfold analyze_with_gemini, with_frame, try_finally, try_except,
    analyze_body.
  unfold bind at 1. rewrite sample_present_run, Hs.
  unfold bind at 1. unfold bind at 1.
  unfold in_world at 1, genai_upload_file, bind at 1, emit.
  rewrite Hup. cbn [fst snd raise ret].
  unfold bind at 1. unfold set_local at 1. cbn [fst snd].
  unfold bind at 1. rewrite (poll_done fuel env f Hproc). unfold ret at 1.
  unfold generate_event, answer_or_fallback.
  destruct (is_failed f) eqn:Hf.
  - unfold raise at 1. unfold ret at 1. cbv beta iota.
    rewrite analyze_cleanup_present by done.
    destruct (env_unlink env p);
      [destruct (env_delete_file env (file_name f))|]; cbn;
      by rewrite <- !app_assoc.
  - unfold ret at 1. unfold bind at 1. unfold get_local at 1.
    unfold bind at 1. unfold in_world at 1, generate_content, bind at 1, emit.
    cbn [fst snd].
    destruct (env_generate env (build_prompt vi) (Some f)) as [text|].
    + unfold ret at 1. cbv beta iota.
      destruct (json_loads (clean_response text));
        [unfold ret at 1|unfold raise at 1; unfold ret at 1]; cbv beta iota;
        (rewrite analyze_cleanup_present by done);
        (destruct (env_unlink env p);
           [destruct (env_delete_file env (file_name f))|]); cbn;
        by rewrite <- !app_assoc.
    + unfold raise at 1. unfold ret at 1. cbv beta iota.
      rewrite analyze_cleanup_present by done.
      destruct (env_unlink env p);
        [destruct (env_delete_file env (file_name f))|]; cbn;
        by rewrite <- !app_assoc.
Qed.

Lemma settled_upload_skips_polling_witness :
  analyze_with_gemini 0 env_unlink_fails demo_video (Some demo_path)
    world_with_sample
  = (Raise OSError,
     mkWorld (fs world_with_sample)
       [EUpload demo_path (Some (mkFile demo_name READY));
        generate_event env_unlink_fails demo_video
          (Some (mkFile demo_name READY));
        EUnlink demo_path]
       0).
Proof.
  apply (settled_upload_skips_polling 0 env_unlink_fails demo_video
           demo_path (mkFile demo_name READY) world_with_sample).
  - discriminate.
  - vm_compute. reflexivity.
  - reflexivity.
  - reflexivity.
Defined.
